(** * speech_cn: session lifecycle of the browser speech client

    A shallow embedding of [src/src/App.jsx] (class [SpeechService] and the
    React component [App]) and of [extractSpeakerId] as it appears in
    [src/src/App.jsx] and in [src/frontend/src/services/speechService.js].

    - JavaScript values are a small inductive type with the language's
      truthiness, property reads and [||].
    - Exceptions are a completion monad ([Normal] / [Throw]) with
      [try ... catch].
    - The service object is a record; its asynchronous methods are cut at
      their [await] points and at the SDK callbacks: every suspended
      continuation is an entry of a pending list, and the environment
      (timers, the token endpoint, the SDK, the caller) drives the service
      through [step].
    - Callbacks handed to the constructor are optional ([cb?.(...)]): the
      record [Callbacks] says which ones are installed, and a call that
      takes place is appended to the world's trace. *)

From Stdlib Require Import String Ascii ZArith List Bool Lia Arith Permutation.
From Stdlib Require Import DecimalString Decimal DecimalNat.
Import ListNotations.

Local Open Scope string_scope.
Local Open Scope list_scope.

Set Warnings "-register-all".

(* ================================================================== *)
(** * JavaScript values                                                *)
(* ================================================================== *)

Module Js.

(** Objects carry a reference number: two objects are the same [Map] key
    exactly when they are the same reference. Numbers are integers here;
    only their truthiness and identity are used by the program. *)
Inductive JsVal : Type :=
| JUndefined
| JNull
| JBool (b : bool)
| JNum (n : Z)
| JStr (s : string)
| JObj (ref : nat) (fields : list (string * JsVal)).

Inductive JsError : Type :=
| TypeError
| SyntaxError
| ReferenceError.

(** Result of evaluating an expression or a block. *)
Inductive Completion (A : Type) : Type :=
| Normal (a : A)
| Throw (e : JsError).

Arguments Normal {A} a.
Arguments Throw {A} e.

Definition bind {A B : Type} (c : Completion A) (k : A -> Completion B)
  : Completion B :=
  match c with
  | Normal a => k a
  | Throw e => Throw e
  end.

(** [try { body } catch { handler }] *)
Definition tryCatch {A : Type} (body : Completion A) (handler : JsError -> Completion A)
  : Completion A :=
  match body with
  | Normal a => Normal a
  | Throw e => handler e
  end.

Definition isEmpty (s : string) : bool :=
  match s with
  | EmptyString => true
  | String _ _ => false
  end.

(** ToBoolean *)
Definition truthy (v : JsVal) : bool :=
  match v with
  | JUndefined => false
  | JNull => false
  | JBool b => b
  | JNum n => negb (Z.eqb n 0)
  | JStr s => negb (isEmpty s)
  | JObj _ _ => true
  end.

Definition isNullish (v : JsVal) : bool :=
  match v with
  | JUndefined | JNull => true
  | _ => false
  end.

Fixpoint lookupField (k : string) (fields : list (string * JsVal)) : JsVal :=
  match fields with
  | [] => JUndefined
  | (k', v) :: rest => if String.eqb k k' then v else lookupField k rest
  end.

(** [v.k]: reading a property of [undefined] or [null] raises a TypeError;
    a primitive has none of the properties read by this program. *)
Definition getProp (v : JsVal) (k : string) : Completion JsVal :=
  match v with
  | JUndefined | JNull => Throw TypeError
  | JObj _ fields => Normal (lookupField k fields)
  | _ => Normal JUndefined
  end.

(** [a || b], with [b] evaluated only when [a] is falsy. *)
Definition jsOr (a b : Completion JsVal) : Completion JsVal :=
  bind a (fun x => if truthy x then Normal x else b).

(** SameValueZero, the key equality of [Map]. *)
Definition sameValueZero (a b : JsVal) : bool :=
  match a, b with
  | JUndefined, JUndefined => true
  | JNull, JNull => true
  | JBool x, JBool y => Bool.eqb x y
  | JNum x, JNum y => Z.eqb x y
  | JStr x, JStr y => String.eqb x y
  | JObj r1 _, JObj r2 _ => Nat.eqb r1 r2
  | _, _ => false
  end.

(** [hay.includes(needle)] on strings. The needles of this program are
    ASCII, for which a match on UTF-8 bytes and a match on UTF-16 code units
    coincide. *)
Fixpoint includes (needle hay : string) : bool :=
  if String.prefix needle hay then true
  else match hay with
       | EmptyString => false
       | String _ rest => includes needle rest
       end.

(** Decimal rendering of a number inside a template string. *)
Definition decimal (n : nat) : string :=
  NilEmpty.string_of_uint (Nat.to_uint n).

End Js.

Import Js.

Declare Scope js_scope.
Notation "x <- c ;; k" := (bind c (fun x => k))
  (at level 61, c at next level, right associativity) : js_scope.
Local Open Scope js_scope.

(* ================================================================== *)
(** * [Map] keyed by JavaScript values                                  *)
(* ================================================================== *)

Module JsMap.

(** Entries in insertion order, as [Map] iterates them. *)
Definition t : Type := list (JsVal * nat).

Definition empty : t := [].

Definition has (m : t) (k : JsVal) : bool :=
  existsb (fun e => sameValueZero (fst e) k) m.

Definition get (m : t) (k : JsVal) : option nat :=
  option_map snd (find (fun e => sameValueZero (fst e) k) m).

Fixpoint replace (m : t) (k : JsVal) (v : nat) : t :=
  match m with
  | [] => []
  | (k', v') :: rest =>
      if sameValueZero k' k then (k', v) :: rest else (k', v') :: replace rest k v
  end.

Definition set (m : t) (k : JsVal) (v : nat) : t :=
  if has m k then replace m k v else m ++ [(k, v)].

Definition size (m : t) : nat := length m.

End JsMap.

(* ================================================================== *)
(** * [extractSpeakerId]                                               *)
(* ================================================================== *)

Section ExtractSpeakerId.

(** [JSON.parse], a built-in: [Throw SyntaxError] on malformed text, any
    value otherwise. *)
Variable JSON_parse : JsVal -> Completion JsVal.

(** [o.a || o.b || o.c || o.d || null] *)
Definition firstTruthyOf (o : JsVal) (a b c d : string) : Completion JsVal :=
  jsOr (getProp o a)
    (jsOr (getProp o b)
       (jsOr (getProp o c)
          (jsOr (getProp o d) (Normal JNull)))).

(** The body of the [try] block of [extractSpeakerId] in [src/src/App.jsx]:
    [Some v] is [return v], [None] is falling out of the block. *)
Definition extractSpeakerId_try (result : JsVal) : Completion (option JsVal) :=
  json <- getProp result "json" ;;
  if truthy json then
    parsed <- JSON_parse json ;;
    v <- firstTruthyOf parsed "SpeakerId" "UserId" "speakerId" "userId" ;;
    Normal (Some v)
  else
    priv <- getProp result "privResult" ;;
    if truthy priv then
      v <- firstTruthyOf priv "SpeakerId" "speakerId" "UserId" "userId" ;;
      Normal (Some v)
    else Normal None.

(** [SpeechService.extractSpeakerId], [src/src/App.jsx] lines 304-323. The
    first test stands outside the [try]. *)
Definition extractSpeakerId (result : JsVal) : Completion JsVal :=
  c <- jsOr (getProp result "userId") (getProp result "speakerId") ;;
  if truthy c then
    jsOr (getProp result "userId") (getProp result "speakerId")
  else
    r <- tryCatch (extractSpeakerId_try result) (fun _ => Normal None) ;;
    match r with
    | Some v => Normal v
    | None => Normal JNull
    end.

(** What [process.env.NODE_ENV === "development"] evaluates to where the
    bundle runs (a ReferenceError where [process] does not exist). *)
Variable nodeEnvIsDevelopment : Completion bool.

(** The body of the [try] block of [extractSpeakerId] in
    [src/frontend/src/services/speechService.js], lines 184-230. *)
Definition extractSpeakerId_service_try (result : JsVal) : Completion (option JsVal) :=
  userId <- getProp result "userId" ;;
  if truthy userId then
    v <- getProp result "userId" ;; Normal (Some v)
  else
  speakerId <- getProp result "speakerId" ;;
  if truthy speakerId then
    v <- getProp result "speakerId" ;; Normal (Some v)
  else
  json <- getProp result "json" ;;
  if truthy json then
    jsonResult <- JSON_parse json ;;
    v <- firstTruthyOf jsonResult "SpeakerId" "UserId" "speakerId" "userId" ;;
    Normal (Some v)
  else
  privResult <- getProp result "privResult" ;;
  inPriv <-
    (if truthy privResult then
       a <- jsOr (getProp privResult "SpeakerId") (getProp privResult "speakerId") ;;
       if truthy a then
         v <- jsOr (getProp privResult "SpeakerId") (getProp privResult "speakerId") ;;
         Normal (Some v)
       else
         b <- jsOr (getProp privResult "UserId") (getProp privResult "userId") ;;
         if truthy b then
           v <- jsOr (getProp privResult "UserId") (getProp privResult "userId") ;;
           Normal (Some v)
         else Normal None
     else Normal None) ;;
  match inPriv with
  | Some v => Normal (Some v)
  | None =>
      (* the debugging dump only logs *)
      _ <- nodeEnvIsDevelopment ;; Normal None
  end.

Definition extractSpeakerId_service (result : JsVal) : Completion JsVal :=
  r <- tryCatch (extractSpeakerId_service_try result) (fun _ => Normal None) ;;
  match r with
  | Some v => Normal v
  | None => Normal JNull
  end.

(** ** The three lookup paths, one by one

    What each path yields on its own: [None] when it finds no identifier or
    raises. *)

Definition firstClassPath (result : JsVal) : option JsVal :=
  match jsOr (getProp result "userId") (getProp result "speakerId") with
  | Normal v => if truthy v then Some v else None
  | Throw _ => None
  end.

Definition jsonPath (result : JsVal) : option JsVal :=
  match getProp result "json" with
  | Normal json =>
      if truthy json then
        match bind (JSON_parse json)
                (fun p => firstTruthyOf p "SpeakerId" "UserId" "speakerId" "userId") with
        | Normal v => if truthy v then Some v else None
        | Throw _ => None
        end
      else None
  | Throw _ => None
  end.

Definition privPath (result : JsVal) : option JsVal :=
  match getProp result "privResult" with
  | Normal priv =>
      if truthy priv then
        match firstTruthyOf priv "SpeakerId" "speakerId" "UserId" "userId" with
        | Normal v => if truthy v then Some v else None
        | Throw _ => None
        end
      else None
  | Throw _ => None
  end.

Definition hasJson (result : JsVal) : bool :=
  match getProp result "json" with
  | Normal json => truthy json
  | Throw _ => false
  end.

Definition orNull (o : option JsVal) : JsVal :=
  match o with
  | Some v => v
  | None => JNull
  end.

(** The priority chain read as a plain fall-through: the first path that
    yields an identifier wins, [null] when none does. *)
Definition extractByPriority (result : JsVal) : JsVal :=
  match firstClassPath result with
  | Some v => v
  | None =>
      match jsonPath result with
      | Some v => v
      | None => orNull (privPath result)
      end
  end.

End ExtractSpeakerId.

(* ================================================================== *)
(** * [getAuthorizationToken]: the failure it reports (lines 30-43)    *)
(* ================================================================== *)

(** [v?.k]: [undefined] on [null] and [undefined], [v.k] otherwise. *)
Definition optProp (v : JsVal) (k : string) : Completion JsVal :=
  if isNullish v then Normal JUndefined else getProp v k.

(** The value interpolated into the message of the [catch] of
    [getAuthorizationToken] (line 40):
    [error.response?.data?.detail || error.message]. A nullish [response]
    ends the whole chain. *)
Definition failureDetail (error : JsVal) : Completion JsVal :=
  jsOr (response <- getProp error "response" ;;
        if isNullish response then Normal JUndefined
        else data <- getProp response "data" ;; optProp data "detail")
       (getProp error "message").

(* ================================================================== *)
(** * The service object and its environment                           *)
(* ================================================================== *)

(** ** Constants of [src/src/App.jsx] *)

Definition TOKEN_REFRESH_INTERVAL : Z := 8 * 60 * 1000.
Definition SESSION_TIMEOUT_MS : Z := 19 * 60 * 1000.
(** Delay of the two [setTimeout(..., 1000)] that re-connect. *)
Definition RECONNECT_DELAY_MS : Z := 1000.
(** The bound [18 * 60 * 1000] of the [sessionStopped] handler. *)
Definition STOPPED_TIMEOUT_THRESHOLD_MS : Z := 18 * 60 * 1000.

Definition reasonDefault : string := "主动重启".
Definition reasonProactive : string := "会话即将超时（19分钟），主动重启".
Definition reasonTimeoutError : string := "检测到超时错误，自动重连".
Definition reasonStopped : string := "会话停止（可能是超时），自动重连".

Definition hintWebSocket : string :=
  String (ascii_of_nat 10)
    "提示: WebSocket 连接失败，请检查网络连接、Token有效性和防火墙设置".
Definition hintTimeout : string :=
  String (ascii_of_nat 10) "提示: 会话超时（通常发生在20分钟后）".

(** Message of the TypeError raised by an assignment to a property of
    [null] (the engine's wording). *)
Definition nullAssignMessage : string :=
  "Cannot set properties of null (setting 'authorizationToken')".

(** ** Callbacks *)

Inductive Callback : Type :=
| OnSessionStarted
| OnSessionRestarting (reason : string)
| OnSessionRestarted
| OnSessionRestartFailed (message : string)
| OnTranscribing (text : string) (speakerId : JsVal)
| OnTranscribed (text : string) (speakerId : JsVal)
| OnSessionStopped
| OnError (message : string)
| OnTokenRefreshed.

(** Which members of the [callbacks] object are functions. *)
Record Callbacks : Type := mkCallbacks {
  has_onSessionStarted : bool;
  has_onSessionRestarting : bool;
  has_onSessionRestarted : bool;
  has_onSessionRestartFailed : bool;
  has_onTranscribing : bool;
  has_onTranscribed : bool;
  has_onSessionStopped : bool;
  has_onError : bool;
  has_onTokenRefreshed : bool
}.

Definition installed (cbs : Callbacks) (cb : Callback) : bool :=
  match cb with
  | OnSessionStarted => has_onSessionStarted cbs
  | OnSessionRestarting _ => has_onSessionRestarting cbs
  | OnSessionRestarted => has_onSessionRestarted cbs
  | OnSessionRestartFailed _ => has_onSessionRestartFailed cbs
  | OnTranscribing _ _ => has_onTranscribing cbs
  | OnTranscribed _ _ => has_onTranscribed cbs
  | OnSessionStopped => has_onSessionStopped cbs
  | OnError _ => has_onError cbs
  | OnTokenRefreshed => has_onTokenRefreshed cbs
  end.

(** ** Resources, timers, suspended continuations *)

Inductive Resource : Type :=
| TranscriberRes (c : nat)
| AudioConfigRes (a : nat)
| SpeechConfigRes (s : nat).

Record SpeechConfig : Type := mkSpeechConfig {
  configId : nat;
  authorizationToken : string;
  configRegion : string
}.

Inductive TimerKind : Type :=
| TokenRefreshTick                   (* the [setInterval] of startTokenRefresh *)
| ProactiveRestart                   (* the [setTimeout] of startSessionRestartTimer *)
| DelayedRestart (reason : string).  (* the [setTimeout(..., 1000)] of the handlers *)

Record Timer : Type := mkTimer {
  timerId : nat;
  timerDelay : Z;
  timerKind : TimerKind
}.

(** Who awaits [start()]. *)
Inductive StartCaller : Type :=
| ByCaller
| ByRestart.

(** What resumes when [getAuthorizationToken] settles. *)
Inductive TokenCont : Type :=
| TokForStart (caller : StartCaller)
| TokForRefresh.

(** What resumes when [stopTranscribingAsync] reports success. *)
Inductive StopCont : Type :=
| StopForRestart (wasRunning : bool)
| StopForStop.

(** What the service does to the outside, in order. *)
Inductive Effect : Type :=
| Call (cb : Callback)
| TokenRequest (rid : nat)
| SdkStartTranscribing (c : nat)
| SdkStopTranscribing (c : nat)
| SdkClose (r : Resource)
| StartRejected (message : string).   (* the promise of a caller's start() rejects *)

Record World : Type := mkWorld {
  callbacks : Callbacks;
  (* fields of the SpeechService object *)
  conversationTranscriber : option nat;
  audioConfig : option nat;
  speechConfig : option SpeechConfig;
  isRunning : bool;
  tokenRefreshInterval : option nat;
  sessionRestartTimer : option nat;
  sessionStartTime : option Z;
  autoReconnectEnabled : bool;
  (* the event loop around it *)
  timers : list Timer;
  pendingTokens : list (nat * TokenCont);
  pendingStops : list (nat * StopCont);
  pendingOpens : list nat;
  nextId : nat;
  trace : list Effect
}.

(** [new SpeechService(callbacks)] *)
Definition newService (cbs : Callbacks) : World :=
  {| callbacks := cbs;
     conversationTranscriber := None;
     audioConfig := None;
     speechConfig := None;
     isRunning := false;
     tokenRefreshInterval := None;
     sessionRestartTimer := None;
     sessionStartTime := None;
     autoReconnectEnabled := false;
     timers := [];
     pendingTokens := [];
     pendingStops := [];
     pendingOpens := [];
     nextId := 1;
     trace := [] |}.

(** ** Field updates *)

Definition set_conversationTranscriber (x : option nat) (w : World) : World :=
  {| callbacks := callbacks w; conversationTranscriber := x; audioConfig :=
     audioConfig w; speechConfig := speechConfig w; isRunning := isRunning w;
     tokenRefreshInterval := tokenRefreshInterval w; sessionRestartTimer :=
     sessionRestartTimer w; sessionStartTime := sessionStartTime w;
     autoReconnectEnabled := autoReconnectEnabled w; timers := timers w;
     pendingTokens := pendingTokens w; pendingStops := pendingStops w;
     pendingOpens := pendingOpens w; nextId := nextId w; trace := trace w |}.

Definition set_audioConfig (x : option nat) (w : World) : World :=
  {| callbacks := callbacks w; conversationTranscriber :=
     conversationTranscriber w; audioConfig := x; speechConfig := speechConfig
     w; isRunning := isRunning w; tokenRefreshInterval := tokenRefreshInterval
     w; sessionRestartTimer := sessionRestartTimer w; sessionStartTime :=
     sessionStartTime w; autoReconnectEnabled := autoReconnectEnabled w;
     timers := timers w; pendingTokens := pendingTokens w; pendingStops :=
     pendingStops w; pendingOpens := pendingOpens w; nextId := nextId w; trace
     := trace w |}.

Definition set_speechConfig (x : option SpeechConfig) (w : World) : World :=
  {| callbacks := callbacks w; conversationTranscriber :=
     conversationTranscriber w; audioConfig := audioConfig w; speechConfig :=
     x; isRunning := isRunning w; tokenRefreshInterval := tokenRefreshInterval
     w; sessionRestartTimer := sessionRestartTimer w; sessionStartTime :=
     sessionStartTime w; autoReconnectEnabled := autoReconnectEnabled w;
     timers := timers w; pendingTokens := pendingTokens w; pendingStops :=
     pendingStops w; pendingOpens := pendingOpens w; nextId := nextId w; trace
     := trace w |}.

Definition set_isRunning (x : bool) (w : World) : World :=
  {| callbacks := callbacks w; conversationTranscriber :=
     conversationTranscriber w; audioConfig := audioConfig w; speechConfig :=
     speechConfig w; isRunning := x; tokenRefreshInterval :=
     tokenRefreshInterval w; sessionRestartTimer := sessionRestartTimer w;
     sessionStartTime := sessionStartTime w; autoReconnectEnabled :=
     autoReconnectEnabled w; timers := timers w; pendingTokens :=
     pendingTokens w; pendingStops := pendingStops w; pendingOpens :=
     pendingOpens w; nextId := nextId w; trace := trace w |}.

Definition set_tokenRefreshInterval (x : option nat) (w : World) : World :=
  {| callbacks := callbacks w; conversationTranscriber :=
     conversationTranscriber w; audioConfig := audioConfig w; speechConfig :=
     speechConfig w; isRunning := isRunning w; tokenRefreshInterval := x;
     sessionRestartTimer := sessionRestartTimer w; sessionStartTime :=
     sessionStartTime w; autoReconnectEnabled := autoReconnectEnabled w;
     timers := timers w; pendingTokens := pendingTokens w; pendingStops :=
     pendingStops w; pendingOpens := pendingOpens w; nextId := nextId w; trace
     := trace w |}.

Definition set_sessionRestartTimer (x : option nat) (w : World) : World :=
  {| callbacks := callbacks w; conversationTranscriber :=
     conversationTranscriber w; audioConfig := audioConfig w; speechConfig :=
     speechConfig w; isRunning := isRunning w; tokenRefreshInterval :=
     tokenRefreshInterval w; sessionRestartTimer := x; sessionStartTime :=
     sessionStartTime w; autoReconnectEnabled := autoReconnectEnabled w;
     timers := timers w; pendingTokens := pendingTokens w; pendingStops :=
     pendingStops w; pendingOpens := pendingOpens w; nextId := nextId w; trace
     := trace w |}.

Definition set_sessionStartTime (x : option Z) (w : World) : World :=
  {| callbacks := callbacks w; conversationTranscriber :=
     conversationTranscriber w; audioConfig := audioConfig w; speechConfig :=
     speechConfig w; isRunning := isRunning w; tokenRefreshInterval :=
     tokenRefreshInterval w; sessionRestartTimer := sessionRestartTimer w;
     sessionStartTime := x; autoReconnectEnabled := autoReconnectEnabled w;
     timers := timers w; pendingTokens := pendingTokens w; pendingStops :=
     pendingStops w; pendingOpens := pendingOpens w; nextId := nextId w; trace
     := trace w |}.

Definition set_autoReconnectEnabled (x : bool) (w : World) : World :=
  {| callbacks := callbacks w; conversationTranscriber :=
     conversationTranscriber w; audioConfig := audioConfig w; speechConfig :=
     speechConfig w; isRunning := isRunning w; tokenRefreshInterval :=
     tokenRefreshInterval w; sessionRestartTimer := sessionRestartTimer w;
     sessionStartTime := sessionStartTime w; autoReconnectEnabled := x; timers
     := timers w; pendingTokens := pendingTokens w; pendingStops :=
     pendingStops w; pendingOpens := pendingOpens w; nextId := nextId w; trace
     := trace w |}.

Definition set_timers (x : list Timer) (w : World) : World :=
  {| callbacks := callbacks w; conversationTranscriber :=
     conversationTranscriber w; audioConfig := audioConfig w; speechConfig :=
     speechConfig w; isRunning := isRunning w; tokenRefreshInterval :=
     tokenRefreshInterval w; sessionRestartTimer := sessionRestartTimer w;
     sessionStartTime := sessionStartTime w; autoReconnectEnabled :=
     autoReconnectEnabled w; timers := x; pendingTokens := pendingTokens w;
     pendingStops := pendingStops w; pendingOpens := pendingOpens w; nextId :=
     nextId w; trace := trace w |}.

Definition set_pendingTokens (x : list (nat * TokenCont)) (w : World) : World :=
  {| callbacks := callbacks w; conversationTranscriber :=
     conversationTranscriber w; audioConfig := audioConfig w; speechConfig :=
     speechConfig w; isRunning := isRunning w; tokenRefreshInterval :=
     tokenRefreshInterval w; sessionRestartTimer := sessionRestartTimer w;
     sessionStartTime := sessionStartTime w; autoReconnectEnabled :=
     autoReconnectEnabled w; timers := timers w; pendingTokens := x;
     pendingStops := pendingStops w; pendingOpens := pendingOpens w; nextId :=
     nextId w; trace := trace w |}.

Definition set_pendingStops (x : list (nat * StopCont)) (w : World) : World :=
  {| callbacks := callbacks w; conversationTranscriber :=
     conversationTranscriber w; audioConfig := audioConfig w; speechConfig :=
     speechConfig w; isRunning := isRunning w; tokenRefreshInterval :=
     tokenRefreshInterval w; sessionRestartTimer := sessionRestartTimer w;
     sessionStartTime := sessionStartTime w; autoReconnectEnabled :=
     autoReconnectEnabled w; timers := timers w; pendingTokens :=
     pendingTokens w; pendingStops := x; pendingOpens := pendingOpens w;
     nextId := nextId w; trace := trace w |}.

Definition set_pendingOpens (x : list nat) (w : World) : World :=
  {| callbacks := callbacks w; conversationTranscriber :=
     conversationTranscriber w; audioConfig := audioConfig w; speechConfig :=
     speechConfig w; isRunning := isRunning w; tokenRefreshInterval :=
     tokenRefreshInterval w; sessionRestartTimer := sessionRestartTimer w;
     sessionStartTime := sessionStartTime w; autoReconnectEnabled :=
     autoReconnectEnabled w; timers := timers w; pendingTokens :=
     pendingTokens w; pendingStops := pendingStops w; pendingOpens := x;
     nextId := nextId w; trace := trace w |}.

Definition set_nextId (x : nat) (w : World) : World :=
  {| callbacks := callbacks w; conversationTranscriber :=
     conversationTranscriber w; audioConfig := audioConfig w; speechConfig :=
     speechConfig w; isRunning := isRunning w; tokenRefreshInterval :=
     tokenRefreshInterval w; sessionRestartTimer := sessionRestartTimer w;
     sessionStartTime := sessionStartTime w; autoReconnectEnabled :=
     autoReconnectEnabled w; timers := timers w; pendingTokens :=
     pendingTokens w; pendingStops := pendingStops w; pendingOpens :=
     pendingOpens w; nextId := x; trace := trace w |}.

Definition set_trace (x : list Effect) (w : World) : World :=
  {| callbacks := callbacks w; conversationTranscriber :=
     conversationTranscriber w; audioConfig := audioConfig w; speechConfig :=
     speechConfig w; isRunning := isRunning w; tokenRefreshInterval :=
     tokenRefreshInterval w; sessionRestartTimer := sessionRestartTimer w;
     sessionStartTime := sessionStartTime w; autoReconnectEnabled :=
     autoReconnectEnabled w; timers := timers w; pendingTokens :=
     pendingTokens w; pendingStops := pendingStops w; pendingOpens :=
     pendingOpens w; nextId := nextId w; trace := x |}.

(** ** Primitive steps *)

Definition bump (w : World) : World := set_nextId (S (nextId w)) w.

Definition log (e : Effect) (w : World) : World :=
  set_trace (trace w ++ [e]) w.

(** [this.callbacks.cb?.(args)] *)
Definition emit (cb : Callback) (w : World) : World :=
  if installed (callbacks w) cb then log (Call cb) w else w.

(** [setTimeout] / [setInterval]: the handle is [nextId w]. *)
Definition setTimer (delay : Z) (kind : TimerKind) (w : World) : World :=
  bump (set_timers (timers w ++ [mkTimer (nextId w) delay kind]) w).

(** [clearTimeout] / [clearInterval] *)
Definition clearTimer (id : nat) (w : World) : World :=
  set_timers (filter (fun t => negb (Nat.eqb (timerId t) id)) (timers w)) w.

Definition findTimer (id : nat) (ts : list Timer) : option Timer :=
  find (fun t => Nat.eqb (timerId t) id) ts.

Fixpoint lookupPending {K : Type} (rid : nat) (l : list (nat * K)) : option K :=
  match l with
  | [] => None
  | (r, k) :: rest => if Nat.eqb r rid then Some k else lookupPending rid rest
  end.

Definition removePending {K : Type} (rid : nat) (l : list (nat * K)) : list (nat * K) :=
  filter (fun e => negb (Nat.eqb (fst e) rid)) l.

Definition memNat (n : nat) (l : list nat) : bool := existsb (Nat.eqb n) l.

Definition removeNat (n : nat) (l : list nat) : list nat :=
  filter (fun m => negb (Nat.eqb m n)) l.

(** [resource?.close()] *)
Definition closeResource (r : option Resource) (w : World) : World :=
  match r with
  | Some x => log (SdkClose x) w
  | None => w
  end.

(** [[transcriber, audioConfig, speechConfig].forEach(r => r?.close())] *)
Definition closeAll (w : World) : World :=
  let w1 := closeResource (option_map TranscriberRes (conversationTranscriber w)) w in
  let w2 := closeResource (option_map AudioConfigRes (audioConfig w1)) w1 in
  closeResource (option_map (fun c => SpeechConfigRes (configId c)) (speechConfig w2)) w2.

(** The asynchronous [getAuthorizationToken()]: the request leaves, the
    continuation [k] waits. *)
Definition requestToken (k : TokenCont) (w : World) : World :=
  bump (log (TokenRequest (nextId w))
          (set_pendingTokens (pendingTokens w ++ [(nextId w, k)]) w)).

(** ** Timers of the service (lines 58-90) *)

Definition stopTokenRefresh (w : World) : World :=
  match tokenRefreshInterval w with
  | Some id => set_tokenRefreshInterval None (clearTimer id w)
  | None => w
  end.

Definition startTokenRefresh (w : World) : World :=
  let w1 := stopTokenRefresh w in
  set_tokenRefreshInterval (Some (nextId w1))
    (setTimer TOKEN_REFRESH_INTERVAL TokenRefreshTick w1).

Definition stopSessionRestartTimer (w : World) : World :=
  match sessionRestartTimer w with
  | Some id => set_sessionRestartTimer None (clearTimer id w)
  | None => w
  end.

Definition startSessionRestartTimer (w : World) : World :=
  let w1 := stopSessionRestartTimer w in
  set_sessionRestartTimer (Some (nextId w1))
    (setTimer SESSION_TIMEOUT_MS ProactiveRestart w1).

(** [refreshToken], up to its [await] (lines 45-56). *)
Definition refreshToken (w : World) : World :=
  match conversationTranscriber w, speechConfig w with
  | Some _, Some _ => requestToken TokForRefresh w
  | _, _ => w
  end.

(** [refreshToken] after a successful fetch. *)
Definition refreshToken_fetched (token : string) (w : World) : World :=
  match speechConfig w with
  | Some cfg =>
      emit OnTokenRefreshed
        (set_speechConfig
           (Some (mkSpeechConfig (configId cfg) token (configRegion cfg))) w)
  | None =>
      emit (OnError ("刷新 token 失败: " ++ nullAssignMessage)) w
  end.

Definition tokenErrorMessage (detail : string) : string :=
  ("获取token失败: " ++ detail)%string.

(** [refreshToken] when the fetch failed. *)
Definition refreshToken_failed (detail : string) (w : World) : World :=
  emit (OnError ("刷新 token 失败: " ++ tokenErrorMessage detail)) w.

(** ** [start] (lines 146-218) *)

(** [start()] has returned to the one who awaits it. In [restartSession]
    the next statement is the [onSessionRestarted] notification (line 137). *)
Definition startReturned (caller : StartCaller) (w : World) : World :=
  match caller with
  | ByCaller => w
  | ByRestart => emit OnSessionRestarted w
  end.

(** [start()] has thrown [Error(message)]. In [restartSession] the [catch]
    of lines 139-143 runs. *)
Definition startThrew (caller : StartCaller) (message : string) (w : World) : World :=
  match caller with
  | ByCaller => log (StartRejected message) w
  | ByRestart =>
      emit (OnError ("重启会话失败: " ++ message))
        (emit (OnSessionRestartFailed message) w)
  end.

(** [start()] up to [await this.getAuthorizationToken()]. *)
Definition start (caller : StartCaller) (w : World) : World :=
  if isRunning w then startReturned caller w
  else requestToken (TokForStart caller) w.

(** [start()] from the fetched token to its end: the configuration objects
    and the transcriber are created, the handlers attached, and
    [startTranscribingAsync] is issued; its two callbacks run later
    ([startSucceeded], [startFailed]). The constructors and setters of the
    SDK are taken not to throw; the properties and the phrase list they set
    do not come back into the service and are left out. *)
Definition start_fetched (caller : StartCaller) (token region : string) (w : World) : World :=
  let w1 := bump (set_speechConfig (Some (mkSpeechConfig (nextId w) token region)) w) in
  let w2 := bump (set_audioConfig (Some (nextId w1)) w1) in
  let c := nextId w2 in
  let w3 := bump (set_conversationTranscriber (Some c) w2) in
  let w4 := log (SdkStartTranscribing c) (set_pendingOpens (pendingOpens w3 ++ [c]) w3) in
  startReturned caller w4.

(** [start()] when the fetch failed: the [catch] of lines 214-217. *)
Definition start_failed (caller : StartCaller) (detail : string) (w : World) : World :=
  startThrew caller (tokenErrorMessage detail) (set_isRunning false w).

(** Success callback of [startTranscribingAsync] (lines 198-208). *)
Definition startSucceeded (now : Z) (w : World) : World :=
  let w1 := set_sessionStartTime (Some now) (set_isRunning true w) in
  let w2 := emit OnSessionStarted w1 in
  let w3 := startTokenRefresh w2 in
  if autoReconnectEnabled w3 then startSessionRestartTimer w3 else w3.

(** Error callback of [startTranscribingAsync] (lines 209-212). *)
Definition startFailed (error : string) (w : World) : World :=
  emit (OnError ("启动失败: " ++ error)) (set_isRunning false w).

(** ** [restartSession] (lines 92-144) *)

(** From "清理资源" to the end of the [try] block. *)
Definition restartSession_stopped (wasRunning : bool) (w : World) : World :=
  let w1 := closeAll w in
  let w2 := set_audioConfig None (set_conversationTranscriber None w1) in
  if wasRunning then start ByRestart w2 else w2.

(** From the entry to the first [await]. *)
Definition restartSession (reason : string) (w : World) : World :=
  if negb (isRunning w) || negb (autoReconnectEnabled w) then w
  else
    let w1 := emit (OnSessionRestarting reason) w in
    let wasRunning := isRunning w1 in
    let w2 := set_isRunning false w1 in
    let w3 := stopSessionRestartTimer (stopTokenRefresh w2) in
    match conversationTranscriber w3 with
    | Some c =>
        bump (log (SdkStopTranscribing c)
                (set_pendingStops
                   (pendingStops w3 ++ [(nextId w3, StopForRestart wasRunning)]) w3))
    | None => restartSession_stopped wasRunning w3
    end.

(** Body of the timeout armed by [startSessionRestartTimer] (lines 77-82). *)
Definition sessionRestartTimerFired (w : World) : World :=
  if isRunning w && autoReconnectEnabled w then restartSession reasonProactive w
  else w.

(** ** [stop], [enableAutoReconnect], [disableAutoReconnect] (lines 325-357) *)

Definition stop (w : World) : World :=
  let w1 := stopSessionRestartTimer (stopTokenRefresh w) in
  let w2 := set_autoReconnectEnabled false w1 in
  let w3 :=
    match conversationTranscriber w2 with
    | Some c =>
        if isRunning w2 then
          bump (log (SdkStopTranscribing c)
                  (set_pendingStops (pendingStops w2 ++ [(nextId w2, StopForStop)]) w2))
        else w2
    | None => w2
    end in
  let w4 := closeAll w3 in
  set_sessionStartTime None
    (set_conversationTranscriber None
       (set_audioConfig None (set_speechConfig None w4))).

Definition enableAutoReconnect (w : World) : World :=
  let w1 := set_autoReconnectEnabled true w in
  if isRunning w1 then startSessionRestartTimer w1 else w1.

Definition disableAutoReconnect (w : World) : World :=
  stopSessionRestartTimer (set_autoReconnectEnabled false w).

(** ** Handlers attached by [setupEventHandlers] (lines 220-302) *)

(** The SDK's [ResultReason]. *)
Inductive ResultReason : Type :=
| NoMatch
| Canceled
| RecognizingSpeech
| RecognizedSpeech
| OtherReason.

(** [e.result] of a transcription event: the declared [reason] and [text]
    (empty when there is none), and the object itself as [extractSpeakerId]
    probes it. *)
Record RecognitionResult : Type := mkResult {
  reason : ResultReason;
  text : string;
  objectRef : nat;
  objectFields : list (string * JsVal)
}.

Definition resultObject (r : RecognitionResult) : JsVal :=
  JObj (objectRef r) (objectFields r).

(** [e.errorDetails?.includes(needle)], falsy when there are no details. *)
Definition detailsInclude (needle : string) (errorDetails : option string) : bool :=
  match errorDetails with
  | Some d => includes needle d
  | None => false
  end.

(** [`${e.errorDetails}`] *)
Definition showDetails (errorDetails : option string) : string :=
  match errorDetails with
  | Some d => d
  | None => "undefined"
  end.

Definition isTimeoutError (errorDetails : option string) : bool :=
  detailsInclude "StatusCode: 0" errorDetails
  || detailsInclude "Unable to contact server" errorDetails
  || detailsInclude "StatusCode:0" errorDetails.

(** The [canceled] handler (lines 246-273). *)
Definition canceled (errorDetails : option string) (w : World) : World :=
  let wasRunning := isRunning w in
  let w1 := set_isRunning false w in
  let errorMsg := ("识别错误: " ++ showDetails errorDetails)%string in
  if detailsInclude "StatusCode: 1006" errorDetails then
    emit (OnError (errorMsg ++ hintWebSocket)) w1
  else if isTimeoutError errorDetails then
    if autoReconnectEnabled w1 && wasRunning then
      setTimer RECONNECT_DELAY_MS (DelayedRestart reasonTimeoutError) w1
    else emit (OnError (errorMsg ++ hintTimeout)) w1
  else emit (OnError errorMsg) w1.

(** [this.sessionStartTime ? Date.now() - this.sessionStartTime : 0] *)
Definition sessionDuration (now : Z) (w : World) : Z :=
  match sessionStartTime w with
  | Some t => if Z.eqb t 0 then 0%Z else (now - t)%Z
  | None => 0%Z
  end.

(** The [sessionStopped] handler (lines 275-301). *)
Definition sessionStopped (now : Z) (w : World) : World :=
  let wasRunning := isRunning w in
  let w1 := set_isRunning false w in
  if autoReconnectEnabled w1 && wasRunning then
    if Z.leb STOPPED_TIMEOUT_THRESHOLD_MS (sessionDuration now w1) then
      setTimer RECONNECT_DELAY_MS (DelayedRestart reasonStopped) w1
    else emit OnSessionStopped w1
  else emit OnSessionStopped w1.

(** Success callback of the [stopTranscribingAsync] of [stop] (line 335). *)
Definition stop_acknowledged (w : World) : World := set_isRunning false w.

Section Handlers.

Variable JSON_parse : JsVal -> Completion JsVal.

(** The [transcribing] handler (lines 221-231). An exception would leave the
    handler before the callback is reached. *)
Definition transcribing (r : RecognitionResult) (w : World) : World :=
  match reason r with
  | RecognizingSpeech =>
      if isEmpty (text r) then w
      else match extractSpeakerId JSON_parse (resultObject r) with
           | Normal speakerId => emit (OnTranscribing (text r) speakerId) w
           | Throw _ => w
           end
  | _ => w
  end.

(** The [transcribed] handler (lines 233-244). *)
Definition transcribed (r : RecognitionResult) (w : World) : World :=
  match reason r with
  | RecognizedSpeech =>
      if isEmpty (text r) then w
      else match extractSpeakerId JSON_parse (resultObject r) with
           | Normal speakerId => emit (OnTranscribed (text r) speakerId) w
           | Throw _ => w
           end
  | _ => w
  end.

(** ** The event loop *)

(** Everything that can run a piece of the service: a method call by the
    owner of the object, a timer, the settling of an asynchronous request,
    an event of the SDK. [now] is [Date.now()] where the code reads it. *)
Inductive Event : Type :=
| CallStart
| CallStop
| CallEnableAutoReconnect
| CallDisableAutoReconnect
| CallRestartSession (reason : option string)
| TimerFired (id : nat)
| TokenFetched (rid : nat) (token region : string)
| TokenFetchFailed (rid : nat) (detail : string)
| StopAcknowledged (rid : nat)
| StartSucceeded (c : nat) (now : Z)
| StartFailed (c : nat) (error : string)
| SdkTranscribing (r : RecognitionResult)
| SdkTranscribed (r : RecognitionResult)
| SdkCanceled (errorDetails : option string)
| SdkSessionStopped (now : Z).

Definition timerFired (id : nat) (w : World) : World :=
  match findTimer id (timers w) with
  | None => w
  | Some t =>
      match timerKind t with
      | TokenRefreshTick => refreshToken w
      | ProactiveRestart => sessionRestartTimerFired (clearTimer id w)
      | DelayedRestart reason => restartSession reason (clearTimer id w)
      end
  end.

Definition tokenFetched (rid : nat) (token region : string) (w : World) : World :=
  match lookupPending rid (pendingTokens w) with
  | None => w
  | Some k =>
      let w1 := set_pendingTokens (removePending rid (pendingTokens w)) w in
      match k with
      | TokForStart caller => start_fetched caller token region w1
      | TokForRefresh => refreshToken_fetched token w1
      end
  end.

Definition tokenFetchFailed (rid : nat) (detail : string) (w : World) : World :=
  match lookupPending rid (pendingTokens w) with
  | None => w
  | Some k =>
      let w1 := set_pendingTokens (removePending rid (pendingTokens w)) w in
      match k with
      | TokForStart caller => start_failed caller detail w1
      | TokForRefresh => refreshToken_failed detail w1
      end
  end.

Definition stopAcknowledged (rid : nat) (w : World) : World :=
  match lookupPending rid (pendingStops w) with
  | None => w
  | Some k =>
      let w1 := set_pendingStops (removePending rid (pendingStops w)) w in
      match k with
      | StopForRestart wasRunning => restartSession_stopped wasRunning w1
      | StopForStop => stop_acknowledged w1
      end
  end.

Definition step (ev : Event) (w : World) : World :=
  match ev with
  | CallStart => start ByCaller w
  | CallStop => stop w
  | CallEnableAutoReconnect => enableAutoReconnect w
  | CallDisableAutoReconnect => disableAutoReconnect w
  | CallRestartSession None => restartSession reasonDefault w
  | CallRestartSession (Some reason) => restartSession reason w
  | TimerFired id => timerFired id w
  | TokenFetched rid token region => tokenFetched rid token region w
  | TokenFetchFailed rid detail => tokenFetchFailed rid detail w
  | StopAcknowledged rid => stopAcknowledged rid w
  | StartSucceeded c now =>
      if memNat c (pendingOpens w)
      then startSucceeded now (set_pendingOpens (removeNat c (pendingOpens w)) w)
      else w
  | StartFailed c error =>
      if memNat c (pendingOpens w)
      then startFailed error (set_pendingOpens (removeNat c (pendingOpens w)) w)
      else w
  | SdkTranscribing r => transcribing r w
  | SdkTranscribed r => transcribed r w
  | SdkCanceled errorDetails => canceled errorDetails w
  | SdkSessionStopped now => sessionStopped now w
  end.

Definition run (evs : list Event) (w : World) : World :=
  fold_left (fun acc ev => step ev acc) evs w.

End Handlers.

(* ================================================================== *)
(** * The [App] component ([src/src/App.jsx], lines 360-590)            *)
(* ================================================================== *)

(** State of the component that the service can reach through its
    callbacks. The [speakers] map is the speaker registry; [speakersRef]
    mirrors it and is not represented. Rendering, scrolling and the
    elapsed-time counter are left out. *)

Inductive EntryType : Type :=
| session_started
| transcribing_entry
| transcribed_entry
| session_stopped
| info
| error_entry.

Record TranscriptionItem : Type := mkItem {
  item_id : Z * nat;
  item_text : string;
  item_speakerId : JsVal;
  item_speakerName : string;
  item_timestamp : Z
}.

Record LogEntry : Type := mkEntry {
  entry_id : Z * nat;
  entry_type : EntryType;
  entry_message : string;
  entry_timestamp : Z
}.

Record AppState : Type := mkApp {
  isListening : bool;
  transcriptions : list TranscriptionItem;
  error : option string;
  speakers : JsMap.t;
  events : list LogEntry;
  isSessionStarted : bool;
  idCounter : nat
}.

Definition initialApp : AppState :=
  {| isListening := false;
     transcriptions := [];
     error := None;
     speakers := JsMap.empty;
     events := [];
     isSessionStarted := false;
     idCounter := 0 |}.

Definition set_isListening (x : bool) (a : AppState) : AppState :=
  {| isListening := x; transcriptions := transcriptions a; error := error a;
     speakers := speakers a; events := events a;
     isSessionStarted := isSessionStarted a; idCounter := idCounter a |}.

Definition set_transcriptions (x : list TranscriptionItem) (a : AppState) : AppState :=
  {| isListening := isListening a; transcriptions := x; error := error a;
     speakers := speakers a; events := events a;
     isSessionStarted := isSessionStarted a; idCounter := idCounter a |}.

Definition set_error (x : option string) (a : AppState) : AppState :=
  {| isListening := isListening a; transcriptions := transcriptions a; error := x;
     speakers := speakers a; events := events a;
     isSessionStarted := isSessionStarted a; idCounter := idCounter a |}.

Definition set_speakers (x : JsMap.t) (a : AppState) : AppState :=
  {| isListening := isListening a; transcriptions := transcriptions a;
     error := error a; speakers := x; events := events a;
     isSessionStarted := isSessionStarted a; idCounter := idCounter a |}.

Definition set_events (x : list LogEntry) (a : AppState) : AppState :=
  {| isListening := isListening a; transcriptions := transcriptions a;
     error := error a; speakers := speakers a; events := x;
     isSessionStarted := isSessionStarted a; idCounter := idCounter a |}.

Definition set_isSessionStarted (x : bool) (a : AppState) : AppState :=
  {| isListening := isListening a; transcriptions := transcriptions a;
     error := error a; speakers := speakers a; events := events a;
     isSessionStarted := x; idCounter := idCounter a |}.

Definition set_idCounter (x : nat) (a : AppState) : AppState :=
  {| isListening := isListening a; transcriptions := transcriptions a;
     error := error a; speakers := speakers a; events := events a;
     isSessionStarted := isSessionStarted a; idCounter := x |}.

(** [generateUniqueId]: the counter is bumped, the id is
    [`${Date.now()}-${counter}`]. *)
Definition generateUniqueId (now : Z) (a : AppState) : (Z * nat) * AppState :=
  ((now, S (idCounter a)), set_idCounter (S (idCounter a)) a).

(** [s.padStart(2, "0")] *)
Definition padStart2 (s : string) : string :=
  match String.length s with
  | 0 => "00"
  | 1 => "0" ++ s
  | _ => s
  end%string.

(** [formatTime] ([src/src/App.jsx], lines 382-390); [seconds] is the count
    of ticks of the one-second interval. *)
Definition formatTime (seconds : nat) : string :=
  let hours := seconds / 3600 in
  let minutes := (seconds mod 3600) / 60 in
  let secs := seconds mod 60 in
  (padStart2 (decimal hours) ++ ":" ++ padStart2 (decimal minutes) ++ ":"
   ++ padStart2 (decimal secs))%string.

(** [setEvents(prev => [...prev, {id, type, message, timestamp}])] *)
Definition pushEntry (now : Z) (ty : EntryType) (message : string) (a : AppState)
  : AppState :=
  let (id, a1) := generateUniqueId now a in
  set_events (events a1 ++ [mkEntry id ty message now]) a1.

Definition unknownLabel : string := "Unknown".

(** [`说话人-${speakerNum}`] *)
Definition speakerLabel (n : nat) : string := ("说话人-" ++ decimal n)%string.

(** [speakerNum ? `说话人-${speakerNum}` : "Unknown"] *)
Definition speakerNameOf (speakerNum : option nat) : string :=
  match speakerNum with
  | Some n => if Nat.eqb n 0 then unknownLabel else speakerLabel n
  | None => unknownLabel
  end.

(** The updater passed to [setSpeakers] in [onTranscribed] (lines 465-470):
    the registry's only mutation. *)
Definition resolveSpeaker (prev : JsMap.t) (speakerId : JsVal) : JsMap.t :=
  if truthy speakerId && negb (JsMap.has prev speakerId)
  then JsMap.set prev speakerId (JsMap.size prev + 1)
  else prev.

(** ** The callbacks given to [new SpeechService] (lines 437-561) *)

Definition app_onSessionStarted (now : Z) (a : AppState) : AppState :=
  pushEntry now session_started "会话已开始" (set_isSessionStarted true a).

Definition app_onTranscribing (now : Z) (text : string) (speakerId : JsVal)
    (a : AppState) : AppState :=
  pushEntry now transcribing_entry ("正在识别: " ++ text) a.

Definition app_onTranscribed (now : Z) (text : string) (speakerId : JsVal)
    (a : AppState) : AppState :=
  let newSpeakers := resolveSpeaker (speakers a) speakerId in
  let speakerNum := JsMap.get newSpeakers speakerId in
  let speakerName := speakerNameOf speakerNum in
  let (id, a1) := generateUniqueId now a in
  let a2 :=
    set_transcriptions
      (transcriptions a1 ++ [mkItem id text speakerId speakerName now]) a1 in
  let a3 := pushEntry now transcribed_entry ("识别完成: " ++ text) a2 in
  set_speakers newSpeakers a3.

Definition app_onSessionStopped (now : Z) (a : AppState) : AppState :=
  pushEntry now session_stopped "会话已停止" (set_isSessionStarted false a).

Definition app_onSessionRestarting (now : Z) (reason : string) (a : AppState)
  : AppState :=
  let shown := if isEmpty reason then "正在重启会话" else reason in
  pushEntry now info ("🔄 " ++ shown ++ "...") (set_isSessionStarted false a).

Definition app_onSessionRestarted (now : Z) (a : AppState) : AppState :=
  pushEntry now info "✅ 会话重启成功，继续识别中..." a.

Definition app_onSessionRestartFailed (now : Z) (errorMsg : string) (a : AppState)
  : AppState :=
  pushEntry now error_entry ("❌ 会话重启失败: " ++ errorMsg) a.

Definition app_onError (now : Z) (errorMsg : string) (a : AppState) : AppState :=
  pushEntry now error_entry ("错误: " ++ errorMsg)
    (set_isSessionStarted false (set_isListening false (set_error (Some errorMsg) a))).

(** The object literal of line 437: every callback but [onTokenRefreshed]. *)
Definition appCallbacks : Callbacks :=
  {| has_onSessionStarted := true;
     has_onSessionRestarting := true;
     has_onSessionRestarted := true;
     has_onSessionRestartFailed := true;
     has_onTranscribing := true;
     has_onTranscribed := true;
     has_onSessionStopped := true;
     has_onError := true;
     has_onTokenRefreshed := false |}.

Definition app_callback (now : Z) (cb : Callback) (a : AppState) : AppState :=
  match cb with
  | OnSessionStarted => app_onSessionStarted now a
  | OnSessionRestarting reason => app_onSessionRestarting now reason a
  | OnSessionRestarted => app_onSessionRestarted now a
  | OnSessionRestartFailed message => app_onSessionRestartFailed now message a
  | OnTranscribing text speakerId => app_onTranscribing now text speakerId a
  | OnTranscribed text speakerId => app_onTranscribed now text speakerId a
  | OnSessionStopped => app_onSessionStopped now a
  | OnError message => app_onError now message a
  | OnTokenRefreshed => a
  end.

(** The [catch] of [handleStart] (lines 573-576). *)
Definition handleStart_rejected (message : string) (a : AppState) : AppState :=
  set_isListening false
    (set_error (Some (if isEmpty message then "启动失败" else message)) a).

(** What one effect of the service does to the component. *)
Definition deliver (now : Z) (a : AppState) (e : Effect) : AppState :=
  match e with
  | Call cb => app_callback now cb a
  | StartRejected message => handleStart_rejected message a
  | _ => a
  end.

Definition deliverAll (now : Z) (effects : list Effect) (a : AppState) : AppState :=
  fold_left (deliver now) effects a.

(** [handleClear] (lines 585-590) *)
Definition handleClear (a : AppState) : AppState :=
  set_idCounter 0
    (set_events [] (set_speakers JsMap.empty (set_transcriptions [] a))).

(** ** The component together with its service *)

Record System : Type := mkSystem {
  service : World;
  app : AppState
}.

Definition initialSystem : System :=
  {| service := newService appCallbacks; app := initialApp |}.

(** The effects the service has produced between two of its states. *)
Definition effectsSince (before after : World) : list Effect :=
  skipn (length (trace before)) (trace after).

Section SystemSteps.

Variable JSON_parse : JsVal -> Completion JsVal.

Inductive Action : Type :=
| ClickStart             (* handleStart *)
| ClickStop              (* handleStop *)
| ClickClear             (* handleClear *)
| Env (ev : Event).      (* anything that runs the service *)

Definition sysStep (now : Z) (act : Action) (s : System) : System :=
  match act with
  | ClickStart =>
      let a1 := set_isListening true (set_error None (app s)) in
      let w' := start ByCaller (enableAutoReconnect (service s)) in
      {| service := w';
         app := deliverAll now (effectsSince (service s) w') a1 |}
  | ClickStop =>
      let w' := stop (service s) in
      {| service := w';
         app := set_isSessionStarted false
                  (set_isListening false
                     (deliverAll now (effectsSince (service s) w') (app s))) |}
  | ClickClear =>
      {| service := service s; app := handleClear (app s) |}
  | Env ev =>
      let w' := step JSON_parse ev (service s) in
      {| service := w';
         app := deliverAll now (effectsSince (service s) w') (app s) |}
  end.

(** A run: each action with the clock value at which it is processed. *)
Definition sysRun (acts : list (Z * Action)) (s : System) : System :=
  fold_left (fun acc na => sysStep (fst na) (snd na) acc) acts s.

End SystemSteps.

(* ================================================================== *)
(** * Vocabulary of the statements                                     *)
(* ================================================================== *)

(** ** Cancellations *)

(** The condition under which the [canceled] handler re-connects by itself,
    read off its [if / else if] chain: the details carry a timeout signature
    and not the WebSocket failure code, which is tested first; auto-reconnect
    is enabled; the service was running. *)
Definition selfHeals (errorDetails : option string) (w : World) : Prop :=
  isTimeoutError errorDetails = true
  /\ detailsInclude "StatusCode: 1006" errorDetails = false
  /\ autoReconnectEnabled w = true
  /\ isRunning w = true.

(** The timeout that the two handlers arm to re-connect. *)
Definition reconnectTimer (w : World) (why : string) : Timer :=
  mkTimer (nextId w) RECONNECT_DELAY_MS (DelayedRestart why).

(** ** The registry *)

(** Labels of the transcriptions shown so far. *)
Definition speakerNames (a : AppState) : list string :=
  map item_speakerName (transcriptions a).

(** Every key of the registry is truthy. *)
Definition keysTruthy (m : JsMap.t) : bool :=
  forallb (fun e => truthy (fst e)) m.

(** ** Effects *)

Definition notTranscribed (e : Effect) : bool :=
  match e with
  | Call (OnTranscribed _ _) => false
  | _ => true
  end.

Definition quiet (e : Effect) : bool :=
  match e with
  | Call (OnTranscribed _ _) => false
  | SdkStartTranscribing _ => false
  | _ => true
  end.

Definition isSdkStart (e : Effect) : bool :=
  match e with
  | SdkStartTranscribing _ => true
  | _ => false
  end.

Definition notSdkStart (e : Effect) : bool := negb (isSdkStart e).


(** [w'] has the trace of [w] followed by effects that satisfy [P]. *)
Definition Ext (P : Effect -> bool) (w w' : World) : Prop :=
  exists l, trace w' = trace w ++ l /\ forallb P l = true.

(** [w'] differs from [w] in nothing that steers the service: same
    callbacks, flags and suspended continuations, and only quiet effects. *)
Definition Tame (w w' : World) : Prop :=
  callbacks w' = callbacks w
  /\ isRunning w' = isRunning w
  /\ autoReconnectEnabled w' = autoReconnectEnabled w
  /\ pendingTokens w' = pendingTokens w
  /\ pendingStops w' = pendingStops w
  /\ pendingOpens w' = pendingOpens w
  /\ Ext quiet w w'.

(** [w'] has the callbacks of [w], runs only if [w] did, re-connects only
    if [w] did, and has handed no final transcription to the caller. *)
Definition Calm (w w' : World) : Prop :=
  callbacks w' = callbacks w
  /\ (isRunning w' = true -> isRunning w = true)
  /\ (autoReconnectEnabled w' = true -> autoReconnectEnabled w = true)
  /\ Ext notTranscribed w w'.

(** What [closeAll] logs. *)
Definition closesOf (w : World) : list Effect :=
  match conversationTranscriber w with
  | Some c => [SdkClose (TranscriberRes c)]
  | None => []
  end
  ++ match audioConfig w with
     | Some a => [SdkClose (AudioConfigRes a)]
     | None => []
     end
  ++ match speechConfig w with
     | Some s => [SdkClose (SpeechConfigRes (configId s))]
     | None => []
     end.

(** The [if] of [stop] that asks the SDK to stop (lines 333-337), on its
    own. *)
Definition stop_request (w : World) : World :=
  match conversationTranscriber w with
  | Some c =>
      if isRunning w then
        bump (log (SdkStopTranscribing c)
                (set_pendingStops (pendingStops w ++ [(nextId w, StopForStop)]) w))
      else w
  | None => w
  end.

(** ** Restarts in flight *)

Definition isStartToken (e : nat * TokenCont) : bool :=
  match snd e with
  | TokForStart _ => true
  | TokForRefresh => false
  end.

Definition isRestartStop (e : nat * StopCont) : bool :=
  match snd e with
  | StopForRestart _ => true
  | StopForStop => false
  end.

(** [start()] calls suspended at the token fetch. *)
Definition startsAwaitingToken (w : World) : nat :=
  length (filter isStartToken (pendingTokens w)).

(** [restartSession] calls suspended at the stop of the old connection. *)
Definition restartsAwaitingStop (w : World) : nat :=
  length (filter isRestartStop (pendingStops w)).

(** Connections opened so far ([startTranscribingAsync] issued). *)
Definition connectionsOpened (w : World) : nat :=
  length (filter isSdkStart (trace w)).

(** Connections opened, and those the suspended calls will still open. *)
Definition openBudget (w : World) : nat :=
  connectionsOpened w + startsAwaitingToken w + restartsAwaitingStop w.

(** Connections being opened, and those the suspended calls will still
    open. *)
Definition openingBudget (w : World) : nat :=
  length (pendingOpens w) + startsAwaitingToken w + restartsAwaitingStop w.

Definition isCallStart (ev : Event) : bool :=
  match ev with
  | CallStart => true
  | _ => false
  end.

Definition isStartSucceeded (ev : Event) : bool :=
  match ev with
  | StartSucceeded _ _ => true
  | _ => false
  end.

Definition isEnable (ev : Event) : bool :=
  match ev with
  | CallEnableAutoReconnect => true
  | _ => false
  end.

Definition callsToStart (evs : list Event) : nat :=
  length (filter isCallStart evs).

(** No connection reaches the running state during [evs]. *)
Definition noStartCompletion (evs : list Event) : bool :=
  forallb (fun ev => negb (isStartSucceeded ev)) evs.

(** While the service is not running, [w'] neither runs nor has more
    connections in its budgets than [w]. *)
Definition Settled (w w' : World) : Prop :=
  isRunning w = false ->
  isRunning w' = false
  /\ openBudget w' <= openBudget w
  /\ openingBudget w' <= openingBudget w.

(** Actions that run the registry's mutators. *)
Definition touchesRegistry (act : Action) : bool :=
  match act with
  | ClickClear => true
  | Env (SdkTranscribed _) => true
  | _ => false
  end.

(** ** Timers and their handles *)

Definition isRefreshTick (t : Timer) : bool :=
  match timerKind t with
  | TokenRefreshTick => true
  | _ => false
  end.

Definition isProactiveRestart (t : Timer) : bool :=
  match timerKind t with
  | ProactiveRestart => true
  | _ => false
  end.

Definition isDelayedRestart (t : Timer) : bool :=
  match timerKind t with
  | DelayedRestart _ => true
  | _ => false
  end.

(** The handle [h] is the one of the timers that satisfy [mine], and of no
    other timer. *)
Definition holdsOn (h : option nat) (mine : Timer -> bool) (ts : list Timer) (n : nat)
  : Prop :=
  (forall t, In t ts -> mine t = true -> h = Some (timerId t))
  /\ (forall id, h = Some id -> id < n)
  /\ (forall id t, h = Some id -> In t ts -> timerId t = id -> mine t = true).

Definition holds (h : option nat) (mine : Timer -> bool) (w : World) : Prop :=
  holdsOn h mine (timers w) (nextId w).

Definition WellFormed (w : World) : Prop :=
  Forall (fun t => timerId t < nextId w) (timers w)
  /\ NoDup (map timerId (timers w))
  /\ holds (tokenRefreshInterval w) isRefreshTick w
  /\ holds (sessionRestartTimer w) isProactiveRestart w
  /\ Forall (fun e => fst e < nextId w) (pendingTokens w)
  /\ Forall (fun e => fst e < nextId w) (pendingStops w)
  /\ Forall (fun c => c < nextId w) (pendingOpens w).

Definition Keeps (w w' : World) : Prop := WellFormed w -> WellFormed w'.

Definition otherTimers (w : World) : list Timer :=
  filter (fun t => negb (isProactiveRestart t)) (timers w).

(** The two signals of the SDK that end a session. *)
Definition isEndSignal (ev : Event) : bool :=
  match ev with
  | SdkCanceled _ => true
  | SdkSessionStopped _ => true
  | _ => false
  end.

(** ** Token failures *)

Definition startFailureNotice (caller : StartCaller) (detail : string) : string :=
  match caller with
  | ByCaller => tokenErrorMessage detail
  | ByRestart => ("重启会话失败: " ++ tokenErrorMessage detail)%string
  end.

(** The [detail] of the server's reply inside an error object, [undefined]
    when the error carries no reply, or the reply no data. *)
Definition replyDetail (fields : list (string * JsVal)) : JsVal :=
  match lookupField "response" fields with
  | JObj _ response =>
      match lookupField "data" response with
      | JObj _ data => lookupField "detail" data
      | _ => JUndefined
      end
  | _ => JUndefined
  end.

(** ** The life of a transcriber *)

(** The transcriber an effect acts on. *)
Definition transcriberOf (e : Effect) : option nat :=
  match e with
  | SdkStartTranscribing c => Some c
  | SdkStopTranscribing c => Some c
  | SdkClose (TranscriberRes c) => Some c
  | _ => None
  end.

(** Transcribers closed by the effects of [tr]. *)
Definition closedTranscribers (tr : list Effect) : list nat :=
  flat_map (fun e => match e with
                     | SdkClose (TranscriberRes c) => [c]
                     | _ => []
                     end) tr.

(** Nothing acts on a transcriber after its [close()]. *)
Definition noUseAfterClose (tr : list Effect) : Prop :=
  forall l1 c l2,
    tr = l1 ++ SdkClose (TranscriberRes c) :: l2 ->
    Forall (fun e => transcriberOf e <> Some c) l2.

Definition Released (w : World) : Prop :=
  noUseAfterClose (trace w)
  /\ Forall (fun c => c < nextId w /\ conversationTranscriber w <> Some c)
       (closedTranscribers (trace w))
  /\ (forall c, conversationTranscriber w = Some c -> c < nextId w).

Definition Releases (w w' : World) : Prop := Released w -> Released w'.

(** ** Restart notifications *)

Definition isRestarting (e : Effect) : bool :=
  match e with
  | Call (OnSessionRestarting _) => true
  | _ => false
  end.

Definition isRestartOutcome (e : Effect) : bool :=
  match e with
  | Call OnSessionRestarted => true
  | Call (OnSessionRestartFailed _) => true
  | _ => false
  end.

Definition isRestartToken (e : nat * TokenCont) : bool :=
  match snd e with
  | TokForStart ByRestart => true
  | _ => false
  end.

(** [onSessionRestarting] calls so far. *)
Definition restartsAnnounced (w : World) : nat :=
  length (filter isRestarting (trace w)).

(** [onSessionRestarted] and [onSessionRestartFailed] calls so far. *)
Definition restartsConcluded (w : World) : nat :=
  length (filter isRestartOutcome (trace w)).

(** Restarts suspended at the stop of the old connection or at the token. *)
Definition restartsInFlight (w : World) : nat :=
  restartsAwaitingStop w + length (filter isRestartToken (pendingTokens w)).

(** Outcomes reported and still to come, less the restarts announced. *)
Definition restartDebt (w : World) : Z :=
  (Z.of_nat (restartsConcluded w + restartsInFlight w)
   - Z.of_nat (restartsAnnounced w))%Z.

(** [w'] owes at most [k] more outcomes than [w]. *)
Definition Owes (k : Z) (w w' : World) : Prop :=
  has_onSessionRestarting (callbacks w') = has_onSessionRestarting (callbacks w)
  /\ (restartDebt w' <= restartDebt w + k)%Z.

Definition Level (w w' : World) : Prop := Owes 0 w w'.

(** ** The records of the component *)

(** No key of the registry occurs twice. *)
Fixpoint keysDistinct (m : JsMap.t) : bool :=
  match m with
  | [] => true
  | (k, _) :: rest => negb (JsMap.has rest k) && keysDistinct rest
  end.

(** The numbers of the registry are 1, 2, ... in the order of insertion. *)
Definition numbered (m : JsMap.t) : Prop :=
  map snd m = seq 1 (JsMap.size m).

Definition wellNumbered (m : JsMap.t) : Prop :=
  numbered m /\ keysDistinct m = true /\ keysTruthy m = true.

Definition isClear (act : Action) : bool :=
  match act with
  | ClickClear => true
  | _ => false
  end.

(** The label of a transcription is the one the registry gives its id. *)
Definition labelled (m : JsMap.t) (it : TranscriptionItem) : Prop :=
  if truthy (item_speakerId it)
  then exists n, JsMap.get m (item_speakerId it) = Some n
                 /\ item_speakerName it = speakerLabel n
  else item_speakerName it = unknownLabel.

(** The React keys of the two lists. *)
Definition keysInUse (a : AppState) : list (Z * nat) :=
  map entry_id (events a) ++ map item_id (transcriptions a).

(** [m'] has every pairing of [m]. *)
Definition extends (m m' : JsMap.t) : Prop :=
  (forall k n, JsMap.get m k = Some n -> JsMap.get m' k = Some n)
  /\ JsMap.size m <= JsMap.size m'.

Definition labelsAgree (a : AppState) : Prop :=
  wellNumbered (speakers a) /\ Forall (labelled (speakers a)) (transcriptions a).

Definition keysFresh (a : AppState) : Prop :=
  Forall (fun id => 1 <= snd id <= idCounter a) (keysInUse a)
  /\ NoDup (map snd (keysInUse a)).

(** ** The clock text *)

(** The text before the first [sep], and what follows it. *)
Fixpoint cut (sep : ascii) (s : string) : string * option string :=
  match s with
  | EmptyString => (EmptyString, None)
  | String c rest =>
      if Ascii.eqb c sep then (EmptyString, Some rest)
      else let (before, after) := cut sep rest in (String c before, after)
  end.

Definition readNumber (s : string) : option nat :=
  option_map Nat.of_uint (NilEmpty.uint_of_string s).

(** Reading a clock text [h:m:s] back into seconds. *)
Definition readTime (s : string) : option nat :=
  match cut ":" s with
  | (h, Some rest) =>
      match cut ":" rest with
      | (m, Some sec) =>
          match readNumber h, readNumber m, readNumber sec with
          | Some a, Some b, Some c => Some (a * 3600 + b * 60 + c)
          | _, _, _ => None
          end
      | _ => None
      end
  | _ => None
  end.

Fixpoint noColon (s : string) : bool :=
  match s with
  | EmptyString => true
  | String c rest => negb (Ascii.eqb c ":") && noColon rest
  end.

(** ** Concrete runs *)

(** A [JSON.parse] that knows one text. *)
Definition parseFixture (v : JsVal) : Completion JsVal :=
  if sameValueZero v (JStr "{}") then Normal (JObj 100 []) else Throw SyntaxError.

(** A result whose JSON names no speaker while [privResult] does. *)
Definition resultWithPrivateIdOnly : JsVal :=
  JObj 1 [("json", JStr "{}");
          ("privResult", JObj 2 [("SpeakerId", JStr "Guest-1")])].

(** A result with a first-class speaker id. *)
Definition resultOfGuest (ref : nat) (speaker : string) : RecognitionResult :=
  mkResult RecognizedSpeech "你好" ref [("speakerId", JStr speaker)].

(** A result without any speaker field. *)
Definition resultOfNobody : RecognitionResult :=
  mkResult RecognizedSpeech "你好" 7 [("json", JStr "{}")].

(** [handleStart], the token, the connection: the service is running with
    both timers armed (refresh: handle 5, proactive restart: handle 6). *)
Definition startUp : list Event :=
  [CallEnableAutoReconnect; CallStart;
   TokenFetched 1 "token-1" "chinanorth3";
   StartSucceeded 4 1000].

Definition activeSession : World :=
  run parseFixture startUp (newService appCallbacks).

(** The proactive timer fires, the old connection stops, the token comes,
    the new connection opens. *)
Definition proactiveRestartRun : list Event :=
  [TimerFired 6;
   StopAcknowledged 7;
   TokenFetched 8 "token-2" "chinanorth3";
   StartSucceeded 11 1141500].


(** The timeout left pending by a cancellation with a timeout signature. *)
Definition canceledThenTimer : list Event :=
  [SdkCanceled (Some "Unable to contact server. StatusCode: 0"); TimerFired 7].

(** The timeout left pending by a stop signal 18 minutes into the session. *)
Definition stoppedThenTimer : list Event :=
  [SdkSessionStopped 1081000; TimerFired 7].





(** The component after [handleStart] and one final result of "Guest-1". *)
Definition systemWithOneSpeaker : System :=
  sysRun parseFixture
    [(0%Z, ClickStart);
     (10%Z, Env (TokenFetched 1 "token-1" "chinanorth3"));
     (1000%Z, Env (StartSucceeded 4 1000));
     (2000%Z, Env (SdkTranscribed (resultOfGuest 50 "Guest-1")))]
    initialSystem.

(** The restart of the proactive timer, as the component sees it. *)
Definition restartActions : list (Z * Action) :=
  [(1141010%Z, Env (StopAcknowledged 7));
   (1141200%Z, Env (TokenFetched 8 "token-2" "chinanorth3"));
   (1141500%Z, Env (StartSucceeded 11 1141500))].

(** A connection that is being opened: [handleStart] and the token. *)
Definition connecting : World :=
  run parseFixture
    [CallEnableAutoReconnect; CallStart; TokenFetched 1 "token-1" "chinanorth3"]
    (newService appCallbacks).

(** The component after [handleStart] and two final results of "Guest-1". *)
Definition twiceTheSameSpeaker : list (Z * Action) :=
  [(0%Z, ClickStart);
   (10%Z, Env (TokenFetched 1 "token-1" "chinanorth3"));
   (1000%Z, Env (StartSucceeded 4 1000));
   (2000%Z, Env (SdkTranscribed (resultOfGuest 50 "Guest-1")));
   (3000%Z, Env (SdkTranscribed (resultOfGuest 51 "Guest-1")))].

(** The component while a refresh waits for its token (request 7). *)
Definition systemRefreshing : System :=
  sysRun parseFixture
    [(0%Z, ClickStart);
     (10%Z, Env (TokenFetched 1 "token-1" "chinanorth3"));
     (1000%Z, Env (StartSucceeded 4 1000));
     (481000%Z, Env (TimerFired 5))]
    initialSystem.

(* ================================================================== *)
(** * Facts about JavaScript values                                    *)
(* ================================================================== *)

Lemma sameValueZero_refl k : sameValueZero k k = true.
Proof.
  destruct k; simpl; auto using Z.eqb_refl, String.eqb_refl, Nat.eqb_refl.
  destruct b; reflexivity.
Qed.

Lemma sameValueZero_sym a b : sameValueZero a b = sameValueZero b a.
Proof.
  destruct a as [| |x|x|x|x fx], b as [| |y|y|y|y fy]; simpl;
    auto using Z.eqb_sym, String.eqb_sym, Nat.eqb_sym.
  destruct x, y; reflexivity.
Qed.

Lemma sameValueZero_nullish_falsy k n :
  isNullish n = true -> truthy k = true -> sameValueZero k n = false.
Proof. destruct n, k; simpl; intros; congruence. Qed.

Lemma truthy_not_nullish v : truthy v = true -> isNullish v = false.
Proof. destruct v; simpl; auto; discriminate. Qed.

Lemma getProp_object v k :
  isNullish v = false -> exists x, getProp v k = Normal x.
Proof. destruct v; simpl; intros; try discriminate; eauto. Qed.

Lemma jsOr_shape a b v :
  jsOr a b = Normal v ->
  (a = Normal v /\ truthy v = true)
  \/ (exists x, a = Normal x /\ truthy x = false /\ b = Normal v).
Proof.
  unfold jsOr, bind. destruct a as [x|e]; [|discriminate].
  destruct (truthy x) eqn:E; intros H.
  - left. inversion H; subst. auto.
  - right. exists x. auto.
Qed.

Lemma jsOr_value a b v :
  jsOr a b = Normal v ->
  (forall u, b = Normal u -> u = JNull \/ truthy u = true) ->
  v = JNull \/ truthy v = true.
Proof.
  intros H Hb. apply jsOr_shape in H. destruct H as [[_ H]|(x & _ & _ & H)]; auto.
Qed.

(** An [||] chain that ends in [null] yields a truthy value or [null]. *)
Lemma firstTruthyOf_value o a b c d v :
  firstTruthyOf o a b c d = Normal v -> v = JNull \/ truthy v = true.
Proof.
  unfold firstTruthyOf. intros H.
  eapply jsOr_value; [exact H|]. intros u1 H1.
  eapply jsOr_value; [exact H1|]. intros u2 H2.
  eapply jsOr_value; [exact H2|]. intros u3 H3.
  eapply jsOr_value; [exact H3|]. intros u4 H4. inversion H4. auto.
Qed.

(* ================================================================== *)
(** * [extractSpeakerId]                                               *)
(* ================================================================== *)

(** The variant of [speechService.js] computes the same identifier as the
    one of [App.jsx] on every object. *)
Lemma extractSpeakerId_service_agrees JSON_parse nodeEnv result :
  isNullish result = false ->
  extractSpeakerId_service JSON_parse nodeEnv result
  = extractSpeakerId JSON_parse result.
Proof.
  intros Hobj.
  unfold extractSpeakerId_service, extractSpeakerId_service_try,
    extractSpeakerId, extractSpeakerId_try.
  destruct (getProp_object result "userId" Hobj) as [u Hu].
  destruct (getProp_object result "speakerId" Hobj) as [s Hs].
  destruct (getProp_object result "json" Hobj) as [j Hj].
  destruct (getProp_object result "privResult" Hobj) as [p Hp].
  rewrite Hj, Hp. unfold jsOr. rewrite Hu, Hs. simpl.
  destruct (truthy u) eqn:Tu; simpl; rewrite ?Tu; simpl; [reflexivity|].
  destruct (truthy s) eqn:Ts; simpl; rewrite ?Ts; simpl; [reflexivity|].
  destruct (truthy j) eqn:Tj; simpl; [reflexivity|].
  destruct (truthy p) eqn:Tp; simpl; [|destruct nodeEnv; reflexivity].
  pose proof (truthy_not_nullish p Tp) as Hpo.
  unfold firstTruthyOf, jsOr.
  destruct (getProp_object p "SpeakerId" Hpo) as [a Ha].
  destruct (getProp_object p "speakerId" Hpo) as [b Hb].
  destruct (getProp_object p "UserId" Hpo) as [c Hc].
  destruct (getProp_object p "userId" Hpo) as [d Hd].
  rewrite Ha, Hb, Hc, Hd. simpl.
  destruct (truthy a) eqn:Ta; simpl; rewrite ?Ta; simpl; [reflexivity|].
  destruct (truthy b) eqn:Tb; simpl; rewrite ?Tb; simpl; [reflexivity|].
  destruct (truthy c) eqn:Tc; simpl; rewrite ?Tc; simpl; [reflexivity|].
  destruct (truthy d) eqn:Td; simpl; rewrite ?Td; simpl; [reflexivity|].
  destruct nodeEnv; reflexivity.
Qed.

(** On [null] and [undefined] the two variants part: the first test of the
    [App.jsx] variant stands outside its [try]. *)
Lemma extractSpeakerId_nullish JSON_parse nodeEnv result :
  isNullish result = true ->
  extractSpeakerId_service JSON_parse nodeEnv result = Normal JNull
  /\ extractSpeakerId JSON_parse result = Throw TypeError.
Proof. destruct result; simpl; intros; try discriminate; split; reflexivity. Qed.

(** C9, as the code has it. On every result object [extractSpeakerId]
    returns, and never throws, whatever [JSON.parse] does: it returns a
    truthy identifier or [null]. The identifier is the first-class one
    ([userId], then [speakerId]) when there is one. Otherwise the [json]
    field decides which single path is consulted: when [json] is truthy the
    answer is what the parsed JSON yields, [null] when it names no speaker or
    when parsing or reading raises, and [privResult] is not looked at; only
    when [json] is falsy is the answer what [privResult] yields, or [null].
    This is the fall-through over the three paths except when [json] is
    present, yields nothing, and [privResult] would yield. The variant of
    [speechService.js] returns the same value. *)
Theorem extractSpeakerId_total :
  forall (JSON_parse : JsVal -> Completion JsVal) (result : JsVal),
    isNullish result = false ->
    exists v,
      extractSpeakerId JSON_parse result = Normal v
      /\ (v = JNull \/ truthy v = true)
      /\ v = match firstClassPath result with
             | Some x => x
             | None =>
                 if hasJson result then orNull (jsonPath JSON_parse result)
                 else orNull (privPath result)
             end
      /\ (hasJson result = false
          \/ jsonPath JSON_parse result <> None
          \/ privPath result = None ->
          v = extractByPriority JSON_parse result)
      /\ (forall nodeEnv,
             extractSpeakerId_service JSON_parse nodeEnv result = Normal v).
Proof.
  intros parse result Hobj.
  assert (Hsame : forall nodeEnv,
             extractSpeakerId_service parse nodeEnv result
             = extractSpeakerId parse result)
    by (intros; apply extractSpeakerId_service_agrees; assumption).
  cut (exists v,
          extractSpeakerId parse result = Normal v
          /\ (v = JNull \/ truthy v = true)
          /\ v = match firstClassPath result with
                 | Some x => x
                 | None =>
                     if hasJson result then orNull (jsonPath parse result)
                     else orNull (privPath result)
                 end).
  { intros (v & A & B & C). exists v.
    split; [assumption|]. split; [assumption|]. split; [assumption|]. split.
    - intros H. rewrite C. unfold extractByPriority.
      destruct (firstClassPath result); [reflexivity|].
      destruct (hasJson result) eqn:Hj.
      + destruct (jsonPath parse result); [reflexivity|].
        destruct H as [H|[H|H]]; [discriminate|contradiction|].
        rewrite H. reflexivity.
      + unfold hasJson in Hj. unfold jsonPath.
        destruct (getProp result "json") as [j|e]; [rewrite Hj|]; reflexivity.
    - intros nodeEnv. rewrite Hsame. assumption. }
  clear Hsame.
  unfold extractSpeakerId, extractSpeakerId_try, firstClassPath, hasJson,
    jsonPath, privPath.
  destruct (getProp_object result "userId" Hobj) as [u Hu].
  destruct (getProp_object result "speakerId" Hobj) as [s Hs].
  destruct (getProp_object result "json" Hobj) as [j Hj].
  destruct (getProp_object result "privResult" Hobj) as [p Hp].
  rewrite Hj, Hp. unfold jsOr. rewrite Hu, Hs. simpl.
  destruct (truthy u) eqn:Tu; simpl; rewrite ?Tu; simpl; [eauto|].
  destruct (truthy s) eqn:Ts; simpl; rewrite ?Ts; simpl; [eauto|].
  destruct (truthy j) eqn:Tj; simpl.
  - destruct (parse j) as [pj|e]; simpl; [|eauto].
    destruct (firstTruthyOf pj "SpeakerId" "UserId" "speakerId" "userId")
      as [v|e] eqn:Ev; simpl; [|eauto].
    destruct (firstTruthyOf_value _ _ _ _ _ _ Ev) as [->|Tv];
      simpl; rewrite ?Tv; eauto.
  - destruct (truthy p) eqn:Tp; simpl; [|eauto].
    destruct (firstTruthyOf p "SpeakerId" "speakerId" "UserId" "userId")
      as [v|e] eqn:Ev; simpl; [|eauto].
    destruct (firstTruthyOf_value _ _ _ _ _ _ Ev) as [->|Tv];
      simpl; rewrite ?Tv; eauto.
Qed.

(** C9, as the claim reads: a fall-through over the three paths would
    return the identifier of [privResult] here. The code returns [null]:
    the [json] field is present, names no speaker, and ends the lookup. *)
Lemma extractSpeakerId_skips_privResult :
  isNullish resultWithPrivateIdOnly = false
  /\ firstClassPath resultWithPrivateIdOnly = None
  /\ jsonPath parseFixture resultWithPrivateIdOnly = None
  /\ privPath resultWithPrivateIdOnly = Some (JStr "Guest-1")
  /\ extractByPriority parseFixture resultWithPrivateIdOnly = JStr "Guest-1"
  /\ extractSpeakerId parseFixture resultWithPrivateIdOnly = Normal JNull
  /\ extractSpeakerId parseFixture resultWithPrivateIdOnly
     <> Normal (extractByPriority parseFixture resultWithPrivateIdOnly).
Proof. repeat split; try (vm_compute; reflexivity). vm_compute. discriminate. Qed.

(* ================================================================== *)
(** * The speaker registry                                             *)
(* ================================================================== *)

Module JsMapFacts.
Import JsMap.

Lemma get_app_new m k v : has m k = false -> get (m ++ [(k, v)]) k = Some v.
Proof.
  unfold has, get. induction m as [|[k' v'] m IH]; simpl.
  - rewrite sameValueZero_refl. reflexivity.
  - destruct (sameValueZero k' k); simpl; [discriminate|auto].
Qed.

Lemma get_app_other m k v k' :
  sameValueZero k k' = false -> get (m ++ [(k, v)]) k' = get m k'.
Proof.
  unfold get. intros H. induction m as [|[k0 v0] m IH]; simpl.
  - rewrite H. reflexivity.
  - destruct (sameValueZero k0 k'); simpl; auto.
Qed.

Lemma get_app_present m l k n : get m k = Some n -> get (m ++ l) k = Some n.
Proof.
  unfold get. induction m as [|[k0 v0] m IH]; simpl; [discriminate|].
  destruct (sameValueZero k0 k); simpl; auto.
Qed.

Lemma has_app m k v k' :
  has (m ++ [(k, v)]) k' = has m k' || sameValueZero k k'.
Proof. unfold has. rewrite existsb_app. simpl. rewrite orb_false_r. reflexivity. Qed.

End JsMapFacts.
Import JsMapFacts.

Lemma resolveSpeaker_new m k :
  truthy k = true -> JsMap.has m k = false ->
  resolveSpeaker m k = m ++ [(k, JsMap.size m + 1)].
Proof.
  intros Ht Hh. unfold resolveSpeaker, JsMap.set. rewrite Ht, Hh. reflexivity.
Qed.

Lemma resolveSpeaker_known m k :
  JsMap.has m k = true -> resolveSpeaker m k = m.
Proof.
  intros Hh. unfold resolveSpeaker. rewrite Hh, andb_false_r. reflexivity.
Qed.

Lemma resolveSpeaker_falsy m k :
  truthy k = false -> resolveSpeaker m k = m.
Proof. intros Ht. unfold resolveSpeaker. rewrite Ht. reflexivity. Qed.

Lemma resolveSpeaker_keysTruthy m k :
  keysTruthy m = true -> keysTruthy (resolveSpeaker m k) = true.
Proof.
  unfold resolveSpeaker, keysTruthy, JsMap.set. intros H.
  destruct (truthy k) eqn:Tk; simpl; [|assumption].
  destruct (JsMap.has m k); simpl; [assumption|].
  rewrite forallb_app, H. simpl. rewrite Tk. reflexivity.
Qed.

Lemma keysTruthy_get_nullish m k :
  keysTruthy m = true -> isNullish k = true -> JsMap.get m k = None.
Proof.
  unfold keysTruthy, JsMap.get. intros H Hk.
  induction m as [|[k0 v0] m IH]; simpl in *; [reflexivity|].
  apply andb_true_iff in H. destruct H as [H0 Hm].
  rewrite (sameValueZero_nullish_falsy k0 k Hk H0). auto.
Qed.

Lemma app_onTranscribed_speakers now text k a :
  speakers (app_onTranscribed now text k a) = resolveSpeaker (speakers a) k.
Proof. reflexivity. Qed.

Lemma app_onTranscribed_names now text k a :
  speakerNames (app_onTranscribed now text k a)
  = speakerNames a
    ++ [speakerNameOf (JsMap.get (resolveSpeaker (speakers a) k) k)].
Proof. unfold speakerNames. simpl. rewrite map_app. reflexivity. Qed.

Lemma speakerNameOf_succ n : speakerNameOf (Some (n + 1)) = speakerLabel (n + 1).
Proof. unfold speakerNameOf. rewrite Nat.add_1_r. reflexivity. Qed.

(** C3. Three final results that carry ids [a], [b], [c] the registry has
    not seen (truthy, pairwise distinct) get the numbers [n+1], [n+2],
    [n+3], where [n] is the count of known ids, and the labels made from
    these numbers; a later result of [a] is labelled with [a]'s number again
    and leaves the registry as it is. From the empty registry the labels are
    说话人-1, 说话人-2, 说话人-3 and again 说话人-1 (the source's spelling of
    speaker-1, speaker-2, speaker-3). *)
Theorem speakers_numbered_by_first_appearance :
  forall (a0 : AppState) (a b c : JsVal) (now : Z) (said : string),
    truthy a = true -> truthy b = true -> truthy c = true ->
    JsMap.has (speakers a0) a = false ->
    JsMap.has (speakers a0) b = false ->
    JsMap.has (speakers a0) c = false ->
    sameValueZero a b = false ->
    sameValueZero a c = false ->
    sameValueZero b c = false ->
    let n := JsMap.size (speakers a0) in
    let s3 := app_onTranscribed now said c
                (app_onTranscribed now said b
                   (app_onTranscribed now said a a0)) in
    let s4 := app_onTranscribed now said a s3 in
    speakers s3 = speakers a0 ++ [(a, n + 1); (b, n + 2); (c, n + 3)]
    /\ speakerNames s4
       = speakerNames a0
         ++ [speakerLabel (n + 1); speakerLabel (n + 2); speakerLabel (n + 3);
             speakerLabel (n + 1)]
    /\ speakers s4 = speakers s3
    /\ (speakers a0 = JsMap.empty ->
        speakerNames s4
        = speakerNames a0 ++ ["说话人-1"; "说话人-2"; "说话人-3"; "说话人-1"]).
Proof.
  intros a0 a b c now said Ta Tb Tc Ha Hb Hc Hab Hac Hbc n s3 s4.
  assert (E1 : resolveSpeaker (speakers a0) a = speakers a0 ++ [(a, n + 1)])
    by (apply resolveSpeaker_new; assumption).
  assert (E2 : resolveSpeaker (speakers a0 ++ [(a, n + 1)]) b
               = (speakers a0 ++ [(a, n + 1)]) ++ [(b, n + 2)]).
  { rewrite resolveSpeaker_new; try assumption.
    - unfold JsMap.size. rewrite length_app. simpl.
      replace (length (speakers a0) + 1 + 1) with (n + 2)
        by (unfold n, JsMap.size; lia).
      reflexivity.
    - rewrite has_app, Hb, Hab. reflexivity. }
  assert (E3 : resolveSpeaker ((speakers a0 ++ [(a, n + 1)]) ++ [(b, n + 2)]) c
               = ((speakers a0 ++ [(a, n + 1)]) ++ [(b, n + 2)]) ++ [(c, n + 3)]).
  { rewrite resolveSpeaker_new; try assumption.
    - unfold JsMap.size. rewrite !length_app. simpl.
      replace (length (speakers a0) + 1 + 1 + 1) with (n + 3)
        by (unfold n, JsMap.size; lia).
      reflexivity.
    - rewrite !has_app, Hc, Hac, Hbc. reflexivity. }
  assert (Hha : JsMap.has
                  (((speakers a0 ++ [(a, n + 1)]) ++ [(b, n + 2)]) ++ [(c, n + 3)]) a
                = true).
  { rewrite !has_app, sameValueZero_refl. rewrite orb_true_r. reflexivity. }
  assert (S3 : speakers s3 = speakers a0 ++ [(a, n + 1); (b, n + 2); (c, n + 3)]).
  { subst s3. rewrite !app_onTranscribed_speakers, E1, E2, E3.
    rewrite <- !app_assoc. reflexivity. }
  assert (N4 : speakerNames s4
       = speakerNames a0
         ++ [speakerLabel (n + 1); speakerLabel (n + 2); speakerLabel (n + 3);
             speakerLabel (n + 1)]).
  { subst s4 s3. rewrite !app_onTranscribed_names, !app_onTranscribed_speakers.
    rewrite E1, E2, E3. rewrite (resolveSpeaker_known _ a Hha).
    rewrite (get_app_new _ a) by assumption.
    rewrite (get_app_new _ b) by (rewrite has_app, Hb, Hab; reflexivity).
    rewrite (get_app_new _ c) by (rewrite !has_app, Hc, Hac, Hbc; reflexivity).
    assert (Hca : sameValueZero c a = false)
      by (rewrite sameValueZero_sym; exact Hac).
    assert (Hba : sameValueZero b a = false)
      by (rewrite sameValueZero_sym; exact Hab).
    rewrite (get_app_other _ c _ a Hca), (get_app_other _ b _ a Hba).
    rewrite (get_app_new _ a) by assumption.
    rewrite !speakerNameOf_succ.
    replace (n + 2) with ((n + 1) + 1) by lia.
    replace (n + 3) with ((n + 1 + 1) + 1) by lia.
    rewrite !speakerNameOf_succ. rewrite <- !app_assoc. reflexivity. }
  split; [exact S3|]. split; [exact N4|]. split.
  - subst s4. rewrite app_onTranscribed_speakers. apply resolveSpeaker_known.
    rewrite S3. unfold JsMap.has. rewrite existsb_app. simpl.
    rewrite sameValueZero_refl, orb_true_r. reflexivity.
  - intros Hempty. rewrite N4. subst n. rewrite Hempty. reflexivity.
Qed.

(* ================================================================== *)
(** * The handlers of the connection                                   *)
(* ================================================================== *)

Lemma effectsSince_app w w' l :
  trace w' = trace w ++ l -> effectsSince w w' = l.
Proof.
  unfold effectsSince. intros ->.
  rewrite skipn_app, skipn_all, Nat.sub_diag. reflexivity.
Qed.

Lemma effectsSince_same w w' :
  trace w' = trace w -> effectsSince w w' = [].
Proof. intros H. apply effectsSince_app. rewrite H, app_nil_r. reflexivity. Qed.

Lemma effectsSince_app2 w w' l1 l2 :
  trace w' = (trace w ++ l1) ++ l2 -> effectsSince w w' = l1 ++ l2.
Proof. intros H. apply effectsSince_app. rewrite H, app_assoc. reflexivity. Qed.

(** A handler that ends in [onError] after clearing [isRunning]. *)
Lemma surfaces_error message w :
  has_onError (callbacks w) = true ->
  effectsSince w (emit (OnError message) (set_isRunning false w))
  = [Call (OnError message)]
  /\ timers (emit (OnError message) (set_isRunning false w)) = timers w.
Proof.
  intros H. unfold emit. cbn [installed callbacks set_isRunning]. rewrite H.
  split; [apply effectsSince_app|]; reflexivity.
Qed.

(** What the [canceled] handler does to the outside: with [onError]
    installed, it stays silent and arms the [RECONNECT_DELAY_MS] timeout
    exactly under [selfHeals]; otherwise it calls [onError] once and arms
    nothing. *)
Lemma canceled_arms_or_reports (errorDetails : option string) (w : World) :
  has_onError (callbacks w) = true ->
  let w' := canceled errorDetails w in
  ((effectsSince w w' = []
    /\ timers w' = timers w ++ [reconnectTimer w reasonTimeoutError])
   <-> selfHeals errorDetails w)
  /\ (~ selfHeals errorDetails w ->
      (exists message, effectsSince w w' = [Call (OnError message)])
      /\ timers w' = timers w).
Proof.
  intros Hcb w'. subst w'. rename errorDetails into d.
  assert (surfaced : forall message,
            ~ selfHeals d w ->
            let w' := emit (OnError message) (set_isRunning false w) in
            ((effectsSince w w' = []
              /\ timers w' = timers w ++ [reconnectTimer w reasonTimeoutError])
             <-> selfHeals d w)
            /\ (~ selfHeals d w ->
                (exists m, effectsSince w w' = [Call (OnError m)])
                /\ timers w' = timers w)).
  { intros message HQ. cbv zeta.
    destruct (surfaces_error message w Hcb) as [E T]. rewrite E, T.
    split; [split|]; [intros [H _]; discriminate|intros H; contradiction|eauto]. }
  unfold canceled, selfHeals in *.
  destruct (detailsInclude "StatusCode: 1006" d).
  - apply surfaced. intros (_ & H & _). discriminate.
  - destruct (isTimeoutError d).
    + cbn [autoReconnectEnabled set_isRunning].
      destruct (autoReconnectEnabled w) eqn:Ha, (isRunning w) eqn:Hr; cbn [andb].
      * split.
        -- split; [auto|]. intros _. split; [apply effectsSince_same|]; reflexivity.
        -- intros H. exfalso. apply H. auto.
      * apply surfaced. intros (_ & _ & _ & H). discriminate.
      * apply surfaced. intros (_ & _ & H & _). discriminate.
      * apply surfaced. intros (_ & _ & H & _). discriminate.
    + apply surfaced. intros (H & _). discriminate.
Qed.

(** What the [sessionStopped] handler does to the outside, on a running
    service with auto-reconnect enabled and [onSessionStopped] installed:
    from [STOPPED_TIMEOUT_THRESHOLD_MS] since the session start on, it stays
    silent and arms the [RECONNECT_DELAY_MS] timeout; below, it calls
    [onSessionStopped] and arms nothing. *)
Lemma sessionStopped_arms_or_reports (now : Z) (w : World) :
  isRunning w = true ->
  autoReconnectEnabled w = true ->
  has_onSessionStopped (callbacks w) = true ->
  let w' := sessionStopped now w in
  ((STOPPED_TIMEOUT_THRESHOLD_MS <= sessionDuration now w)%Z ->
     effectsSince w w' = []
     /\ timers w' = timers w ++ [reconnectTimer w reasonStopped])
  /\ ((sessionDuration now w < STOPPED_TIMEOUT_THRESHOLD_MS)%Z ->
     effectsSince w w' = [Call OnSessionStopped]
     /\ timers w' = timers w)
  /\ (forall t0, sessionStartTime w = Some t0 -> t0 <> 0%Z ->
      sessionDuration now w = (now - t0)%Z).
Proof.
  intros Hr Ha Hcb w'. subst w'. unfold sessionStopped.
  cbn [autoReconnectEnabled set_isRunning]. rewrite Hr, Ha. cbn [andb].
  replace (sessionDuration now (set_isRunning false w)) with (sessionDuration now w)
    by reflexivity.
  split; [|split].
  - intros H. apply Z.leb_le in H. rewrite H.
    split; [apply effectsSince_same|]; reflexivity.
  - intros H. apply Z.leb_gt in H. rewrite H.
    unfold emit. cbn [installed callbacks set_isRunning]. rewrite Hcb.
    split; [apply effectsSince_app|]; reflexivity.
  - intros t0 Ht Hnz. unfold sessionDuration. rewrite Ht.
    destruct (Z.eqb_spec t0 0); [contradiction|reflexivity].
Qed.

(** A trigger finds the guard of [restartSession] closed. *)
Lemma restartSession_idle why w :
  isRunning w = false -> restartSession why w = w.
Proof. intros H. unfold restartSession. rewrite H. reflexivity. Qed.

Lemma restartSession_disabled why w :
  autoReconnectEnabled w = false -> restartSession why w = w.
Proof.
  intros H. unfold restartSession. rewrite H, orb_true_r. reflexivity.
Qed.

Lemma sessionRestartTimerFired_idle w :
  isRunning w = false -> sessionRestartTimerFired w = w.
Proof. intros H. unfold sessionRestartTimerFired. rewrite H. reflexivity. Qed.

Lemma emit_timers cb w : timers (emit cb w) = timers w.
Proof. unfold emit. destruct (installed _ _); reflexivity. Qed.



(** A fired timeout that is not the refresh tick, while not running. *)
Lemma timerFired_idle id t w :
  isRunning w = false ->
  findTimer id (timers w) = Some t ->
  timerKind t <> TokenRefreshTick ->
  timerFired id w = clearTimer id w.
Proof.
  intros Hr Hf Hk. unfold timerFired. rewrite Hf.
  destruct (timerKind t); [contradiction| |].
  - apply sessionRestartTimerFired_idle. exact Hr.
  - apply restartSession_idle. exact Hr.
Qed.

(* ================================================================== *)
(** * Frames: what an operation leaves alone                           *)
(* ================================================================== *)

Lemma Ext_refl P w : Ext P w w.
Proof. exists []. rewrite app_nil_r. auto. Qed.

Lemma Ext_trans P w1 w2 w3 : Ext P w1 w2 -> Ext P w2 w3 -> Ext P w1 w3.
Proof.
  intros (l1 & E1 & F1) (l2 & E2 & F2). exists (l1 ++ l2).
  rewrite E2, E1, app_assoc, forallb_app, F1, F2. auto.
Qed.

Lemma Ext_weaken (P Q : Effect -> bool) w w' :
  (forall e, P e = true -> Q e = true) -> Ext P w w' -> Ext Q w w'.
Proof.
  intros H (l & E & F). exists l. split; [assumption|].
  rewrite forallb_forall in *. auto.
Qed.

Lemma quiet_notTranscribed e : quiet e = true -> notTranscribed e = true.
Proof. destruct e as [[]| | | | |]; simpl; auto. Qed.

Lemma Tame_refl w : Tame w w.
Proof. unfold Tame. auto 10 using Ext_refl. Qed.

Lemma Tame_trans w1 w2 w3 : Tame w1 w2 -> Tame w2 w3 -> Tame w1 w3.
Proof.
  unfold Tame. intros (A1 & A2 & A3 & A4 & A5 & A6 & A7) (B1 & B2 & B3 & B4 & B5 & B6 & B7).
  repeat split; try congruence. eapply Ext_trans; eassumption.
Qed.

Lemma Calm_refl w : Calm w w.
Proof. unfold Calm. auto using Ext_refl. Qed.

Lemma Calm_trans w1 w2 w3 : Calm w1 w2 -> Calm w2 w3 -> Calm w1 w3.
Proof.
  unfold Calm. intros (A1 & A2 & A3 & A4) (B1 & B2 & B3 & B4).
  repeat split; try congruence; auto. eapply Ext_trans; eassumption.
Qed.

Lemma Tame_Calm w w' : Tame w w' -> Calm w w'.
Proof.
  unfold Tame, Calm. intros (A1 & A2 & A3 & A4 & A5 & A6 & A7).
  repeat split; try congruence. eapply Ext_weaken; [apply quiet_notTranscribed|assumption].
Qed.

Lemma Calm_keeps_autoReconnect_off w w' :
  Calm w w' -> autoReconnectEnabled w = false -> autoReconnectEnabled w' = false.
Proof.
  intros (_ & _ & R & _) H. destruct (autoReconnectEnabled w') eqn:E; [|reflexivity].
  rewrite R in H by reflexivity. discriminate.
Qed.

Create HintDb tame.
Create HintDb calm.
Create HintDb settled.

#[local] Hint Extern 1 (quiet _ = true) => reflexivity : tame calm settled.
#[local] Hint Extern 1 (notTranscribed _ = true) => reflexivity : calm.

(** A field update or a log entry is decided by computation; a composed
    operation is cut at each call, and every call is closed by the lemma of
    the callee. *)
Ltac ext_prim :=
  unfold Ext; cbn;
  first [ exists []; split; [rewrite app_nil_r; reflexivity | reflexivity]
        | eexists [_]; split; reflexivity ].

Ltac tame_prim :=
  unfold Tame; cbn; repeat split; try reflexivity; ext_prim.

Ltac calm_prim :=
  unfold Calm; cbn; repeat split; try reflexivity;
  try (intros; first [assumption | discriminate]); ext_prim.

Ltac tame :=
  cbv zeta;
  repeat match goal with
  | |- Tame ?w ?w => apply Tame_refl
  | |- Tame _ (if ?b then _ else _) => destruct b eqn:?
  | |- Tame _ (match ?x with _ => _ end) => destruct x eqn:?
  | |- Tame ?w (?f ?w') =>
      apply (Tame_trans w w' (f w'));
      [ | first [ solve [auto with tame] | solve [tame_prim] ] ]
  end.

Ltac calm :=
  cbv zeta;
  repeat match goal with
  | |- Calm ?w ?w => apply Calm_refl
  | |- Calm _ (if ?b then _ else _) => destruct b eqn:?
  | |- Calm _ (match ?x with _ => _ end) => destruct x eqn:?
  | |- Calm ?w (?f ?w') =>
      apply (Calm_trans w w' (f w'));
      [ | first [ solve [auto with calm] | solve [calm_prim] ] ]
  end.

(** ** Tame operations: callbacks, resources, timers *)

Lemma Tame_log e w : quiet e = true -> Tame w (log e w).
Proof.
  intros H. unfold Tame, Ext; cbn. repeat split; try reflexivity.
  exists [e]. simpl. rewrite H. auto.
Qed.
#[local] Hint Resolve Tame_log : tame calm settled.

Lemma Tame_emit cb w : quiet (Call cb) = true -> Tame w (emit cb w).
Proof. intros H. unfold emit. destruct (installed _ _); auto using Tame_refl, Tame_log. Qed.
#[local] Hint Resolve Tame_emit : tame calm settled.

Lemma Tame_bump w : Tame w (bump w).
Proof. tame_prim. Qed.
#[local] Hint Resolve Tame_bump : tame calm settled.

Lemma Tame_setTimer d k w : Tame w (setTimer d k w).
Proof. tame_prim. Qed.
#[local] Hint Resolve Tame_setTimer : tame calm settled.

Lemma Tame_clearTimer id w : Tame w (clearTimer id w).
Proof. tame_prim. Qed.
#[local] Hint Resolve Tame_clearTimer : tame calm settled.

Lemma Tame_closeResource r w : Tame w (closeResource r w).
Proof. unfold closeResource. destruct r; auto using Tame_refl with tame. Qed.
#[local] Hint Resolve Tame_closeResource : tame calm settled.

Lemma Tame_closeAll w : Tame w (closeAll w).
Proof. unfold closeAll. tame. Qed.
#[local] Hint Resolve Tame_closeAll : tame calm settled.

Lemma Tame_stopTokenRefresh w : Tame w (stopTokenRefresh w).
Proof. unfold stopTokenRefresh. tame. Qed.
#[local] Hint Resolve Tame_stopTokenRefresh : tame calm settled.

Lemma Tame_startTokenRefresh w : Tame w (startTokenRefresh w).
Proof. unfold startTokenRefresh. tame. Qed.
#[local] Hint Resolve Tame_startTokenRefresh : tame calm settled.

Lemma Tame_stopSessionRestartTimer w : Tame w (stopSessionRestartTimer w).
Proof. unfold stopSessionRestartTimer. tame. Qed.
#[local] Hint Resolve Tame_stopSessionRestartTimer : tame calm settled.

Lemma Tame_startSessionRestartTimer w : Tame w (startSessionRestartTimer w).
Proof. unfold startSessionRestartTimer. tame. Qed.
#[local] Hint Resolve Tame_startSessionRestartTimer : tame calm settled.

Lemma Tame_refreshToken_fetched token w : Tame w (refreshToken_fetched token w).
Proof. unfold refreshToken_fetched. tame. Qed.
#[local] Hint Resolve Tame_refreshToken_fetched : tame calm settled.

Lemma Tame_refreshToken_failed detail w : Tame w (refreshToken_failed detail w).
Proof. unfold refreshToken_failed. tame. Qed.
#[local] Hint Resolve Tame_refreshToken_failed : tame calm settled.

Lemma Tame_startReturned caller w : Tame w (startReturned caller w).
Proof. unfold startReturned. tame. Qed.
#[local] Hint Resolve Tame_startReturned : tame calm settled.

Lemma Tame_startThrew caller message w : Tame w (startThrew caller message w).
Proof. unfold startThrew. tame. Qed.
#[local] Hint Resolve Tame_startThrew : tame calm settled.

Lemma Tame_transcribing parse r w : Tame w (transcribing parse r w).
Proof. unfold transcribing. tame. Qed.
#[local] Hint Resolve Tame_transcribing : tame calm settled.

(** ** Operations that steer the service but stay calm *)

#[local] Hint Resolve Tame_Calm : calm.

Lemma Calm_requestToken k w : Calm w (requestToken k w).
Proof. unfold requestToken. calm. Qed.
#[local] Hint Resolve Calm_requestToken : calm.

Lemma Calm_refreshToken w : Calm w (refreshToken w).
Proof. unfold refreshToken. calm. Qed.
#[local] Hint Resolve Calm_refreshToken : calm.

Lemma Calm_start caller w : Calm w (start caller w).
Proof. unfold start. calm. Qed.
#[local] Hint Resolve Calm_start : calm.

Lemma Calm_start_fetched caller token region w :
  Calm w (start_fetched caller token region w).
Proof. unfold start_fetched. calm. Qed.
#[local] Hint Resolve Calm_start_fetched : calm.

Lemma Calm_start_failed caller detail w : Calm w (start_failed caller detail w).
Proof. unfold start_failed. calm. Qed.
#[local] Hint Resolve Calm_start_failed : calm.

Lemma Calm_startFailed error w : Calm w (startFailed error w).
Proof. unfold startFailed. calm. Qed.
#[local] Hint Resolve Calm_startFailed : calm.

Lemma Calm_restartSession_stopped wasRunning w :
  Calm w (restartSession_stopped wasRunning w).
Proof. unfold restartSession_stopped. calm. Qed.
#[local] Hint Resolve Calm_restartSession_stopped : calm.

Lemma Calm_restartSession reason w : Calm w (restartSession reason w).
Proof. unfold restartSession. calm. Qed.
#[local] Hint Resolve Calm_restartSession : calm.

Lemma Calm_sessionRestartTimerFired w : Calm w (sessionRestartTimerFired w).
Proof. unfold sessionRestartTimerFired. calm. Qed.
#[local] Hint Resolve Calm_sessionRestartTimerFired : calm.

Lemma Calm_stop w : Calm w (stop w).
Proof. unfold stop. calm. Qed.
#[local] Hint Resolve Calm_stop : calm.

Lemma Calm_disableAutoReconnect w : Calm w (disableAutoReconnect w).
Proof. unfold disableAutoReconnect. calm. Qed.
#[local] Hint Resolve Calm_disableAutoReconnect : calm.

Lemma Calm_canceled d w : Calm w (canceled d w).
Proof. unfold canceled. calm. Qed.
#[local] Hint Resolve Calm_canceled : calm.

Lemma Calm_sessionStopped now w : Calm w (sessionStopped now w).
Proof. unfold sessionStopped. calm. Qed.
#[local] Hint Resolve Calm_sessionStopped : calm.

Lemma Calm_stop_acknowledged w : Calm w (stop_acknowledged w).
Proof. unfold stop_acknowledged. calm. Qed.
#[local] Hint Resolve Calm_stop_acknowledged : calm.

Lemma Calm_timerFired id w : Calm w (timerFired id w).
Proof. unfold timerFired. calm. Qed.
#[local] Hint Resolve Calm_timerFired : calm.

Lemma Calm_tokenFetched rid token region w : Calm w (tokenFetched rid token region w).
Proof. unfold tokenFetched. calm. Qed.
#[local] Hint Resolve Calm_tokenFetched : calm.

Lemma Calm_tokenFetchFailed rid detail w : Calm w (tokenFetchFailed rid detail w).
Proof. unfold tokenFetchFailed. calm. Qed.
#[local] Hint Resolve Calm_tokenFetchFailed : calm.

Lemma Calm_stopAcknowledged rid w : Calm w (stopAcknowledged rid w).
Proof. unfold stopAcknowledged. calm. Qed.
#[local] Hint Resolve Calm_stopAcknowledged : calm.

(** The three operations that are not calm, each with what it keeps. *)

Lemma enableAutoReconnect_frame w :
  callbacks (enableAutoReconnect w) = callbacks w
  /\ isRunning (enableAutoReconnect w) = isRunning w
  /\ Ext notTranscribed w (enableAutoReconnect w).
Proof.
  unfold enableAutoReconnect. cbv zeta. cbn [isRunning set_autoReconnectEnabled].
  destruct (isRunning w) eqn:Hr.
  - destruct (Tame_startSessionRestartTimer (set_autoReconnectEnabled true w))
      as (A1 & A2 & _ & _ & _ & _ & A7).
    repeat split; [exact A1| rewrite A2; exact Hr |].
    apply (Ext_trans _ w (set_autoReconnectEnabled true w)); [ext_prim|].
    eapply Ext_weaken; [apply quiet_notTranscribed|exact A7].
  - repeat split; [exact Hr|ext_prim].
Qed.

Lemma startSucceeded_frame now w :
  callbacks (startSucceeded now w) = callbacks w
  /\ autoReconnectEnabled (startSucceeded now w) = autoReconnectEnabled w
  /\ Ext notTranscribed w (startSucceeded now w).
Proof.
  assert (T : Tame (set_sessionStartTime (Some now) (set_isRunning true w))
                (startSucceeded now w)).
  { unfold startSucceeded. tame. }
  destruct T as (A1 & _ & A3 & _ & _ & _ & A7).
  repeat split; [exact A1|exact A3|].
  apply (Ext_trans _ w (set_sessionStartTime (Some now) (set_isRunning true w)));
    [ext_prim|].
  eapply Ext_weaken; [apply quiet_notTranscribed|exact A7].
Qed.

Lemma transcribed_frame parse r w :
  callbacks (transcribed parse r w) = callbacks w
  /\ isRunning (transcribed parse r w) = isRunning w
  /\ autoReconnectEnabled (transcribed parse r w) = autoReconnectEnabled w
  /\ pendingTokens (transcribed parse r w) = pendingTokens w
  /\ pendingStops (transcribed parse r w) = pendingStops w
  /\ pendingOpens (transcribed parse r w) = pendingOpens w
  /\ Ext notSdkStart w (transcribed parse r w).
Proof.
  unfold transcribed, emit.
  repeat match goal with
  | |- context [match ?x with _ => _ end] => destruct x
  end; repeat split; ext_prim.
Qed.

Section StepFacts.

Variable JSON_parse : JsVal -> Completion JsVal.

Lemma Calm_step ev w :
  ev <> CallEnableAutoReconnect ->
  (forall c now, ev <> StartSucceeded c now) ->
  (forall r, ev <> SdkTranscribed r) ->
  Calm w (step JSON_parse ev w).
Proof.
  intros H1 H2 H3. destruct ev; unfold step;
    try solve [auto with calm];
    try solve [calm];
    exfalso; first [apply H1; reflexivity | eapply H2; reflexivity | eapply H3; reflexivity].
Qed.

Ltac other_event := intros; congruence.

Lemma step_callbacks ev w : callbacks (step JSON_parse ev w) = callbacks w.
Proof.
  destruct ev;
    try (apply Calm_step; other_event).
  - apply enableAutoReconnect_frame.
  - unfold step. destruct (memNat c (pendingOpens w)); [|reflexivity].
    rewrite (proj1 (startSucceeded_frame _ _)). reflexivity.
  - apply transcribed_frame.
Qed.

Lemma step_keeps_autoReconnect_off ev w :
  ev <> CallEnableAutoReconnect ->
  autoReconnectEnabled w = false ->
  autoReconnectEnabled (step JSON_parse ev w) = false.
Proof.
  intros Hev Ha. destruct ev;
    try (apply (Calm_keeps_autoReconnect_off w); [apply Calm_step; other_event | assumption]).
  - unfold step. destruct (memNat c (pendingOpens w)); [|assumption].
    rewrite (proj1 (proj2 (startSucceeded_frame _ _))). assumption.
  - unfold step. rewrite (proj1 (proj2 (proj2 (transcribed_frame _ r w)))). assumption.
Qed.

Lemma step_Ext ev w :
  (forall r, ev <> SdkTranscribed r) ->
  Ext notTranscribed w (step JSON_parse ev w).
Proof.
  intros Hev. destruct ev;
    try (apply Calm_step; other_event).
  - apply enableAutoReconnect_frame.
  - unfold step. destruct (memNat c (pendingOpens w)); [|apply Ext_refl].
    apply (Ext_trans _ w (set_pendingOpens (removeNat c (pendingOpens w)) w));
      [ext_prim|apply startSucceeded_frame].
Qed.

End StepFacts.

Lemma run_keeps_autoReconnect_off JSON_parse evs :
  forall w,
    forallb (fun ev => negb (isEnable ev)) evs = true ->
    autoReconnectEnabled w = false ->
    autoReconnectEnabled (run JSON_parse evs w) = false.
Proof.
  unfold run. induction evs as [|ev evs IH]; simpl; intros w H Ha; [assumption|].
  apply andb_true_iff in H. destruct H as [Hev H].
  apply IH; [assumption|]. apply step_keeps_autoReconnect_off; [|assumption].
  intros ->. discriminate.
Qed.

(** C10. A call of [restartSession] on a service that is not running, or
    whose auto-reconnect is disabled, returns the world as it found it: no
    callback, no timer cancelled, nothing released, no connection opened.
    Auto-reconnect is off in a new service and only [enableAutoReconnect]
    turns it on, so whatever else happens to a service, as long as
    [enableAutoReconnect] has not been called every [restartSession] is
    without effect. *)
Theorem restartSession_guard :
  forall (JSON_parse : JsVal -> Completion JsVal),
    (forall (why : string) (w : World),
        isRunning w = false \/ autoReconnectEnabled w = false ->
        restartSession why w = w
        /\ step JSON_parse (CallRestartSession (Some why)) w = w
        /\ step JSON_parse (CallRestartSession None) w = w)
    /\ (forall (cbs : Callbacks) (evs : list Event) (why : string),
          forallb (fun ev => negb (isEnable ev)) evs = true ->
          let w := run JSON_parse evs (newService cbs) in
          autoReconnectEnabled w = false /\ restartSession why w = w).
Proof.
  intros parse. split.
  - intros why w [H|H]; unfold step;
      rewrite ?(restartSession_idle _ w H), ?(restartSession_disabled _ w H); auto.
  - intros cbs evs why H w.
    assert (Ha : autoReconnectEnabled w = false)
      by (subst w; apply run_keeps_autoReconnect_off; [assumption|reflexivity]).
    split; [assumption|]. apply restartSession_disabled. assumption.
Qed.

(* ================================================================== *)
(** * The component and its service                                    *)
(* ================================================================== *)

Lemma Ext_effectsSince P w w' :
  Ext P w w' -> forallb P (effectsSince w w') = true.
Proof. intros (l & E & F). rewrite (effectsSince_app w w' l E). exact F. Qed.

Lemma deliver_speakers now a e :
  notTranscribed e = true -> speakers (deliver now a e) = speakers a.
Proof. destruct e as [[]| | | | |]; simpl; intros; try discriminate; reflexivity. Qed.

Lemma deliverAll_speakers now l :
  forall a, forallb notTranscribed l = true ->
            speakers (deliverAll now l a) = speakers a.
Proof.
  unfold deliverAll. induction l as [|e l IH]; simpl; intros a H; [reflexivity|].
  apply andb_true_iff in H. destruct H as [He Hl].
  rewrite IH by assumption. apply deliver_speakers. assumption.
Qed.

Section SystemFacts.

Variable JSON_parse : JsVal -> Completion JsVal.

Lemma sysStep_speakers now act s :
  touchesRegistry act = false ->
  speakers (app (sysStep JSON_parse now act s)) = speakers (app s).
Proof.
  intros H. destruct act as [| | |ev]; simpl in *; try discriminate.
  - rewrite deliverAll_speakers; [reflexivity|]. apply Ext_effectsSince.
    apply (Ext_trans _ _ (enableAutoReconnect (service s))).
    + apply enableAutoReconnect_frame.
    + apply Calm_start.
  - rewrite deliverAll_speakers; [reflexivity|]. apply Ext_effectsSince.
    apply Calm_stop.
  - rewrite deliverAll_speakers; [reflexivity|]. apply Ext_effectsSince.
    apply step_Ext. intros r Hr. subst ev. discriminate.
Qed.

Lemma sysStep_callbacks now act s :
  callbacks (service (sysStep JSON_parse now act s)) = callbacks (service s).
Proof.
  destruct act as [| | |ev]; simpl.
  - destruct (Calm_start ByCaller (enableAutoReconnect (service s))) as (E & _).
    rewrite E. apply enableAutoReconnect_frame.
  - apply Calm_stop.
  - reflexivity.
  - apply step_callbacks.
Qed.

Lemma sysRun_speakers acts :
  forall s,
    forallb (fun na => negb (touchesRegistry (snd na))) acts = true ->
    speakers (app (sysRun JSON_parse acts s)) = speakers (app s).
Proof.
  unfold sysRun. induction acts as [|[now act] acts IH]; simpl; intros s H; [reflexivity|].
  apply andb_true_iff in H. destruct H as [Ha Hl].
  rewrite IH by assumption. apply sysStep_speakers.
  apply negb_true_iff. assumption.
Qed.

Lemma sysRun_callbacks acts :
  forall s, callbacks (service (sysRun JSON_parse acts s)) = callbacks (service s).
Proof.
  unfold sysRun. induction acts as [|[now act] acts IH]; simpl; intros s; [reflexivity|].
  rewrite IH. apply sysStep_callbacks.
Qed.

(** A final result that reaches the component. *)
Lemma sysStep_transcribed now r k s :
  has_onTranscribed (callbacks (service s)) = true ->
  reason r = RecognizedSpeech ->
  isEmpty (text r) = false ->
  extractSpeakerId JSON_parse (resultObject r) = Normal k ->
  app (sysStep JSON_parse now (Env (SdkTranscribed r)) s)
  = app_onTranscribed now (text r) k (app s).
Proof.
  intros Hcb Hr Ht Hk. simpl.
  unfold transcribed. rewrite Hr, Ht, Hk. unfold emit. simpl. rewrite Hcb.
  rewrite (effectsSince_app _ _ [Call (OnTranscribed (text r) k)]) by reflexivity.
  reflexivity.
Qed.

End SystemFacts.

(** The registry only ever holds truthy keys. *)

Lemma deliver_keysTruthy now a e :
  keysTruthy (speakers a) = true -> keysTruthy (speakers (deliver now a e)) = true.
Proof.
  intros H. destruct (notTranscribed e) eqn:E.
  - rewrite deliver_speakers by assumption. assumption.
  - destruct e as [[]| | | | |]; try discriminate. simpl.
    apply resolveSpeaker_keysTruthy. assumption.
Qed.

Lemma deliverAll_keysTruthy now l :
  forall a, keysTruthy (speakers a) = true ->
            keysTruthy (speakers (deliverAll now l a)) = true.
Proof.
  unfold deliverAll. induction l as [|e l IH]; simpl; intros a H; [assumption|].
  apply IH. apply deliver_keysTruthy. assumption.
Qed.

Lemma sysStep_keysTruthy parse now act s :
  keysTruthy (speakers (app s)) = true ->
  keysTruthy (speakers (app (sysStep parse now act s))) = true.
Proof.
  intros H. destruct act; simpl; auto using deliverAll_keysTruthy.
Qed.

Lemma sysRun_keysTruthy parse acts :
  forall s, keysTruthy (speakers (app s)) = true ->
            keysTruthy (speakers (app (sysRun parse acts s))) = true.
Proof.
  unfold sysRun. induction acts as [|[now act] acts IH]; simpl; intros s H; [assumption|].
  apply IH. apply sysStep_keysTruthy. assumption.
Qed.

(** C4. A [restartSession] call, and whatever follows it short of a final
    result or the clearing of the records (the stop of the old connection,
    the token, the opening of the new one, timers, cancellations, [stop]),
    leaves the registry as it was. A final result that then carries an id
    the registry has not seen gets the count of known ids plus one, the
    count being the one from before the restart, and every pairing from
    before the restart is still there. *)
Theorem restart_keeps_speaker_registry :
  forall (JSON_parse : JsVal -> Completion JsVal) (s : System)
         (why : option string) (now0 : Z) (acts : list (Z * Action)),
    forallb (fun na => negb (touchesRegistry (snd na))) acts = true ->
    has_onTranscribed (callbacks (service s)) = true ->
    let s' := sysRun JSON_parse ((now0, Env (CallRestartSession why)) :: acts) s in
    speakers (app s') = speakers (app s)
    /\ forall (now : Z) (r : RecognitionResult) (k : JsVal),
         reason r = RecognizedSpeech ->
         isEmpty (text r) = false ->
         extractSpeakerId JSON_parse (resultObject r) = Normal k ->
         truthy k = true ->
         JsMap.has (speakers (app s)) k = false ->
         let s'' := sysStep JSON_parse now (Env (SdkTranscribed r)) s' in
         JsMap.get (speakers (app s'')) k = Some (JsMap.size (speakers (app s)) + 1)
         /\ forall k0 n0, JsMap.get (speakers (app s)) k0 = Some n0 ->
                          JsMap.get (speakers (app s'')) k0 = Some n0.
Proof.
  intros parse s why now0 acts Hacts Hcb s'.
  assert (Hsp : speakers (app s') = speakers (app s)).
  { subst s'. apply sysRun_speakers. simpl. exact Hacts. }
  split; [exact Hsp|].
  intros now r k Hr Ht Hk Tk Hnew s''. subst s''.
  rewrite (sysStep_transcribed parse now r k s'); try assumption.
  - rewrite app_onTranscribed_speakers, Hsp.
    rewrite resolveSpeaker_new by assumption. split.
    + apply get_app_new. assumption.
    + intros k0 n0 H0. apply get_app_present. assumption.
  - subst s'. rewrite sysRun_callbacks. assumption.
Qed.

(** ** [stop] *)

Lemma findTimer_clearTimer id ts :
  findTimer id (filter (fun t => negb (Nat.eqb (timerId t) id)) ts) = None.
Proof.
  unfold findTimer. induction ts as [|t ts IH]; simpl; [reflexivity|].
  destruct (Nat.eqb (timerId t) id) eqn:E; simpl; [assumption|].
  rewrite E. assumption.
Qed.

Lemma findTimer_filter_none id (f : Timer -> bool) ts :
  findTimer id ts = None -> findTimer id (filter f ts) = None.
Proof.
  unfold findTimer. induction ts as [|t ts IH]; simpl; [reflexivity|].
  destruct (Nat.eqb (timerId t) id) eqn:E; [discriminate|].
  intros H. destruct (f t); simpl; [rewrite E|]; auto.
Qed.

(** An operation written as the updates it makes. *)

Lemma closeAll_shape w : closeAll w = set_trace (trace w ++ closesOf w) w.
Proof.
  unfold closeAll, closesOf. cbv zeta.
  destruct w as [cb [c|] [a|] [s|] ? ? ? ? ? ? ? ? ? ? ?]; cbn;
    unfold log, set_trace; cbn; rewrite <- ?app_assoc, ?app_nil_r; reflexivity.
Qed.

Lemma stopTokenRefresh_shape w :
  stopTokenRefresh w
  = set_tokenRefreshInterval None (set_timers (timers (stopTokenRefresh w)) w).
Proof.
  unfold stopTokenRefresh.
  destruct w as [? ? ? ? ? [i|] ? ? ? ? ? ? ? ? ?]; reflexivity.
Qed.

Lemma stopSessionRestartTimer_shape w :
  stopSessionRestartTimer w
  = set_sessionRestartTimer None (set_timers (timers (stopSessionRestartTimer w)) w).
Proof.
  unfold stopSessionRestartTimer.
  destruct w as [? ? ? ? ? ? [i|] ? ? ? ? ? ? ? ?]; reflexivity.
Qed.

Lemma stopTokenRefresh_clears w id :
  tokenRefreshInterval w = Some id \/ findTimer id (timers w) = None ->
  findTimer id (timers (stopTokenRefresh w)) = None.
Proof.
  unfold stopTokenRefresh, clearTimer.
  destruct (tokenRefreshInterval w) as [i|]; cbn; intros [H|H].
  - inversion H; subst. apply findTimer_clearTimer.
  - apply findTimer_filter_none. assumption.
  - discriminate.
  - assumption.
Qed.

Lemma stopSessionRestartTimer_clears w id :
  sessionRestartTimer w = Some id \/ findTimer id (timers w) = None ->
  findTimer id (timers (stopSessionRestartTimer w)) = None.
Proof.
  unfold stopSessionRestartTimer, clearTimer.
  destruct (sessionRestartTimer w) as [i|]; cbn; intros [H|H].
  - inversion H; subst. apply findTimer_clearTimer.
  - apply findTimer_filter_none. assumption.
  - discriminate.
  - assumption.
Qed.

Lemma stop_request_frame w :
  tokenRefreshInterval (stop_request w) = tokenRefreshInterval w
  /\ sessionRestartTimer (stop_request w) = sessionRestartTimer w
  /\ timers (stop_request w) = timers w
  /\ autoReconnectEnabled (stop_request w) = autoReconnectEnabled w
  /\ conversationTranscriber (stop_request w) = conversationTranscriber w
  /\ audioConfig (stop_request w) = audioConfig w
  /\ speechConfig (stop_request w) = speechConfig w
  /\ exists l, trace (stop_request w) = trace w ++ l.
Proof.
  unfold stop_request.
  destruct (conversationTranscriber w) as [c|] eqn:Ec; [destruct (isRunning w)|];
    cbn; rewrite ?Ec; repeat split;
    first [ eexists; reflexivity | exists []; rewrite app_nil_r; reflexivity ].
Qed.

Lemma stop_timers_frame w :
  let w1 := stopSessionRestartTimer (stopTokenRefresh w) in
  tokenRefreshInterval w1 = None
  /\ sessionRestartTimer w1 = None
  /\ (forall id, tokenRefreshInterval w = Some id -> findTimer id (timers w1) = None)
  /\ (forall id, sessionRestartTimer w = Some id -> findTimer id (timers w1) = None)
  /\ conversationTranscriber w1 = conversationTranscriber w
  /\ audioConfig w1 = audioConfig w
  /\ speechConfig w1 = speechConfig w
  /\ trace w1 = trace w.
Proof.
  cbv zeta. repeat split;
    try (rewrite stopSessionRestartTimer_shape; cbn;
         try rewrite stopTokenRefresh_shape; reflexivity).
  - intros id H. apply stopSessionRestartTimer_clears. right.
    apply stopTokenRefresh_clears. left. assumption.
  - intros id H. apply stopSessionRestartTimer_clears. left.
    rewrite stopTokenRefresh_shape. assumption.
Qed.

Lemma stop_unfold w :
  stop w
  = let w3 := stop_request
                (set_autoReconnectEnabled false
                   (stopSessionRestartTimer (stopTokenRefresh w))) in
    set_sessionStartTime None
      (set_conversationTranscriber None
         (set_audioConfig None (set_speechConfig None (closeAll w3)))).
Proof. reflexivity. Qed.

(** [stop()] on the service: timers, flag and connection. *)
Lemma stop_releases w :
  tokenRefreshInterval (stop w) = None
  /\ sessionRestartTimer (stop w) = None
  /\ (forall id, tokenRefreshInterval w = Some id ->
                 findTimer id (timers (stop w)) = None)
  /\ (forall id, sessionRestartTimer w = Some id ->
                 findTimer id (timers (stop w)) = None)
  /\ autoReconnectEnabled (stop w) = false
  /\ conversationTranscriber (stop w) = None
  /\ audioConfig (stop w) = None
  /\ speechConfig (stop w) = None
  /\ (forall c, conversationTranscriber w = Some c ->
                In (SdkClose (TranscriberRes c)) (effectsSince w (stop w)))
  /\ (forall a, audioConfig w = Some a ->
                In (SdkClose (AudioConfigRes a)) (effectsSince w (stop w)))
  /\ (forall s, speechConfig w = Some s ->
                In (SdkClose (SpeechConfigRes (configId s))) (effectsSince w (stop w))).
Proof.
  rewrite stop_unfold. cbv zeta.
  destruct (stop_timers_frame w) as (A1 & A2 & A3 & A4 & A5 & A6 & A7 & A8).
  cbv zeta in *.
  remember (stopSessionRestartTimer (stopTokenRefresh w)) as w1 eqn:Ew1. clear Ew1.
  destruct (stop_request_frame (set_autoReconnectEnabled false w1))
    as (B1 & B2 & B3 & B4 & B5 & B6 & B7 & l & B8).
  remember (stop_request (set_autoReconnectEnabled false w1)) as w3 eqn:Ew3. clear Ew3.
  cbn in B1, B2, B3, B4, B5, B6, B7, B8.
  rewrite closeAll_shape.
  assert (Hc : closesOf w3 = closesOf w).
  { unfold closesOf. rewrite B5, B6, B7, A5, A6, A7. reflexivity. }
  assert (Hs : forall x, In x (closesOf w) ->
               In x (effectsSince w
                       (set_sessionStartTime None
                          (set_conversationTranscriber None
                             (set_audioConfig None
                                (set_speechConfig None
                                   (set_trace (trace w3 ++ closesOf w3) w3))))))).
  { intros x Hx. rewrite (effectsSince_app2 w _ l (closesOf w)).
    - apply in_or_app. right. assumption.
    - cbn. rewrite B8, A8, Hc. reflexivity. }
  cbn. rewrite B1, B2, B3, B4, A1, A2.
  repeat split; try assumption.
  - intros c H. apply Hs. unfold closesOf. rewrite H. simpl. auto.
  - intros a H. apply Hs. unfold closesOf. rewrite H.
    apply in_or_app. right. simpl. auto.
  - intros s H. apply Hs. unfold closesOf. rewrite H.
    apply in_or_app. right. apply in_or_app. right. simpl. auto.
Qed.

(** C5, as the code has it. [handleStop], that is [stop()] followed by the
    two flags of the component, leaves the speaker registry as it is, and so
    does a bare [stop()]. On the service it cancels the refresh interval and
    the restart timeout, disables auto-reconnect, and closes and forgets the
    transcriber and the two configuration objects: each of the three that
    the service held is closed, and all three fields are [null] afterwards.
    The records are cleared by [handleClear]. *)
Theorem stop_keeps_speaker_registry :
  forall (JSON_parse : JsVal -> Completion JsVal) (now : Z) (s : System),
    let s' := sysStep JSON_parse now ClickStop s in
    speakers (app s') = speakers (app s)
    /\ speakers (app (sysStep JSON_parse now (Env CallStop) s)) = speakers (app s)
    /\ service s' = stop (service s)
    /\ tokenRefreshInterval (service s') = None
    /\ sessionRestartTimer (service s') = None
    /\ (forall id, tokenRefreshInterval (service s) = Some id ->
                   findTimer id (timers (service s')) = None)
    /\ (forall id, sessionRestartTimer (service s) = Some id ->
                   findTimer id (timers (service s')) = None)
    /\ autoReconnectEnabled (service s') = false
    /\ conversationTranscriber (service s') = None
    /\ audioConfig (service s') = None
    /\ speechConfig (service s') = None
    /\ (forall c, conversationTranscriber (service s) = Some c ->
                  In (SdkClose (TranscriberRes c))
                     (effectsSince (service s) (service s')))
    /\ speakers (app (sysStep JSON_parse now ClickClear s')) = JsMap.empty
    /\ (forall a, audioConfig (service s) = Some a ->
                  In (SdkClose (AudioConfigRes a))
                     (effectsSince (service s) (service s')))
    /\ (forall c, speechConfig (service s) = Some c ->
                  In (SdkClose (SpeechConfigRes (configId c)))
                     (effectsSince (service s) (service s'))).
Proof.
  intros parse now s s'.
  destruct (stop_releases (service s))
    as (A1 & A2 & A3 & A4 & A5 & A6 & A7 & A8 & A9 & A10 & A11).
  split; [apply (sysStep_speakers parse now ClickStop s); reflexivity|].
  split; [apply (sysStep_speakers parse now (Env CallStop) s); reflexivity|].
  subst s'. simpl. repeat split; assumption.
Qed.

(** C8. In every state the component can reach, a final result in which
    [extractSpeakerId] finds no speaker (it returns [null]) leaves the
    registry as it is, so that no number is taken and every later id is
    numbered as if the result had not come, and its transcription is
    labelled [Unknown]. An interim result never reaches the registry. *)
Theorem unknown_speaker_takes_no_number :
  forall (JSON_parse : JsVal -> Completion JsVal) (acts : list (Z * Action))
         (now : Z) (r : RecognitionResult),
    reason r = RecognizedSpeech ->
    isEmpty (text r) = false ->
    extractSpeakerId JSON_parse (resultObject r) = Normal JNull ->
    let s := sysRun JSON_parse acts initialSystem in
    let s' := sysStep JSON_parse now (Env (SdkTranscribed r)) s in
    speakers (app s') = speakers (app s)
    /\ speakerNames (app s') = speakerNames (app s) ++ [unknownLabel]
    /\ (forall k, resolveSpeaker (speakers (app s')) k
                  = resolveSpeaker (speakers (app s)) k)
    /\ (forall interim,
          speakers (app (sysStep JSON_parse now (Env (SdkTranscribing interim)) s))
          = speakers (app s)).
Proof.
  intros parse acts now r Hr Ht Hk s s'.
  assert (Hcb : has_onTranscribed (callbacks (service s)) = true).
  { subst s. rewrite sysRun_callbacks. reflexivity. }
  assert (Hkeys : keysTruthy (speakers (app s)) = true).
  { subst s. apply sysRun_keysTruthy. reflexivity. }
  assert (Hs : speakers (app s') = speakers (app s)).
  { subst s'. rewrite (sysStep_transcribed parse now r JNull s) by assumption.
    rewrite app_onTranscribed_speakers. apply resolveSpeaker_falsy. reflexivity. }
  split; [exact Hs|]. split.
  - subst s'. rewrite (sysStep_transcribed parse now r JNull s) by assumption.
    rewrite app_onTranscribed_names, resolveSpeaker_falsy by reflexivity.
    rewrite keysTruthy_get_nullish by (assumption || reflexivity). reflexivity.
  - split; [intros k; rewrite Hs; reflexivity|].
    intros interim. apply sysStep_speakers. reflexivity.
Qed.

(* ================================================================== *)
(** * A restart in flight                                              *)
(* ================================================================== *)

Lemma Settled_refl w : Settled w w.
Proof. unfold Settled. auto. Qed.

Lemma Settled_trans w1 w2 w3 : Settled w1 w2 -> Settled w2 w3 -> Settled w1 w3.
Proof.
  unfold Settled. intros A B H. destruct (A H) as (A1 & A2 & A3).
  destruct (B A1) as (B1 & B2 & B3). repeat split; [assumption|lia|lia].
Qed.

Lemma quiet_no_start l :
  forallb quiet l = true -> filter isSdkStart l = [].
Proof.
  induction l as [|e l IH]; simpl; [reflexivity|]. intros H.
  apply andb_true_iff in H. destruct H as [He Hl].
  destruct e as [[]| | | | |]; simpl in *; try discriminate; auto.
Qed.

Lemma Tame_connectionsOpened w w' :
  Tame w w' -> connectionsOpened w' = connectionsOpened w.
Proof.
  intros (_ & _ & _ & _ & _ & _ & l & E & F). unfold connectionsOpened.
  rewrite E, filter_app, (quiet_no_start l F), app_nil_r. reflexivity.
Qed.

Lemma Tame_Settled w w' : Tame w w' -> Settled w w'.
Proof.
  intros T H. pose proof (Tame_connectionsOpened w w' T) as Ho.
  destruct T as (_ & R & _ & Tk & St & Op & _).
  unfold openBudget, openingBudget, startsAwaitingToken, restartsAwaitingStop.
  rewrite Ho, Tk, St, Op, R. auto.
Qed.

Ltac settled_prim :=
  unfold Settled, openBudget, openingBudget, connectionsOpened,
    startsAwaitingToken, restartsAwaitingStop;
  cbn; intros; rewrite ?filter_app, ?length_app; cbn;
  repeat split; first [assumption | reflexivity | lia].

Ltac settled :=
  cbv zeta;
  repeat match goal with
  | |- Settled ?w ?w => apply Settled_refl
  | |- Settled _ (if ?b then _ else _) => destruct b eqn:?
  | |- Settled _ (match ?x with _ => _ end) => destruct x eqn:?
  | |- Settled ?w (?f ?w') =>
      apply (Settled_trans w w' (f w'));
      [ | first [ solve [auto with settled] | solve [settled_prim] ] ]
  end.

#[local] Hint Resolve Tame_Settled : settled.

Lemma Settled_refreshToken w : Settled w (refreshToken w).
Proof. unfold refreshToken, requestToken. settled. Qed.
#[local] Hint Resolve Settled_refreshToken : settled.

Lemma Settled_restartSession reason w : Settled w (restartSession reason w).
Proof. intros H. rewrite restartSession_idle by assumption. apply Settled_refl, H. Qed.
#[local] Hint Resolve Settled_restartSession : settled.

Lemma Settled_sessionRestartTimerFired w : Settled w (sessionRestartTimerFired w).
Proof.
  intros H. rewrite sessionRestartTimerFired_idle by assumption. apply Settled_refl, H.
Qed.
#[local] Hint Resolve Settled_sessionRestartTimerFired : settled.

Lemma Settled_stop w : Settled w (stop w).
Proof. unfold stop. settled. Qed.
#[local] Hint Resolve Settled_stop : settled.

Lemma Settled_enableAutoReconnect w : Settled w (enableAutoReconnect w).
Proof. unfold enableAutoReconnect. settled. Qed.
#[local] Hint Resolve Settled_enableAutoReconnect : settled.

Lemma Settled_disableAutoReconnect w : Settled w (disableAutoReconnect w).
Proof. unfold disableAutoReconnect. settled. Qed.
#[local] Hint Resolve Settled_disableAutoReconnect : settled.

Lemma Settled_canceled d w : Settled w (canceled d w).
Proof. unfold canceled. settled. Qed.
#[local] Hint Resolve Settled_canceled : settled.

Lemma Settled_sessionStopped now w : Settled w (sessionStopped now w).
Proof. unfold sessionStopped. settled. Qed.
#[local] Hint Resolve Settled_sessionStopped : settled.

Lemma Settled_stop_acknowledged w : Settled w (stop_acknowledged w).
Proof. unfold stop_acknowledged. settled. Qed.
#[local] Hint Resolve Settled_stop_acknowledged : settled.

Lemma Settled_startFailed error w : Settled w (startFailed error w).
Proof. unfold startFailed. settled. Qed.
#[local] Hint Resolve Settled_startFailed : settled.

Lemma Settled_start_failed caller detail w : Settled w (start_failed caller detail w).
Proof. unfold start_failed. settled. Qed.
#[local] Hint Resolve Settled_start_failed : settled.

Lemma Settled_timerFired id w : Settled w (timerFired id w).
Proof. unfold timerFired. settled. Qed.
#[local] Hint Resolve Settled_timerFired : settled.

Lemma Settled_transcribed parse r w : Settled w (transcribed parse r w).
Proof.
  intros H. destruct (transcribed_frame parse r w) as (_ & R & _ & Tk & St & Op & l & E & F).
  unfold openBudget, openingBudget, connectionsOpened, startsAwaitingToken,
    restartsAwaitingStop.
  rewrite R, Tk, St, Op, E, filter_app.
  assert (Hl : filter isSdkStart l = []).
  { clear E. induction l as [|e l IH]; simpl in *; [reflexivity|].
    apply andb_true_iff in F. destruct F as [He Hl].
    destruct e; simpl in *; try discriminate; auto. }
  rewrite Hl, app_nil_r. auto.
Qed.
#[local] Hint Resolve Settled_transcribed : settled.

(** Removing the entries of one request from a pending list. *)

Lemma removePending_count {K} (f : nat * K -> bool) rid l :
  length (filter f (removePending rid l)) <= length (filter f l).
Proof.
  unfold removePending. induction l as [|[r k] l IH]; simpl; [lia|].
  destruct (Nat.eqb r rid); simpl; destruct (f (r, k)); simpl; lia.
Qed.

Lemma removePending_count_found {K} (f : nat * K -> bool) rid l k :
  lookupPending rid l = Some k -> f (rid, k) = true ->
  length (filter f (removePending rid l)) + 1 <= length (filter f l).
Proof.
  unfold removePending. induction l as [|[r k'] l IH]; simpl; [discriminate|].
  destruct (Nat.eqb_spec r rid) as [->|Hne]; simpl.
  - intros H Hf. inversion H; subst. rewrite Hf. simpl.
    pose proof (removePending_count f rid l) as Hc. unfold removePending in Hc. lia.
  - intros H Hf. specialize (IH H Hf). destruct (f (r, k')); simpl; lia.
Qed.

Lemma removeNat_length c l : length (removeNat c l) <= length l.
Proof.
  unfold removeNat. induction l as [|x l IH]; simpl; [lia|].
  destruct (Nat.eqb x c); simpl; lia.
Qed.

Lemma Settled_forget_token rid w :
  Settled w (set_pendingTokens (removePending rid (pendingTokens w)) w).
Proof.
  unfold Settled, openBudget, openingBudget, connectionsOpened,
    startsAwaitingToken, restartsAwaitingStop; cbn. intros H.
  pose proof (removePending_count isStartToken rid (pendingTokens w)).
  repeat split; [assumption|lia|lia].
Qed.

Lemma Settled_forget_stop rid w :
  Settled w (set_pendingStops (removePending rid (pendingStops w)) w).
Proof.
  unfold Settled, openBudget, openingBudget, connectionsOpened,
    startsAwaitingToken, restartsAwaitingStop; cbn. intros H.
  pose proof (removePending_count isRestartStop rid (pendingStops w)).
  repeat split; [assumption|lia|lia].
Qed.

Lemma Settled_forget_open c w :
  Settled w (set_pendingOpens (removeNat c (pendingOpens w)) w).
Proof.
  unfold Settled, openBudget, openingBudget, connectionsOpened,
    startsAwaitingToken, restartsAwaitingStop; cbn. intros H.
  pose proof (removeNat_length c (pendingOpens w)).
  repeat split; [assumption|lia|lia].
Qed.

(** The two operations that add to the budgets. *)

Lemma requestToken_start_budget caller w :
  isRunning (requestToken (TokForStart caller) w) = isRunning w
  /\ openBudget (requestToken (TokForStart caller) w) = openBudget w + 1
  /\ openingBudget (requestToken (TokForStart caller) w) = openingBudget w + 1.
Proof.
  unfold openBudget, openingBudget, connectionsOpened, startsAwaitingToken,
    restartsAwaitingStop, requestToken; cbn.
  rewrite !filter_app, !length_app. cbn. repeat split; lia.
Qed.

Lemma start_fetched_budget caller token region w :
  isRunning (start_fetched caller token region w) = isRunning w
  /\ openBudget (start_fetched caller token region w) = openBudget w + 1
  /\ openingBudget (start_fetched caller token region w) = openingBudget w + 1.
Proof.
  unfold start_fetched. cbv zeta.
  match goal with
  | |- context [startReturned caller ?x] =>
      pose proof (Tame_startReturned caller x) as T;
      pose proof (Tame_connectionsOpened _ _ T) as Ho;
      destruct T as (_ & R & _ & Tk & St & Op & _)
  end.
  unfold openBudget, openingBudget, startsAwaitingToken, restartsAwaitingStop.
  rewrite Ho, R, Tk, St, Op. unfold connectionsOpened. cbn.
  rewrite !filter_app, !length_app. cbn. repeat split; lia.
Qed.

Section Budget.

Variable JSON_parse : JsVal -> Completion JsVal.

Lemma step_budget ev w :
  isRunning w = false ->
  isStartSucceeded ev = false ->
  let k := if isCallStart ev then 1 else 0 in
  isRunning (step JSON_parse ev w) = false
  /\ openBudget (step JSON_parse ev w) <= openBudget w + k
  /\ openingBudget (step JSON_parse ev w) <= openingBudget w + k.
Proof.
  intros Hr Hev k.
  assert (from_settled : forall w', Settled w w' ->
            isRunning w' = false
            /\ openBudget w' <= openBudget w + k
            /\ openingBudget w' <= openingBudget w + k).
  { intros w' S. destruct (S Hr) as (A & B & C). repeat split; [assumption|lia|lia]. }
  destruct ev as [ | | | |why|id|rid token region|rid detail|rid|c now|c error|r|r|d|now];
    try discriminate; unfold step; subst k; cbn [isCallStart].
  - (* start() *)
    unfold start. rewrite Hr.
    destruct (requestToken_start_budget ByCaller w) as (A & B & C).
    rewrite A, B, C. auto.
  - apply from_settled. auto with settled.
  - apply from_settled. auto with settled.
  - apply from_settled. auto with settled.
  - apply from_settled. destruct why; auto with settled.
  - apply from_settled. auto with settled.
  - (* a token arrives *)
    unfold tokenFetched.
    destruct (lookupPending rid (pendingTokens w)) as [[caller|]|] eqn:L;
      [| apply from_settled | apply from_settled; apply Settled_refl].
    + cbv zeta.
      destruct (start_fetched_budget caller token region
                  (set_pendingTokens (removePending rid (pendingTokens w)) w))
        as (A & B & C).
      rewrite A, B, C.
      pose proof (removePending_count_found isStartToken rid (pendingTokens w)
                    (TokForStart caller) L eq_refl) as Hc.
      unfold openBudget, openingBudget, connectionsOpened, startsAwaitingToken,
        restartsAwaitingStop in *. cbn.
      repeat split; [assumption|lia|lia].
    + cbv zeta. eapply Settled_trans; [apply Settled_forget_token|].
      apply Tame_Settled, Tame_refreshToken_fetched.
  - (* the token request fails *)
    apply from_settled. unfold tokenFetchFailed.
    destruct (lookupPending rid (pendingTokens w)) as [[caller|]|];
      [| |apply Settled_refl]; cbv zeta;
      (eapply Settled_trans; [apply Settled_forget_token|]); auto with settled.
  - (* the old connection has stopped *)
    unfold stopAcknowledged.
    destruct (lookupPending rid (pendingStops w)) as [[wasRunning|]|] eqn:L;
      [| apply from_settled | apply from_settled; apply Settled_refl].
    + cbv zeta. unfold restartSession_stopped. cbv zeta.
      set (w1 := set_pendingStops (removePending rid (pendingStops w)) w).
      pose proof (Tame_closeAll w1) as T.
      pose proof (Tame_connectionsOpened _ _ T) as Ho.
      destruct T as (_ & R & _ & Tk & St & Op & _).
      pose proof (removePending_count_found isRestartStop rid (pendingStops w)
                    (StopForRestart wasRunning) L eq_refl) as Hc.
      set (w2 := set_audioConfig None (set_conversationTranscriber None (closeAll w1))).
      assert (R2 : isRunning w2 = false) by (subst w2 w1; cbn; rewrite R; exact Hr).
      assert (B2 : openBudget w2 + 1 <= openBudget w
                   /\ openingBudget w2 + 1 <= openingBudget w).
      { unfold openBudget, openingBudget, connectionsOpened, startsAwaitingToken,
          restartsAwaitingStop in *. subst w2. cbn.
        unfold connectionsOpened in Ho. rewrite Ho, Tk, St, Op. subst w1. cbn. lia. }
      destruct wasRunning.
      * unfold start. rewrite R2.
        destruct (requestToken_start_budget ByRestart w2) as (A & B & C).
        rewrite A, B, C. repeat split; [assumption|lia|lia].
      * repeat split; [assumption|lia|lia].
    + cbv zeta. eapply Settled_trans; [apply Settled_forget_stop|]. auto with settled.
  - (* the connection failed to open *)
    apply from_settled. destruct (memNat c (pendingOpens w)); [|apply Settled_refl].
    eapply Settled_trans; [apply Settled_forget_open|]. auto with settled.
  - apply from_settled. auto with settled.
  - apply from_settled. auto with settled.
  - apply from_settled. auto with settled.
  - apply from_settled. auto with settled.
Qed.

End Budget.

Lemma run_budget JSON_parse evs :
  forall w,
    isRunning w = false ->
    noStartCompletion evs = true ->
    isRunning (run JSON_parse evs w) = false
    /\ openBudget (run JSON_parse evs w) <= openBudget w + callsToStart evs
    /\ openingBudget (run JSON_parse evs w) <= openingBudget w + callsToStart evs.
Proof.
  unfold run, callsToStart, noStartCompletion.
  induction evs as [|ev evs IH]; simpl; intros w Hr Hn.
  - repeat split; [assumption|lia|lia].
  - apply andb_true_iff in Hn. destruct Hn as [Hev Hn].
    apply negb_true_iff in Hev.
    destruct (step_budget JSON_parse ev w Hr Hev) as (A & B & C).
    destruct (IH _ A Hn) as (A' & B' & C').
    destruct (isCallStart ev); simpl in *; repeat split; try assumption; lia.
Qed.

(** [restartSession] past its guard: the service is not running, and one
    more connection is in the budgets. *)
Lemma restartSession_enters reason w :
  isRunning w = true -> autoReconnectEnabled w = true ->
  isRunning (restartSession reason w) = false
  /\ openBudget (restartSession reason w) = openBudget w + 1
  /\ openingBudget (restartSession reason w) = openingBudget w + 1.
Proof.
  intros Hr Ha. unfold restartSession. rewrite Hr, Ha. cbn [negb orb]. cbv zeta.
  set (w1 := emit (OnSessionRestarting reason) w).
  assert (T1 : Tame w w1) by (subst w1; auto with tame).
  set (w2 := set_isRunning false w1).
  set (w3 := stopSessionRestartTimer (stopTokenRefresh w2)).
  assert (T3 : Tame w2 w3) by (subst w3; tame).
  assert (R1 : isRunning w1 = true)
    by (destruct T1 as (_ & R & _); rewrite R; exact Hr).
  assert (B3 : isRunning w3 = false
               /\ openBudget w3 = openBudget w
               /\ openingBudget w3 = openingBudget w).
  { pose proof (Tame_connectionsOpened _ _ T1) as Ho1.
    pose proof (Tame_connectionsOpened _ _ T3) as Ho3.
    destruct T1 as (_ & _ & _ & Tk1 & St1 & Op1 & _).
    destruct T3 as (_ & R3 & _ & Tk3 & St3 & Op3 & _).
    unfold openBudget, openingBudget, startsAwaitingToken, restartsAwaitingStop.
    rewrite Ho3, R3, Tk3, St3, Op3. subst w2.
    unfold connectionsOpened in *. cbn. rewrite Ho1, Tk1, St1, Op1. auto. }
  destruct B3 as (R3 & B3 & C3). rewrite R1.
  destruct (conversationTranscriber w3) as [c|].
  - unfold openBudget, openingBudget, connectionsOpened, startsAwaitingToken,
      restartsAwaitingStop in *. cbn. rewrite !filter_app, !length_app. cbn.
    repeat split; [assumption|lia|lia].
  - unfold restartSession_stopped. cbv zeta.
    pose proof (Tame_closeAll w3) as T.
    pose proof (Tame_connectionsOpened _ _ T) as Ho.
    destruct T as (_ & R4 & _ & Tk & St & Op & _).
    set (w5 := set_audioConfig None (set_conversationTranscriber None (closeAll w3))).
    assert (R5 : isRunning w5 = false) by (subst w5; cbn; rewrite R4; exact R3).
    assert (B5 : openBudget w5 = openBudget w3 /\ openingBudget w5 = openingBudget w3).
    { unfold openBudget, openingBudget, connectionsOpened, startsAwaitingToken,
        restartsAwaitingStop in *. subst w5. cbn. rewrite Ho, Tk, St, Op. auto. }
    unfold start. rewrite R5.
    destruct (requestToken_start_budget ByRestart w5) as (A & B & C).
    rewrite A, B, C. repeat split; [assumption|lia|lia].
Qed.



Lemma startSucceeded_runs now w : isRunning (startSucceeded now w) = true.
Proof.
  assert (T : Tame (set_sessionStartTime (Some now) (set_isRunning true w))
                (startSucceeded now w)).
  { unfold startSucceeded. tame. }
  destruct T as (_ & R & _). rewrite R. reflexivity.
Qed.


(** Conjunctions only: an equation between concrete runs is left to
    [vm_compute]. *)
Ltac splits := repeat match goal with |- _ /\ _ => split end.

(* ================================================================== *)
(** * The order of the notifications of a restart                      *)
(* ================================================================== *)

(** When the token of a restart arrives, [start()] issues
    [startTranscribingAsync] and returns, and [restartSession] goes on to
    [onSessionRestarted] at once: the notification leaves while the new
    connection is still being opened, before its [onSessionStarted]. *)
Lemma restart_notifies_before_connection rid token region w :
  lookupPending rid (pendingTokens w) = Some (TokForStart ByRestart) ->
  has_onSessionRestarted (callbacks w) = true ->
  let w' := tokenFetched rid token region w in
  exists c,
    effectsSince w w' = [SdkStartTranscribing c; Call OnSessionRestarted]
    /\ In c (pendingOpens w')
    /\ isRunning w' = isRunning w.
Proof.
  intros L Hcb. unfold tokenFetched. rewrite L. cbv zeta.
  unfold start_fetched, startReturned, emit. cbn. rewrite Hcb.
  eexists. split; [apply effectsSince_app; cbn; rewrite <- app_assoc; reflexivity|].
  split; [|reflexivity]. cbn. apply in_or_app. right. simpl. auto.
Qed.

(** C7, on the code. The proactive timer fires on a running session with
    auto-reconnect enabled, the old connection stops, the token arrives and
    the new connection opens: the service notifies [onSessionRestarting],
    stops and closes the old connection, asks for the new one, and then calls
    [onSessionRestarted] before [onSessionStarted]. Neither
    [onSessionStopped] nor [onError] is called in this run. *)
Theorem proactive_restart_notification_order :
  isRunning activeSession = true
  /\ autoReconnectEnabled activeSession = true
  /\ effectsSince activeSession
       (run parseFixture proactiveRestartRun activeSession)
     = [Call (OnSessionRestarting reasonProactive);
        SdkStopTranscribing 4;
        SdkClose (TranscriberRes 4);
        SdkClose (AudioConfigRes 3);
        SdkClose (SpeechConfigRes 2);
        TokenRequest 8;
        SdkStartTranscribing 11;
        Call OnSessionRestarted;
        Call OnSessionStarted]
  /\ isRunning (run parseFixture proactiveRestartRun activeSession) = true.
Proof. splits; vm_compute; reflexivity. Qed.

(* ================================================================== *)
(** * The statements at work                                           *)
(* ================================================================== *)

(** C5, as the claim reads: after [handleStop] the registry would hold no
    record. It still holds the speaker it held before. *)
Lemma stop_leaves_speaker_records :
  speakers (app systemWithOneSpeaker) = [(JStr "Guest-1", 1)]
  /\ speakers (app (sysStep parseFixture 3000 ClickStop systemWithOneSpeaker))
     = [(JStr "Guest-1", 1)]
  /\ speakers (app (sysStep parseFixture 3000 ClickStop systemWithOneSpeaker))
     <> JsMap.empty.
Proof.
  splits; try (vm_compute; reflexivity). vm_compute. discriminate.
Qed.

(** C1, as the claim reads: a cancellation with timeout-like details,
    auto-reconnect enabled and the service running would be kept from the
    caller. The details below are timeout-like for the handler itself
    ([isTimeoutError]), yet [onError] is called and nothing is armed: they
    also carry "StatusCode: 1006", which the handler tests first. *)
Lemma canceled_websocket_timeout_surfaces :
  isTimeoutError (Some "Unable to contact server. StatusCode: 1006") = true
  /\ autoReconnectEnabled activeSession = true
  /\ isRunning activeSession = true
  /\ has_onError (callbacks activeSession) = true
  /\ effectsSince activeSession
       (canceled (Some "Unable to contact server. StatusCode: 1006") activeSession)
     = [Call (OnError ("识别错误: Unable to contact server. StatusCode: 1006"
                       ++ hintWebSocket))]
  /\ timers (canceled (Some "Unable to contact server. StatusCode: 1006")
               activeSession)
     = timers activeSession.
Proof. splits; vm_compute; reflexivity. Qed.



Lemma speakers_numbered_witness :
  truthy (JStr "Guest-1") = true
  /\ JsMap.has (speakers initialApp) (JStr "Guest-1") = false
  /\ sameValueZero (JStr "Guest-1") (JStr "Guest-2") = false
  /\ speakerNames
       (app_onTranscribed 0 "你好" (JStr "Guest-1")
          (app_onTranscribed 0 "你好" (JStr "Guest-3")
             (app_onTranscribed 0 "你好" (JStr "Guest-2")
                (app_onTranscribed 0 "你好" (JStr "Guest-1") initialApp))))
     = speakerNames initialApp ++ ["说话人-1"; "说话人-2"; "说话人-3"; "说话人-1"].
Proof.
  splits; [reflexivity|reflexivity|reflexivity|].
  apply (speakers_numbered_by_first_appearance initialApp
           (JStr "Guest-1") (JStr "Guest-2") (JStr "Guest-3") 0%Z "你好");
    vm_compute; reflexivity.
Defined.

Lemma restart_keeps_speaker_registry_witness :
  forallb (fun na => negb (touchesRegistry (snd na))) restartActions = true
  /\ has_onTranscribed (callbacks (service systemWithOneSpeaker)) = true
  /\ extractSpeakerId parseFixture (resultObject (resultOfGuest 51 "Guest-2"))
     = Normal (JStr "Guest-2")
  /\ speakers
       (app (sysRun parseFixture
               ((1141000%Z, Env (CallRestartSession None)) :: restartActions)
               systemWithOneSpeaker))
     = speakers (app systemWithOneSpeaker)
  /\ JsMap.get
       (speakers
          (app (sysStep parseFixture 1142000
                  (Env (SdkTranscribed (resultOfGuest 51 "Guest-2")))
                  (sysRun parseFixture
                     ((1141000%Z, Env (CallRestartSession None)) :: restartActions)
                     systemWithOneSpeaker))))
       (JStr "Guest-2")
     = Some 2
  /\ JsMap.get
       (speakers
          (app (sysStep parseFixture 1142000
                  (Env (SdkTranscribed (resultOfGuest 51 "Guest-2")))
                  (sysRun parseFixture
                     ((1141000%Z, Env (CallRestartSession None)) :: restartActions)
                     systemWithOneSpeaker))))
       (JStr "Guest-1")
     = Some 1.
Proof.
  assert (H1 : forallb (fun na => negb (touchesRegistry (snd na))) restartActions
               = true) by (vm_compute; reflexivity).
  assert (H2 : has_onTranscribed (callbacks (service systemWithOneSpeaker)) = true)
    by (vm_compute; reflexivity).
  assert (H3 : extractSpeakerId parseFixture (resultObject (resultOfGuest 51 "Guest-2"))
               = Normal (JStr "Guest-2")) by (vm_compute; reflexivity).
  assert (H4 : JsMap.has (speakers (app systemWithOneSpeaker)) (JStr "Guest-2") = false)
    by (vm_compute; reflexivity).
  assert (H5 : JsMap.get (speakers (app systemWithOneSpeaker)) (JStr "Guest-1") = Some 1)
    by (vm_compute; reflexivity).
  destruct (restart_keeps_speaker_registry parseFixture systemWithOneSpeaker None
              1141000%Z restartActions H1 H2) as [S N].
  destruct (N 1142000%Z (resultOfGuest 51 "Guest-2") (JStr "Guest-2")
              eq_refl eq_refl H3 eq_refl H4) as [New Old].
  splits; [exact H1|exact H2|exact H3|exact S|exact New|].
  apply Old. exact H5.
Defined.

Lemma stop_keeps_speaker_registry_witness :
  tokenRefreshInterval (service systemWithOneSpeaker) = Some 5
  /\ sessionRestartTimer (service systemWithOneSpeaker) = Some 6
  /\ conversationTranscriber (service systemWithOneSpeaker) = Some 4
  /\ audioConfig (service systemWithOneSpeaker) = Some 3
  /\ speechConfig (service systemWithOneSpeaker)
     = Some (mkSpeechConfig 2 "token-1" "chinanorth3")
  /\ speakers (app (sysStep parseFixture 3000 ClickStop systemWithOneSpeaker))
     = speakers (app systemWithOneSpeaker)
  /\ findTimer 5 (timers (service (sysStep parseFixture 3000 ClickStop
                                     systemWithOneSpeaker))) = None
  /\ findTimer 6 (timers (service (sysStep parseFixture 3000 ClickStop
                                     systemWithOneSpeaker))) = None
  /\ In (SdkClose (TranscriberRes 4))
       (effectsSince (service systemWithOneSpeaker)
          (service (sysStep parseFixture 3000 ClickStop systemWithOneSpeaker)))
  /\ In (SdkClose (AudioConfigRes 3))
       (effectsSince (service systemWithOneSpeaker)
          (service (sysStep parseFixture 3000 ClickStop systemWithOneSpeaker)))
  /\ In (SdkClose (SpeechConfigRes 2))
       (effectsSince (service systemWithOneSpeaker)
          (service (sysStep parseFixture 3000 ClickStop systemWithOneSpeaker))).
Proof.
  assert (H5 : tokenRefreshInterval (service systemWithOneSpeaker) = Some 5)
    by (vm_compute; reflexivity).
  assert (H6 : sessionRestartTimer (service systemWithOneSpeaker) = Some 6)
    by (vm_compute; reflexivity).
  assert (H4 : conversationTranscriber (service systemWithOneSpeaker) = Some 4)
    by (vm_compute; reflexivity).
  assert (H3 : audioConfig (service systemWithOneSpeaker) = Some 3)
    by (vm_compute; reflexivity).
  assert (H2 : speechConfig (service systemWithOneSpeaker)
               = Some (mkSpeechConfig 2 "token-1" "chinanorth3"))
    by (vm_compute; reflexivity).
  destruct (stop_keeps_speaker_registry parseFixture 3000%Z systemWithOneSpeaker)
    as (S & _ & _ & _ & _ & T5 & T6 & _ & _ & _ & _ & C & _ & A & G).
  pose proof (G (mkSpeechConfig 2 "token-1" "chinanorth3") H2) as G2.
  cbn [configId] in G2.
  splits; [exact H5|exact H6|exact H4|exact H3|exact H2|exact S
          |exact (T5 5 H5)|exact (T6 6 H6)|exact (C 4 H4)|exact (A 3 H3)|exact G2].
Defined.

Lemma unknown_speaker_witness :
  reason resultOfNobody = RecognizedSpeech
  /\ isEmpty (text resultOfNobody) = false
  /\ extractSpeakerId parseFixture (resultObject resultOfNobody) = Normal JNull
  /\ speakers (app (sysStep parseFixture 3000 (Env (SdkTranscribed resultOfNobody))
                      systemWithOneSpeaker))
     = speakers (app systemWithOneSpeaker)
  /\ speakerNames
       (app (sysStep parseFixture 3000 (Env (SdkTranscribed resultOfNobody))
               systemWithOneSpeaker))
     = speakerNames (app systemWithOneSpeaker) ++ [unknownLabel].
Proof.
  destruct (unknown_speaker_takes_no_number parseFixture
              [(0%Z, ClickStart);
               (10%Z, Env (TokenFetched 1 "token-1" "chinanorth3"));
               (1000%Z, Env (StartSucceeded 4 1000));
               (2000%Z, Env (SdkTranscribed (resultOfGuest 50 "Guest-1")))]
              3000%Z resultOfNobody eq_refl eq_refl
              ltac:(vm_compute; reflexivity))
    as (S & N & _).
  splits; [reflexivity|reflexivity|vm_compute; reflexivity|exact S|exact N].
Defined.

Lemma extractSpeakerId_total_witness :
  isNullish (resultObject (resultOfGuest 50 "Guest-1")) = false
  /\ extractSpeakerId parseFixture (resultObject (resultOfGuest 50 "Guest-1"))
     = Normal (JStr "Guest-1")
  /\ exists v,
       extractSpeakerId parseFixture resultWithPrivateIdOnly = Normal v
       /\ (v = JNull \/ truthy v = true).
Proof.
  split; [reflexivity|]. split; [vm_compute; reflexivity|].
  destruct (extractSpeakerId_total parseFixture resultWithPrivateIdOnly eq_refl)
    as (v & E & T & _).
  exists v. split; assumption.
Defined.

Lemma restartSession_guard_witness :
  isRunning (newService appCallbacks) = false
  /\ restartSession "now" (newService appCallbacks) = newService appCallbacks
  /\ forallb (fun ev => negb (isEnable ev))
       [CallStart; TokenFetched 1 "token-1" "chinanorth3"; StartSucceeded 4 1000]
     = true
  /\ isRunning
       (run parseFixture
          [CallStart; TokenFetched 1 "token-1" "chinanorth3"; StartSucceeded 4 1000]
          (newService appCallbacks)) = true
  /\ restartSession "now"
       (run parseFixture
          [CallStart; TokenFetched 1 "token-1" "chinanorth3"; StartSucceeded 4 1000]
          (newService appCallbacks))
     = run parseFixture
         [CallStart; TokenFetched 1 "token-1" "chinanorth3"; StartSucceeded 4 1000]
         (newService appCallbacks).
Proof.
  destruct (restartSession_guard parseFixture) as [Guard Never].
  destruct (Guard "now" (newService appCallbacks) (or_introl eq_refl)) as (G & _).
  destruct (Never appCallbacks
              [CallStart; TokenFetched 1 "token-1" "chinanorth3";
               StartSucceeded 4 1000] "now" eq_refl) as [_ N].
  splits; [reflexivity|exact G|reflexivity|vm_compute; reflexivity|exact N].
Defined.

(* ================================================================== *)
(** * Timers, handles and requests in flight                           *)
(* ================================================================== *)

Lemma Keeps_refl w : Keeps w w.
Proof. unfold Keeps. auto. Qed.

Lemma Keeps_trans w1 w2 w3 : Keeps w1 w2 -> Keeps w2 w3 -> Keeps w1 w3.
Proof. unfold Keeps. auto. Qed.

Create HintDb keeps.

Lemma Forall_lt_S {A} (f : A -> nat) n l :
  Forall (fun x => f x < n) l -> Forall (fun x => f x < S n) l.
Proof. apply Forall_impl. intros. lia. Qed.

Ltac keeps_prim :=
  unfold Keeps, WellFormed, holds, holdsOn; cbn;
  intros (A & B & (C1 & C2 & C3) & (D1 & D2 & D3) & E & F & G);
  repeat split; rewrite ?Forall_app; repeat split;
  first
    [ assumption
    | solve [eauto]
    | solve [eapply Forall_impl; [|eassumption]; cbn; intros; lia]
    | solve [repeat constructor; cbn; lia]
    | solve [intros;
             match goal with
             | H : _ = Some ?id |- ?id < _ =>
                 first [pose proof (C2 id H) | pose proof (D2 id H)]; lia
             end] ].

Ltac keeps :=
  cbv zeta;
  repeat match goal with
  | |- Keeps ?w ?w => apply Keeps_refl
  | |- Keeps _ _ => solve [auto with keeps]
  | |- Keeps _ (if ?b then _ else _) => destruct b eqn:?
  | |- Keeps _ (match ?x with _ => _ end) => destruct x eqn:?
  | |- Keeps ?w (bump (log ?e (set_pendingStops (pendingStops ?w' ++ ?l) ?w'))) =>
      apply (Keeps_trans w w' (bump (log e (set_pendingStops (pendingStops w' ++ l) w'))));
      [ | solve [keeps_prim] ]
  | |- Keeps ?w (?f ?w') =>
      apply (Keeps_trans w w' (f w'));
      [ | first [ solve [auto with keeps] | solve [keeps_prim] ] ]
  end.

Lemma Keeps_bump w : Keeps w (bump w).
Proof.
  unfold Keeps, WellFormed, holds, holdsOn, holdsOn; cbn.
  intros (A & B & (C1 & C2 & C3) & (D1 & D2 & D3) & E & F & G).
  repeat split; try assumption; try (apply Forall_lt_S; assumption); eauto;
    intros; apply Nat.lt_lt_succ_r; eauto.
Qed.
#[local] Hint Resolve Keeps_bump : keeps.

Lemma Keeps_log e w : Keeps w (log e w).
Proof. unfold Keeps, WellFormed, holds, holdsOn, holdsOn; cbn. auto. Qed.
#[local] Hint Resolve Keeps_log : keeps.

Lemma Keeps_emit cb w : Keeps w (emit cb w).
Proof. unfold emit. destruct (installed _ _); auto using Keeps_refl, Keeps_log. Qed.
#[local] Hint Resolve Keeps_emit : keeps.

Lemma Keeps_closeResource r w : Keeps w (closeResource r w).
Proof. unfold closeResource. destruct r; auto using Keeps_refl with keeps. Qed.
#[local] Hint Resolve Keeps_closeResource : keeps.

Lemma Keeps_closeAll w : Keeps w (closeAll w).
Proof. unfold closeAll. keeps. Qed.
#[local] Hint Resolve Keeps_closeAll : keeps.

Lemma NoDup_map_filter {A B} (f : A -> B) (p : A -> bool) l :
  NoDup (map f l) -> NoDup (map f (filter p l)).
Proof.
  induction l as [|x l IH]; simpl; intros H; [constructor|].
  inversion H as [|? ? Hn Hd]; subst.
  destruct (p x); simpl; auto. constructor; auto.
  intros Hin. apply Hn. apply in_map_iff in Hin. destruct Hin as (y & E & Hy).
  apply in_map_iff. exists y. split; [assumption|]. apply filter_In in Hy. apply Hy.
Qed.

Lemma Keeps_clearTimer id w : Keeps w (clearTimer id w).
Proof.
  unfold Keeps, WellFormed, holds, holdsOn, clearTimer; cbn.
  intros (A & B & (C1 & C2 & C3) & (D1 & D2 & D3) & E & F & G).
  repeat split; try assumption; eauto.
  - apply Forall_forall. intros t Ht. apply filter_In in Ht.
    rewrite Forall_forall in A. apply A, Ht.
  - apply NoDup_map_filter. assumption.
  - intros t Ht. apply filter_In in Ht. apply C1, Ht.
  - intros i t H Ht. apply filter_In in Ht. apply (C3 i t H), Ht.
  - intros t Ht. apply filter_In in Ht. apply D1, Ht.
  - intros i t H Ht. apply filter_In in Ht. apply (D3 i t H), Ht.
Qed.
#[local] Hint Resolve Keeps_clearTimer : keeps.

(** Clearing the handle's timer and forgetting the handle. *)
Lemma cleared_has_none id (mine : Timer -> bool) w :
  (forall t, In t (timers w) -> mine t = true -> Some id = Some (timerId t)) ->
  forall t, In t (timers (clearTimer id w)) -> mine t = true -> False.
Proof.
  intros H t Ht Hm. unfold clearTimer in Ht. cbn in Ht. apply filter_In in Ht.
  destruct Ht as [Hin Hne]. specialize (H t Hin Hm). inversion H; subst.
  rewrite Nat.eqb_refl in Hne. discriminate.
Qed.

Lemma Keeps_stopTokenRefresh w : Keeps w (stopTokenRefresh w).
Proof.
  unfold stopTokenRefresh. destruct (tokenRefreshInterval w) as [id|] eqn:Eh;
    [|apply Keeps_refl].
  intros Hw. pose proof (Keeps_clearTimer id w Hw) as Hw'.
  destruct Hw as (_ & _ & (C1 & _) & _). rewrite Eh in C1.
  pose proof (cleared_has_none id isRefreshTick w C1) as Hnone.
  revert Hw' Hnone. unfold WellFormed, holds, holdsOn; cbn.
  intros (A & B & (C1' & C2' & C3') & (D1 & D2 & D3) & E & F & G) Hnone.
  repeat split; try assumption; try discriminate.
  intros t Ht Hm. exfalso. eapply Hnone; eassumption.
Qed.
#[local] Hint Resolve Keeps_stopTokenRefresh : keeps.

Lemma Keeps_stopSessionRestartTimer w : Keeps w (stopSessionRestartTimer w).
Proof.
  unfold stopSessionRestartTimer. destruct (sessionRestartTimer w) as [id|] eqn:Eh;
    [|apply Keeps_refl].
  intros Hw. pose proof (Keeps_clearTimer id w Hw) as Hw'.
  destruct Hw as (_ & _ & _ & (D1 & _) & _). rewrite Eh in D1.
  pose proof (cleared_has_none id isProactiveRestart w D1) as Hnone.
  revert Hw' Hnone. unfold WellFormed, holds, holdsOn; cbn.
  intros (A & B & (C1 & C2 & C3) & (D1' & D2' & D3') & E & F & G) Hnone.
  repeat split; try assumption; try discriminate.
  intros t Ht Hm. exfalso. eapply Hnone; eassumption.
Qed.
#[local] Hint Resolve Keeps_stopSessionRestartTimer : keeps.

Lemma stopTokenRefresh_handle w : tokenRefreshInterval (stopTokenRefresh w) = None.
Proof. unfold stopTokenRefresh. destruct (tokenRefreshInterval w) eqn:E; [reflexivity|exact E]. Qed.

Lemma stopSessionRestartTimer_handle w :
  sessionRestartTimer (stopSessionRestartTimer w) = None.
Proof.
  unfold stopSessionRestartTimer. destruct (sessionRestartTimer w) eqn:E; [reflexivity|exact E].
Qed.

(** Arming a timer and keeping its handle. *)
Lemma NoDup_map_snoc (l : list Timer) t :
  NoDup (map timerId l) -> Forall (fun x => timerId x < timerId t) l ->
  NoDup (map timerId (l ++ [t])).
Proof.
  intros Hd Hlt. rewrite map_app. simpl.
  apply NoDup_app; [assumption|repeat constructor; simpl; tauto|].
  intros x Hx [Hy|[]]. subst x. apply in_map_iff in Hx. destruct Hx as (y & E & Hy).
  rewrite Forall_forall in Hlt. specialize (Hlt y Hy). lia.
Qed.

Ltac sound_split := split; [|split; [|split; [|split; [|split; [|split]]]]].

Lemma holdsOn_arm_other h mine ts n t0 :
  holdsOn h mine ts n -> mine t0 = false -> timerId t0 = n ->
  holdsOn h mine (ts ++ [t0]) (S n).
Proof.
  intros (C1 & C2 & C3) Hm Hid. repeat split.
  - intros t Ht Hmt. apply in_app_or in Ht. destruct Ht as [Ht|[<-|[]]]; [auto|congruence].
  - intros id H. apply Nat.lt_lt_succ_r. auto.
  - intros id t H Ht E. apply in_app_or in Ht. destruct Ht as [Ht|[<-|[]]]; [eauto|].
    specialize (C2 id H). lia.
Qed.

Lemma holdsOn_arm_mine mine ts n t0 :
  (forall t, In t ts -> mine t = false) ->
  Forall (fun t => timerId t < n) ts ->
  mine t0 = true -> timerId t0 = n ->
  holdsOn (Some n) mine (ts ++ [t0]) (S n).
Proof.
  intros Hnone Hlt Hm Hid. repeat split.
  - intros t Ht Hmt. apply in_app_or in Ht. destruct Ht as [Ht|[<-|[]]]; [|congruence].
    rewrite (Hnone t Ht) in Hmt. discriminate.
  - intros id H. inversion H. lia.
  - intros id t H Ht E. inversion H; subst id. apply in_app_or in Ht.
    destruct Ht as [Ht|[<-|[]]]; [|assumption].
    rewrite Forall_forall in Hlt. specialize (Hlt t Ht). lia.
Qed.

Lemma holdsOn_none mine ts n :
  holdsOn None mine ts n -> forall t, In t ts -> mine t = false.
Proof.
  intros (C1 & _) t Ht. destruct (mine t) eqn:E; [|reflexivity].
  specialize (C1 t Ht E). discriminate.
Qed.

Lemma Keeps_setTimer_delayed d why w : Keeps w (setTimer d (DelayedRestart why) w).
Proof.
  unfold Keeps, WellFormed, holds; cbn.
  intros (A & B & C & D & E & F & G).
  sound_split; try (apply Forall_lt_S; assumption).
  - apply Forall_app. split; [apply Forall_lt_S; assumption|repeat constructor].
  - apply NoDup_map_snoc; assumption.
  - apply holdsOn_arm_other; auto.
  - apply holdsOn_arm_other; auto.
Qed.
#[local] Hint Resolve Keeps_setTimer_delayed : keeps.

Lemma Keeps_startTokenRefresh w : Keeps w (startTokenRefresh w).
Proof.
  unfold startTokenRefresh. cbv zeta. intros Hw.
  pose proof (Keeps_stopTokenRefresh w Hw) as S1.
  pose proof (stopTokenRefresh_handle w) as Hh.
  remember (stopTokenRefresh w) as w1 eqn:Ew1. clear Ew1 Hw.
  revert S1. unfold WellFormed, holds; cbn. rewrite Hh.
  intros (A & B & C & D & E & F & G).
  sound_split; try (apply Forall_lt_S; assumption).
  - apply Forall_app. split; [apply Forall_lt_S; assumption|repeat constructor].
  - apply NoDup_map_snoc; assumption.
  - apply holdsOn_arm_mine; auto. apply (holdsOn_none _ _ _ C).
  - apply holdsOn_arm_other; auto.
Qed.
#[local] Hint Resolve Keeps_startTokenRefresh : keeps.

Lemma Keeps_startSessionRestartTimer w : Keeps w (startSessionRestartTimer w).
Proof.
  unfold startSessionRestartTimer. cbv zeta. intros Hw.
  pose proof (Keeps_stopSessionRestartTimer w Hw) as S1.
  pose proof (stopSessionRestartTimer_handle w) as Hh.
  remember (stopSessionRestartTimer w) as w1 eqn:Ew1. clear Ew1 Hw.
  revert S1. unfold WellFormed, holds; cbn. rewrite Hh.
  intros (A & B & C & D & E & F & G).
  sound_split; try (apply Forall_lt_S; assumption).
  - apply Forall_app. split; [apply Forall_lt_S; assumption|repeat constructor].
  - apply NoDup_map_snoc; assumption.
  - apply holdsOn_arm_other; auto.
  - apply holdsOn_arm_mine; auto. apply (holdsOn_none _ _ _ D).
Qed.
#[local] Hint Resolve Keeps_startSessionRestartTimer : keeps.

(** Suspending a continuation under a fresh request number. *)
Lemma Keeps_requestToken k w : Keeps w (requestToken k w).
Proof. unfold requestToken. keeps_prim. Qed.
#[local] Hint Resolve Keeps_requestToken : keeps.

Lemma Keeps_forget_token rid w :
  Keeps w (set_pendingTokens (removePending rid (pendingTokens w)) w).
Proof.
  unfold Keeps, WellFormed, holds, removePending; cbn.
  intros (A & B & C & D & E & F & G). sound_split; try assumption.
  apply Forall_forall. intros e He. apply filter_In in He.
  rewrite Forall_forall in E. apply E, He.
Qed.
#[local] Hint Resolve Keeps_forget_token : keeps.

Lemma Keeps_forget_stop rid w :
  Keeps w (set_pendingStops (removePending rid (pendingStops w)) w).
Proof.
  unfold Keeps, WellFormed, holds, removePending; cbn.
  intros (A & B & C & D & E & F & G). sound_split; try assumption.
  apply Forall_forall. intros e He. apply filter_In in He.
  rewrite Forall_forall in F. apply F, He.
Qed.
#[local] Hint Resolve Keeps_forget_stop : keeps.

Lemma Keeps_forget_open c w :
  Keeps w (set_pendingOpens (removeNat c (pendingOpens w)) w).
Proof.
  unfold Keeps, WellFormed, holds, removeNat; cbn.
  intros (A & B & C & D & E & F & G). sound_split; try assumption.
  apply Forall_forall. intros e He. apply filter_In in He.
  rewrite Forall_forall in G. apply G, He.
Qed.
#[local] Hint Resolve Keeps_forget_open : keeps.

(** ** Every operation of the service *)

Lemma Keeps_refreshToken w : Keeps w (refreshToken w).
Proof. unfold refreshToken. keeps. Qed.
#[local] Hint Resolve Keeps_refreshToken : keeps.

Lemma Keeps_refreshToken_fetched token w : Keeps w (refreshToken_fetched token w).
Proof. unfold refreshToken_fetched. keeps. Qed.
#[local] Hint Resolve Keeps_refreshToken_fetched : keeps.

Lemma Keeps_refreshToken_failed detail w : Keeps w (refreshToken_failed detail w).
Proof. unfold refreshToken_failed. keeps. Qed.
#[local] Hint Resolve Keeps_refreshToken_failed : keeps.

Lemma Keeps_startReturned caller w : Keeps w (startReturned caller w).
Proof. unfold startReturned. keeps. Qed.
#[local] Hint Resolve Keeps_startReturned : keeps.

Lemma Keeps_startThrew caller message w : Keeps w (startThrew caller message w).
Proof. unfold startThrew. keeps. Qed.
#[local] Hint Resolve Keeps_startThrew : keeps.

Lemma Keeps_start caller w : Keeps w (start caller w).
Proof. unfold start. keeps. Qed.
#[local] Hint Resolve Keeps_start : keeps.

Lemma Keeps_start_fetched caller token region w :
  Keeps w (start_fetched caller token region w).
Proof. unfold start_fetched. keeps. Qed.
#[local] Hint Resolve Keeps_start_fetched : keeps.

Lemma Keeps_start_failed caller detail w : Keeps w (start_failed caller detail w).
Proof. unfold start_failed. keeps. Qed.
#[local] Hint Resolve Keeps_start_failed : keeps.

Lemma Keeps_startSucceeded now w : Keeps w (startSucceeded now w).
Proof. unfold startSucceeded. keeps. Qed.
#[local] Hint Resolve Keeps_startSucceeded : keeps.

Lemma Keeps_startFailed error w : Keeps w (startFailed error w).
Proof. unfold startFailed. keeps. Qed.
#[local] Hint Resolve Keeps_startFailed : keeps.

Lemma Keeps_restartSession_stopped wasRunning w :
  Keeps w (restartSession_stopped wasRunning w).
Proof. unfold restartSession_stopped. keeps. Qed.
#[local] Hint Resolve Keeps_restartSession_stopped : keeps.

Lemma Keeps_restartSession reason w : Keeps w (restartSession reason w).
Proof. unfold restartSession. keeps. Qed.
#[local] Hint Resolve Keeps_restartSession : keeps.

Lemma Keeps_sessionRestartTimerFired w : Keeps w (sessionRestartTimerFired w).
Proof. unfold sessionRestartTimerFired. keeps. Qed.
#[local] Hint Resolve Keeps_sessionRestartTimerFired : keeps.

Lemma Keeps_stop w : Keeps w (stop w).
Proof. unfold stop. keeps. Qed.
#[local] Hint Resolve Keeps_stop : keeps.

Lemma Keeps_enableAutoReconnect w : Keeps w (enableAutoReconnect w).
Proof. unfold enableAutoReconnect. keeps. Qed.
#[local] Hint Resolve Keeps_enableAutoReconnect : keeps.

Lemma Keeps_disableAutoReconnect w : Keeps w (disableAutoReconnect w).
Proof. unfold disableAutoReconnect. keeps. Qed.
#[local] Hint Resolve Keeps_disableAutoReconnect : keeps.

Lemma Keeps_canceled d w : Keeps w (canceled d w).
Proof. unfold canceled. keeps. Qed.
#[local] Hint Resolve Keeps_canceled : keeps.

Lemma Keeps_sessionStopped now w : Keeps w (sessionStopped now w).
Proof. unfold sessionStopped. keeps. Qed.
#[local] Hint Resolve Keeps_sessionStopped : keeps.

Lemma Keeps_stop_acknowledged w : Keeps w (stop_acknowledged w).
Proof. unfold stop_acknowledged. keeps. Qed.
#[local] Hint Resolve Keeps_stop_acknowledged : keeps.

Lemma Keeps_transcribing parse r w : Keeps w (transcribing parse r w).
Proof. unfold transcribing. keeps. Qed.
#[local] Hint Resolve Keeps_transcribing : keeps.

Lemma Keeps_transcribed parse r w : Keeps w (transcribed parse r w).
Proof. unfold transcribed. keeps. Qed.
#[local] Hint Resolve Keeps_transcribed : keeps.

Lemma Keeps_timerFired id w : Keeps w (timerFired id w).
Proof. unfold timerFired. keeps. Qed.
#[local] Hint Resolve Keeps_timerFired : keeps.

Lemma Keeps_tokenFetched rid token region w : Keeps w (tokenFetched rid token region w).
Proof. unfold tokenFetched. keeps. Qed.
#[local] Hint Resolve Keeps_tokenFetched : keeps.

Lemma Keeps_tokenFetchFailed rid detail w : Keeps w (tokenFetchFailed rid detail w).
Proof. unfold tokenFetchFailed. keeps. Qed.
#[local] Hint Resolve Keeps_tokenFetchFailed : keeps.

Lemma Keeps_stopAcknowledged rid w : Keeps w (stopAcknowledged rid w).
Proof. unfold stopAcknowledged. keeps. Qed.
#[local] Hint Resolve Keeps_stopAcknowledged : keeps.

Lemma Keeps_step parse ev w : Keeps w (step parse ev w).
Proof. destruct ev as [ | | | |[why|]| | | | | | | | | | ]; unfold step; keeps. Qed.

Lemma WellFormed_newService cbs : WellFormed (newService cbs).
Proof.
  unfold WellFormed, holds, holdsOn; cbn.
  repeat split; try constructor; intros; try contradiction; discriminate.
Qed.

Lemma WellFormed_run parse evs : forall w, WellFormed w -> WellFormed (run parse evs w).
Proof.
  unfold run. induction evs as [|ev evs IH]; simpl; intros w Hw; [assumption|].
  apply IH. apply (Keeps_step parse ev w Hw).
Qed.

(* ================================================================== *)
(** * Timers and their handles                                          *)
(* ================================================================== *)

Lemma filter_none {A} (p : A -> bool) l :
  (forall x, In x l -> p x = false) -> filter p l = [].
Proof.
  induction l as [|x l IH]; simpl; intros H; [reflexivity|].
  rewrite (H x) by auto. apply IH. auto.
Qed.

Lemma filter_all {A} (p : A -> bool) l :
  (forall x, In x l -> p x = true) -> filter p l = l.
Proof.
  induction l as [|x l IH]; simpl; intros H; [reflexivity|].
  rewrite (H x) by auto. f_equal. apply IH. auto.
Qed.

Lemma filter_same {A} (p q : A -> bool) l :
  (forall x, In x l -> p x = q x) -> filter p l = filter q l.
Proof.
  induction l as [|x l IH]; simpl; intros H; [reflexivity|].
  rewrite (H x) by auto. rewrite IH by auto. reflexivity.
Qed.

Lemma holdsOn_at_most_one h mine ts n :
  holdsOn h mine ts n -> NoDup (map timerId ts) -> length (filter mine ts) <= 1.
Proof.
  intros (C1 & _ & _). induction ts as [|x ts IH]; simpl; intros Hd; [lia|].
  inversion Hd as [|? ? Hn Hd']; subst.
  destruct (mine x) eqn:Ex.
  - rewrite filter_none; [simpl; lia|].
    intros y Hy. destruct (mine y) eqn:Ey; [|reflexivity]. exfalso.
    assert (Hx : h = Some (timerId x)) by (apply C1; simpl; auto).
    assert (Hy' : h = Some (timerId y)) by (apply C1; simpl; auto).
    apply Hn. apply in_map_iff. exists y. split; [congruence|assumption].
  - apply IH; [|assumption]. intros t Ht. apply C1. simpl. auto.
Qed.

(** What the handle's [clearTimeout] removes: the timers of its kind. *)
Lemma holdsOn_clear h mine ts n :
  holdsOn h mine ts n ->
  match h with
  | Some id => filter (fun t => negb (Nat.eqb (timerId t) id)) ts
  | None => ts
  end = filter (fun t => negb (mine t)) ts.
Proof.
  intros (C1 & C2 & C3). destruct h as [id|].
  - apply filter_same. intros t Ht. f_equal.
    destruct (Nat.eqb_spec (timerId t) id) as [E|E].
    + symmetry. apply (C3 id t); auto.
    + destruct (mine t) eqn:Em; [|reflexivity].
      specialize (C1 t Ht Em). congruence.
  - symmetry. apply filter_all. intros t Ht.
    destruct (mine t) eqn:Em; [|reflexivity]. specialize (C1 t Ht Em). discriminate.
Qed.

Lemma stopTokenRefresh_timers w :
  WellFormed w ->
  timers (stopTokenRefresh w) = filter (fun t => negb (isRefreshTick t)) (timers w).
Proof.
  intros (_ & _ & C & _). rewrite <- (holdsOn_clear _ _ _ _ C).
  unfold stopTokenRefresh. destruct (tokenRefreshInterval w); reflexivity.
Qed.

Lemma stopSessionRestartTimer_timers w :
  WellFormed w ->
  timers (stopSessionRestartTimer w)
  = filter (fun t => negb (isProactiveRestart t)) (timers w).
Proof.
  intros (_ & _ & _ & D & _). rewrite <- (holdsOn_clear _ _ _ _ D).
  unfold stopSessionRestartTimer. destruct (sessionRestartTimer w); reflexivity.
Qed.

Lemma stopTokenRefresh_nextId w : nextId (stopTokenRefresh w) = nextId w.
Proof. unfold stopTokenRefresh. destruct (tokenRefreshInterval w); reflexivity. Qed.

Lemma stopSessionRestartTimer_nextId w : nextId (stopSessionRestartTimer w) = nextId w.
Proof. unfold stopSessionRestartTimer. destruct (sessionRestartTimer w); reflexivity. Qed.

Lemma startTokenRefresh_timers w :
  WellFormed w ->
  timers (startTokenRefresh w)
  = filter (fun t => negb (isRefreshTick t)) (timers w)
    ++ [mkTimer (nextId w) TOKEN_REFRESH_INTERVAL TokenRefreshTick].
Proof.
  intros Hw. unfold startTokenRefresh. cbn.
  rewrite stopTokenRefresh_timers, stopTokenRefresh_nextId by assumption. reflexivity.
Qed.

Lemma startSessionRestartTimer_timers w :
  WellFormed w ->
  timers (startSessionRestartTimer w)
  = filter (fun t => negb (isProactiveRestart t)) (timers w)
    ++ [mkTimer (nextId w) SESSION_TIMEOUT_MS ProactiveRestart].
Proof.
  intros Hw. unfold startSessionRestartTimer. cbn.
  rewrite stopSessionRestartTimer_timers, stopSessionRestartTimer_nextId by assumption.
  reflexivity.
Qed.

Lemma filter_filter_kind (p q : Timer -> bool) ts :
  filter p (filter q ts) = filter (fun t => q t && p t) ts.
Proof.
  induction ts as [|t ts IH]; simpl; [reflexivity|].
  destruct (q t); simpl; [destruct (p t)|]; rewrite IH; reflexivity.
Qed.




(** X1. In every state the service can reach, at most one refresh interval
    and at most one proactive-restart timeout are armed; an armed one is the
    one whose handle the service holds ([tokenRefreshInterval],
    [sessionRestartTimer]); and no two timers share a handle. So
    [startTokenRefresh] and [startSessionRestartTimer] never leave an earlier
    timer of theirs behind. *)
Theorem timers_have_one_owner :
  forall (JSON_parse : JsVal -> Completion JsVal) (cbs : Callbacks) (evs : list Event),
    let w := run JSON_parse evs (newService cbs) in
    length (filter isRefreshTick (timers w)) <= 1
    /\ length (filter isProactiveRestart (timers w)) <= 1
    /\ (forall t, In t (timers w) -> isRefreshTick t = true ->
                  tokenRefreshInterval w = Some (timerId t))
    /\ (forall t, In t (timers w) -> isProactiveRestart t = true ->
                  sessionRestartTimer w = Some (timerId t))
    /\ NoDup (map timerId (timers w)).
Proof.
  intros parse cbs evs w.
  assert (Hw : WellFormed w) by (apply WellFormed_run, WellFormed_newService).
  clearbody w.
  destruct Hw as (A & B & C & D & _).
  split; [apply (holdsOn_at_most_one _ _ _ _ C B)|].
  split; [apply (holdsOn_at_most_one _ _ _ _ D B)|].
  split; [apply C|]. split; [apply D|]. exact B.
Qed.


Lemma filter_negb_self {A} (p : A -> bool) l :
  filter p (filter (fun x => negb (p x)) l) = [].
Proof.
  apply filter_none. intros x Hx. apply filter_In in Hx.
  destruct Hx as [_ H]. apply negb_true_iff in H. exact H.
Qed.

(** X3. In every state the service can reach, [disableAutoReconnect]
    removes the proactive-restart timeout and no other timer;
    [enableAutoReconnect] on a running service arms one proactive-restart
    timeout of [SESSION_TIMEOUT_MS], counted from the call, in place of the
    one there was; on a service that is not running it arms nothing. *)
Theorem autoReconnect_switch_owns_restart_timer :
  forall (JSON_parse : JsVal -> Completion JsVal) (cbs : Callbacks) (evs : list Event),
    let w := run JSON_parse evs (newService cbs) in
    timers (disableAutoReconnect w) = otherTimers w
    /\ (isRunning w = true ->
        timers (enableAutoReconnect w)
        = otherTimers w ++ [mkTimer (nextId w) SESSION_TIMEOUT_MS ProactiveRestart])
    /\ (isRunning w = false -> timers (enableAutoReconnect w) = timers w).
Proof.
  intros parse cbs evs w.
  assert (Hw : WellFormed w) by (apply WellFormed_run, WellFormed_newService).
  clearbody w. unfold otherTimers. split; [|split].
  - unfold disableAutoReconnect.
    apply (stopSessionRestartTimer_timers (set_autoReconnectEnabled false w)). exact Hw.
  - intros Hr. unfold enableAutoReconnect. cbv zeta.
    change (isRunning (set_autoReconnectEnabled true w)) with (isRunning w). rewrite Hr.
    apply (startSessionRestartTimer_timers (set_autoReconnectEnabled true w)). exact Hw.
  - intros Hr. unfold enableAutoReconnect. cbv zeta.
    change (isRunning (set_autoReconnectEnabled true w)) with (isRunning w). rewrite Hr.
    reflexivity.
Qed.

(** ** [stop] twice, [start] after [stop] *)

Lemma stop_fixed w :
  tokenRefreshInterval w = None -> sessionRestartTimer w = None ->
  autoReconnectEnabled w = false -> conversationTranscriber w = None ->
  audioConfig w = None -> speechConfig w = None -> sessionStartTime w = None ->
  stop w = w.
Proof.
  destruct w; cbn. intros; subst. reflexivity.
Qed.

Lemma stop_sessionStartTime w : sessionStartTime (stop w) = None.
Proof. reflexivity. Qed.

Lemma stop_keeps w :
  isRunning (stop w) = isRunning w
  /\ pendingTokens (stop w) = pendingTokens w
  /\ pendingOpens (stop w) = pendingOpens w
  /\ callbacks (stop w) = callbacks w.
Proof.
  rewrite stop_unfold. cbv zeta. rewrite closeAll_shape. cbn.
  set (w1 := stopSessionRestartTimer (stopTokenRefresh w)).
  assert (H1 : isRunning w1 = isRunning w /\ pendingTokens w1 = pendingTokens w
               /\ pendingOpens w1 = pendingOpens w /\ callbacks w1 = callbacks w).
  { assert (T : Tame w w1) by (subst w1; tame).
    destruct T as (A1 & A2 & _ & A4 & _ & A6 & _). auto. }
  clearbody w1. destruct H1 as (R & P & O & K). rewrite <- R, <- P, <- O, <- K.
  unfold stop_request. cbn.
  destruct (conversationTranscriber w1); [destruct (isRunning w1) eqn:E|];
    cbn; rewrite ?E; auto.
Qed.

(** X4. [stop()] twice is [stop()] once: the second call changes nothing
    in the service and does nothing to the outside. *)
Theorem stop_is_idempotent :
  forall w : World, stop (stop w) = stop w.
Proof.
  intros w. destruct (stop_releases w) as (A1 & A2 & _ & _ & A5 & A6 & A7 & A8 & _).
  apply stop_fixed; try assumption. apply stop_sessionStartTime.
Qed.




(** ** Requests in flight *)

Lemma lookupPending_fresh {K} n (k : K) l :
  Forall (fun e => fst e < n) l -> lookupPending n (l ++ [(n, k)]) = Some k.
Proof.
  induction l as [|[r k'] l IH]; simpl; intros H.
  - rewrite Nat.eqb_refl. reflexivity.
  - inversion H as [|? ? Hr Hl]; subst. simpl in Hr.
    destruct (Nat.eqb_spec r n); [lia|]. auto.
Qed.

Lemma removePending_fresh {K} n (k : K) l :
  Forall (fun e => fst e < n) l -> removePending n (l ++ [(n, k)]) = l.
Proof.
  unfold removePending. induction l as [|[r k'] l IH]; simpl; intros H.
  - rewrite Nat.eqb_refl. reflexivity.
  - inversion H as [|? ? Hr Hl]; subst. simpl in Hr.
    destruct (Nat.eqb_spec r n); [lia|]. simpl. f_equal. auto.
Qed.

Lemma memNat_snoc c l : memNat c (l ++ [c]) = true.
Proof.
  unfold memNat. rewrite existsb_app. simpl. rewrite Nat.eqb_refl.
  rewrite orb_true_r. reflexivity.
Qed.

(** The token of a caller's [start()] arrives. *)
Lemma token_opens_connection parse now rid token region w l :
  pendingTokens w = l ++ [(rid, TokForStart ByCaller)] ->
  Forall (fun e => fst e < rid) l ->
  let w' := tokenFetched rid token region w in
  let c := S (S (nextId w)) in
  effectsSince w w' = [SdkStartTranscribing c]
  /\ conversationTranscriber w' = Some c
  /\ pendingOpens w' = pendingOpens w ++ [c]
  /\ autoReconnectEnabled w' = autoReconnectEnabled w
  /\ isRunning (step parse (StartSucceeded c now) w') = true.
Proof.
  intros P F. cbv zeta. unfold tokenFetched.
  rewrite P, (lookupPending_fresh _ _ _ F). cbv zeta.
  unfold start_fetched, startReturned. cbv zeta.
  match goal with
  | |- _ /\ _ /\ pendingOpens ?x = _ /\ _ =>
      assert (O3 : pendingOpens x = pendingOpens w ++ [S (S (nextId w))])
        by reflexivity;
      assert (E3 : effectsSince w x = [SdkStartTranscribing (S (S (nextId w)))])
        by (apply effectsSince_app; reflexivity);
      assert (A3 : autoReconnectEnabled x = autoReconnectEnabled w) by reflexivity;
      assert (C3 : conversationTranscriber x = Some (S (S (nextId w))))
        by reflexivity;
      remember x as w3 eqn:Ew3; clear Ew3
  end.
  repeat split; try assumption.
  unfold step. rewrite O3, memNat_snoc. apply startSucceeded_runs.
Qed.

(** X6. [stop()] does not reach a [start()] that waits for its token. When
    the token arrives after the [stop()], the service makes its objects and
    issues [startTranscribingAsync] all the same, with auto-reconnect off,
    and the success of that connection makes the service running. *)
Theorem stop_does_not_cancel_start_in_flight :
  forall (JSON_parse : JsVal -> Completion JsVal) (cbs : Callbacks) (evs : list Event)
         (token region : string) (now : Z),
    let w := run JSON_parse evs (newService cbs) in
    isRunning w = false ->
    let w2 := stop (start ByCaller w) in
    let w3 := tokenFetched (nextId w) token region w2 in
    exists c,
      effectsSince w2 w3 = [SdkStartTranscribing c]
      /\ conversationTranscriber w3 = Some c
      /\ pendingOpens w3 = pendingOpens w ++ [c]
      /\ autoReconnectEnabled w3 = false
      /\ isRunning (step JSON_parse (StartSucceeded c now) w3) = true.
Proof.
  intros parse cbs evs token region now w Hr.
  assert (Hw : WellFormed w) by (apply WellFormed_run, WellFormed_newService).
  clearbody w. cbv zeta.
  assert (P1 : pendingTokens (start ByCaller w)
               = pendingTokens w ++ [(nextId w, TokForStart ByCaller)]).
  { unfold start. rewrite Hr. reflexivity. }
  assert (O1 : pendingOpens (start ByCaller w) = pendingOpens w).
  { unfold start. rewrite Hr. reflexivity. }
  destruct (stop_keeps (start ByCaller w)) as (_ & P & O & _).
  destruct (stop_releases (start ByCaller w)) as (_ & _ & _ & _ & A & _).
  rewrite P1 in P. rewrite O1 in O.
  destruct Hw as (_ & _ & _ & _ & F & _).
  destruct (token_opens_connection parse now (nextId w) token region
              (stop (start ByCaller w)) (pendingTokens w) P F)
    as (B1 & B2 & B3 & B4 & B5).
  exists (S (S (nextId (stop (start ByCaller w))))).
  rewrite O in B3. rewrite A in B4. auto.
Qed.

(** X7. A token refresh, from [refreshToken] on a service that holds a
    transcriber and a configuration to the arrival of the new token, replaces
    the token of the configuration and nothing else: same configuration
    object and region (the region of the reply is not used), same
    transcriber and audio input, same timers and running state, no request
    left pending. Its effects are the request and, if installed,
    [onTokenRefreshed]. *)
Theorem refreshToken_replaces_token_only :
  forall (JSON_parse : JsVal -> Completion JsVal) (cbs : Callbacks) (evs : list Event)
         (token region : string) (c : nat) (cfg : SpeechConfig),
    let w := run JSON_parse evs (newService cbs) in
    conversationTranscriber w = Some c ->
    speechConfig w = Some cfg ->
    let w' := tokenFetched (nextId w) token region (refreshToken w) in
    speechConfig w' = Some (mkSpeechConfig (configId cfg) token (configRegion cfg))
    /\ effectsSince w w'
       = TokenRequest (nextId w)
         :: (if has_onTokenRefreshed (callbacks w) then [Call OnTokenRefreshed] else [])
    /\ pendingTokens w' = pendingTokens w
    /\ isRunning w' = isRunning w
    /\ timers w' = timers w
    /\ conversationTranscriber w' = Some c
    /\ audioConfig w' = audioConfig w.
Proof.
  intros parse cbs evs token region c cfg w Hc Hs w'.
  assert (Hw : WellFormed w) by (apply WellFormed_run, WellFormed_newService).
  clearbody w. destruct Hw as (_ & _ & _ & _ & F & _).
  subst w'. unfold refreshToken. rewrite Hc, Hs.
  unfold tokenFetched, requestToken.
  cbn [pendingTokens bump log set_nextId set_trace set_pendingTokens nextId].
  rewrite (lookupPending_fresh _ _ _ F), (removePending_fresh _ _ _ F).
  unfold refreshToken_fetched. cbn. rewrite Hs. unfold emit. cbn.
  destruct (has_onTokenRefreshed (callbacks w)); cbn; rewrite Hc;
    (split; [reflexivity|]); (split; [|repeat split]);
    apply effectsSince_app; cbn; rewrite <- ?app_assoc; reflexivity.
Qed.

Lemma run_callbacks parse evs :
  forall w, callbacks (run parse evs w) = callbacks w.
Proof.
  unfold run. induction evs as [|ev evs IH]; simpl; intros w; [reflexivity|].
  rewrite IH. apply step_callbacks.
Qed.

(** The token of a refresh arrives at a service without configuration. *)
Lemma late_token_finds_no_config rid token region w l :
  pendingTokens w = l ++ [(rid, TokForRefresh)] ->
  Forall (fun e => fst e < rid) l ->
  speechConfig w = None ->
  has_onError (callbacks w) = true ->
  let w' := tokenFetched rid token region w in
  speechConfig w' = None
  /\ effectsSince w w' = [Call (OnError ("刷新 token 失败: " ++ nullAssignMessage))]
  /\ pendingTokens w' = l.
Proof.
  intros P F A Hcb. cbv zeta. unfold tokenFetched.
  rewrite P, (lookupPending_fresh _ _ _ F). cbv zeta.
  rewrite (removePending_fresh _ _ _ F).
  unfold refreshToken_fetched.
  change (speechConfig (set_pendingTokens l w)) with (speechConfig w).
  rewrite A. unfold emit.
  change (callbacks (set_pendingTokens l w)) with (callbacks w).
  cbn [installed]. rewrite Hcb.
  split; [exact A|]. split; [|reflexivity].
  apply effectsSince_app. reflexivity.
Qed.

(** X8. If [stop()] comes between the request of a refresh and its token,
    the assignment [this.speechConfig.authorizationToken = token] finds
    [null]: the [catch] of [refreshToken] hands the failure to [onError]
    (here installed), and the configuration stays [null]. *)
Theorem refreshed_token_after_stop_is_an_error :
  forall (JSON_parse : JsVal -> Completion JsVal) (cbs : Callbacks) (evs : list Event)
         (token region : string) (c : nat) (cfg : SpeechConfig),
    let w := run JSON_parse evs (newService cbs) in
    conversationTranscriber w = Some c ->
    speechConfig w = Some cfg ->
    has_onError cbs = true ->
    let w2 := stop (refreshToken w) in
    let w3 := tokenFetched (nextId w) token region w2 in
    speechConfig w3 = None
    /\ (exists detail,
          effectsSince w2 w3 = [Call (OnError ("刷新 token 失败: " ++ detail))])
    /\ pendingTokens w3 = pendingTokens w.
Proof.
  intros parse cbs evs token region c cfg w Hc Hs Hcb.
  assert (Hw : WellFormed w) by (apply WellFormed_run, WellFormed_newService).
  assert (K : callbacks w = cbs) by (subst w; apply run_callbacks).
  clearbody w. cbv zeta. destruct Hw as (_ & _ & _ & _ & F & _).
  assert (P1 : pendingTokens (refreshToken w)
               = pendingTokens w ++ [(nextId w, TokForRefresh)]).
  { unfold refreshToken. rewrite Hc, Hs. reflexivity. }
  assert (K1 : callbacks (refreshToken w) = callbacks w).
  { unfold refreshToken. rewrite Hc, Hs. reflexivity. }
  destruct (stop_keeps (refreshToken w)) as (_ & P & _ & K2).
  destruct (stop_releases (refreshToken w)) as (_ & _ & _ & _ & _ & _ & _ & A & _).
  rewrite P1 in P. rewrite K1, K in K2.
  assert (Hcb2 : has_onError (callbacks (stop (refreshToken w))) = true)
    by (rewrite K2; exact Hcb).
  destruct (late_token_finds_no_config (nextId w) token region
              (stop (refreshToken w)) (pendingTokens w) P F A Hcb2)
    as (B1 & B2 & B3).
  split; [exact B1|]. split; [|exact B3].
  exists nullAssignMessage. exact B2.
Qed.

Lemma handler_enters parse ev w :
  isEndSignal ev = true ->
  isRunning (step parse ev w) = false
  /\ openBudget (step parse ev w) = openBudget w
  /\ openingBudget (step parse ev w) = openingBudget w.
Proof.
  intros Hev.
  assert (T : Tame (set_isRunning false w) (step parse ev w)).
  { destruct ev; try discriminate; unfold step.
    - unfold canceled. tame.
    - unfold sessionStopped. tame. }
  pose proof (Tame_connectionsOpened _ _ T) as Ho.
  destruct T as (_ & R & _ & Tk & St & Op & _).
  unfold openBudget, openingBudget, startsAwaitingToken, restartsAwaitingStop.
  rewrite Ho, R, Tk, St, Op. repeat split.
Qed.

(** ** The timers of a new connection *)

Lemma filter_snoc {A} (p : A -> bool) l x :
  filter p (l ++ [x]) = filter p l ++ (if p x then [x] else []).
Proof. rewrite filter_app. reflexivity. Qed.

Lemma emit_nextId cb w : nextId (emit cb w) = nextId w.
Proof. unfold emit. destruct (installed _ _); reflexivity. Qed.

Lemma startTokenRefresh_nextId w : nextId (startTokenRefresh w) = S (nextId w).
Proof.
  unfold startTokenRefresh. cbn. rewrite stopTokenRefresh_nextId. reflexivity.
Qed.

Lemma startSucceeded_sessionStartTime now w :
  sessionStartTime (startSucceeded now w) = Some now.
Proof.
  unfold startSucceeded, startSessionRestartTimer, stopSessionRestartTimer,
    startTokenRefresh, stopTokenRefresh, emit. cbv zeta.
  repeat match goal with
  | |- context [if ?b then _ else _] => destruct b
  | |- context [match ?x with _ => _ end] => destruct x
  end; reflexivity.
Qed.

Lemma filter_kind_of_others (p q : Timer -> bool) ts :
  (forall t, p t = true -> q t = false) ->
  filter p (filter (fun t => negb (q t)) ts) = filter p ts.
Proof.
  intros H. rewrite filter_filter_kind. apply filter_same. intros t _.
  destruct (p t) eqn:E; [rewrite (H t E); reflexivity|apply andb_false_r].
Qed.

(** X9. When a connection opens (the success callback of
    [startTranscribingAsync]), in every state the service can reach: the
    service is running, the session start is the clock value, exactly one
    refresh interval of [TOKEN_REFRESH_INTERVAL] is armed, exactly one
    proactive-restart timeout of [SESSION_TIMEOUT_MS] if auto-reconnect is
    enabled and none is added if it is not, and the delayed restarts are
    left as they are. *)
Theorem connection_open_arms_timers :
  forall (JSON_parse : JsVal -> Completion JsVal) (cbs : Callbacks) (evs : list Event)
         (c : nat) (now : Z),
    let w := run JSON_parse evs (newService cbs) in
    memNat c (pendingOpens w) = true ->
    let w' := step JSON_parse (StartSucceeded c now) w in
    isRunning w' = true
    /\ sessionStartTime w' = Some now
    /\ filter isRefreshTick (timers w')
       = [mkTimer (nextId w) TOKEN_REFRESH_INTERVAL TokenRefreshTick]
    /\ filter isProactiveRestart (timers w')
       = (if autoReconnectEnabled w
          then [mkTimer (S (nextId w)) SESSION_TIMEOUT_MS ProactiveRestart]
          else filter isProactiveRestart (timers w))
    /\ filter isDelayedRestart (timers w') = filter isDelayedRestart (timers w).
Proof.
  intros parse cbs evs c now w Hc w'.
  assert (Hw : WellFormed w) by (apply WellFormed_run, WellFormed_newService).
  clearbody w. subst w'. unfold step. rewrite Hc.
  set (w0 := set_pendingOpens (removeNat c (pendingOpens w)) w).
  split; [apply startSucceeded_runs|].
  split; [apply startSucceeded_sessionStartTime|].
  unfold startSucceeded. cbv zeta.
  set (w2 := emit OnSessionStarted (set_sessionStartTime (Some now) (set_isRunning true w0))).
  assert (S2 : WellFormed w2).
  { subst w2. apply Keeps_emit. apply (Keeps_forget_open c w Hw). }
  assert (T2 : timers w2 = timers w) by (subst w2; rewrite emit_timers; reflexivity).
  assert (N2 : nextId w2 = nextId w) by (subst w2; rewrite emit_nextId; reflexivity).
  assert (A2 : autoReconnectEnabled w2 = autoReconnectEnabled w).
  { subst w2. destruct (Tame_emit OnSessionStarted
                          (set_sessionStartTime (Some now) (set_isRunning true w0))
                          eq_refl) as (_ & _ & A & _). rewrite A. reflexivity. }
  clearbody w2.
  assert (A3 : autoReconnectEnabled (startTokenRefresh w2) = autoReconnectEnabled w).
  { destruct (Tame_startTokenRefresh w2) as (_ & _ & A & _). congruence. }
  pose proof (startTokenRefresh_timers w2 S2) as T3.
  pose proof (startTokenRefresh_nextId w2) as N3.
  pose proof (Keeps_startTokenRefresh w2 S2) as S3.
  rewrite A3. rewrite T2, N2 in *.
  remember (startTokenRefresh w2) as w3 eqn:Ew3. clear Ew3.
  destruct (autoReconnectEnabled w).
  - rewrite (startSessionRestartTimer_timers w3 S3), T3, N3.
    rewrite !filter_snoc, !filter_app. cbn [isRefreshTick isProactiveRestart
      isDelayedRestart timerKind app].
    rewrite !filter_negb_self, !app_nil_r.
    rewrite !filter_filter_kind. cbn [app].
    split; [|split].
    + rewrite filter_none; [reflexivity|].
      intros t _. unfold isRefreshTick, isProactiveRestart.
      destruct (timerKind t); reflexivity.
    + reflexivity.
    + apply filter_same. intros t _.
      unfold isRefreshTick, isProactiveRestart, isDelayedRestart.
      destruct (timerKind t); reflexivity.
  - rewrite T3. rewrite !filter_snoc.
    cbn [isRefreshTick isProactiveRestart isDelayedRestart timerKind].
    rewrite filter_negb_self, !app_nil_r. split; [reflexivity|].
    split; apply filter_kind_of_others; intros t;
      unfold isRefreshTick, isProactiveRestart, isDelayedRestart;
      destruct (timerKind t); intros; try discriminate; reflexivity.
Qed.

(* ================================================================== *)
(** * The reconnect armed by the handlers                              *)
(* ================================================================== *)

Lemma findTimer_above n ts :
  Forall (fun t => timerId t < n) ts -> findTimer n ts = None.
Proof.
  unfold findTimer. induction 1 as [|t ts H _ IH]; simpl; [reflexivity|].
  destruct (Nat.eqb_spec (timerId t) n); [lia|exact IH].
Qed.

(** The next handle names no timer yet. *)
Lemma fresh_handle w : WellFormed w -> findTimer (nextId w) (timers w) = None.
Proof. intros (A & _). apply findTimer_above. exact A. Qed.

Lemma findTimer_snoc id ts t :
  findTimer id ts = None -> timerId t = id -> findTimer id (ts ++ [t]) = Some t.
Proof.
  unfold findTimer. intros H E. induction ts as [|t0 ts IH]; simpl in *.
  - rewrite E, Nat.eqb_refl. reflexivity.
  - destruct (Nat.eqb (timerId t0) id); [discriminate|apply IH; exact H].
Qed.

Lemma filter_absent id ts :
  findTimer id ts = None ->
  filter (fun t => negb (Nat.eqb (timerId t) id)) ts = ts.
Proof.
  unfold findTimer. induction ts as [|t0 ts IH]; simpl; [reflexivity|].
  destruct (Nat.eqb (timerId t0) id); [discriminate|].
  intros H. simpl. rewrite (IH H). reflexivity.
Qed.

(** The timeout that a handler arms after clearing [isRunning], when it
    fires before anything else has happened: [restartSession] returns at its
    guard, and the service is as the handler found it, with the flag
    cleared and one handle used. *)
Lemma delayed_restart_dropped parse why w :
  findTimer (nextId w) (timers w) = None ->
  step parse (TimerFired (nextId w))
    (setTimer RECONNECT_DELAY_MS (DelayedRestart why) (set_isRunning false w))
  = bump (set_isRunning false w).
Proof.
  intros F. unfold step, timerFired, setTimer. cbn [timers bump set_nextId set_timers
    set_isRunning nextId].
  rewrite (findTimer_snoc (nextId w) (timers w)
             (mkTimer (nextId w) RECONNECT_DELAY_MS (DelayedRestart why)) F eq_refl).
  cbn [timerKind].
  rewrite restartSession_idle by reflexivity.
  unfold clearTimer. cbn [timers bump set_nextId set_timers set_isRunning nextId].
  rewrite filter_app, (filter_absent _ _ F). cbn [filter timerId].
  rewrite Nat.eqb_refl. cbn [negb]. rewrite app_nil_r.
  unfold bump. destruct w; reflexivity.
Qed.

(** The two branches of the handlers that arm the timeout. *)
Lemma canceled_selfHeals d w :
  selfHeals d w ->
  canceled d w
  = setTimer RECONNECT_DELAY_MS (DelayedRestart reasonTimeoutError) (set_isRunning false w).
Proof.
  intros (T & N & A & R). unfold canceled. rewrite N, T.
  cbn [autoReconnectEnabled set_isRunning]. rewrite A, R. reflexivity.
Qed.

Lemma sessionStopped_timeout now w :
  isRunning w = true -> autoReconnectEnabled w = true ->
  (STOPPED_TIMEOUT_THRESHOLD_MS <= sessionDuration now w)%Z ->
  sessionStopped now w
  = setTimer RECONNECT_DELAY_MS (DelayedRestart reasonStopped) (set_isRunning false w).
Proof.
  intros R A H. unfold sessionStopped.
  cbn [autoReconnectEnabled set_isRunning]. rewrite R, A. cbn [andb].
  replace (sessionDuration now (set_isRunning false w)) with (sessionDuration now w)
    by reflexivity.
  apply Z.leb_le in H. rewrite H. reflexivity.
Qed.

(** From a service that is not running, and until a connection reaches the
    running state, no [restartSession] gets past its guard. *)
Lemma dropped_until_running parse evs w :
  isRunning w = false ->
  noStartCompletion evs = true ->
  isRunning (run parse evs w) = false
  /\ (forall why, restartSession why (run parse evs w) = run parse evs w)
  /\ (forall id t, findTimer id (timers (run parse evs w)) = Some t ->
                   timerKind t <> TokenRefreshTick ->
                   step parse (TimerFired id) (run parse evs w)
                   = clearTimer id (run parse evs w))
  /\ openBudget (run parse evs w) <= openBudget w + callsToStart evs.
Proof.
  intros Hr Hn. destruct (run_budget parse evs w Hr Hn) as (R & B & _).
  split; [exact R|].
  split; [intros; apply restartSession_idle; exact R|].
  split; [intros id t Hf Hk; apply (timerFired_idle id t); assumption|].
  exact B.
Qed.

(** C1, on the code. With [onError] installed, a cancellation is kept from
    the caller, and one [restartSession] is armed [RECONNECT_DELAY_MS] later,
    exactly when its details carry a timeout signature ([isTimeoutError]) and
    not "StatusCode: 1006", auto-reconnect is enabled and the service was
    running; in every other case [onError] is called once and nothing is
    armed. The restart that is armed does not take place. The handler clears
    [isRunning] (line 249) before it arms the timeout, and [restartSession]
    returns at once when [isRunning] is false (line 93). Called on the
    service as the handler found it, [restartSession] would have put one
    more connection into the budget; after the handler the budget is what it
    was. In every state the service can reach, the timeout that fires next
    leaves the service as the handler found it, but for the cleared flag and
    the handle used: no notification, no stop of the old connection, no
    token, no new connection. And until some connection reaches the running
    state, whatever else arrives, no [restartSession] has an effect, a
    restart timeout that fires only goes away, and no connection enters the
    budget beyond the caller's own [start()] calls. So under [selfHeals] the
    error is neither reported nor repaired. *)
Theorem canceled_reconnect_policy :
  forall (JSON_parse : JsVal -> Completion JsVal) (errorDetails : option string)
         (w : World),
    has_onError (callbacks w) = true ->
    let w' := canceled errorDetails w in
    ((effectsSince w w' = []
      /\ timers w' = timers w ++ [reconnectTimer w reasonTimeoutError])
     <-> selfHeals errorDetails w)
    /\ (~ selfHeals errorDetails w ->
        (exists message, effectsSince w w' = [Call (OnError message)])
        /\ timers w' = timers w)
    /\ isRunning w' = false
    /\ openBudget w' = openBudget w
    /\ (selfHeals errorDetails w ->
        openBudget (restartSession reasonTimeoutError w) = openBudget w + 1)
    /\ (selfHeals errorDetails w ->
        forall cbs evs0, w = run JSON_parse evs0 (newService cbs) ->
        step JSON_parse (TimerFired (nextId w)) w' = bump (set_isRunning false w))
    /\ (forall evs, noStartCompletion evs = true ->
        let w'' := run JSON_parse evs w' in
        isRunning w'' = false
        /\ (forall why, restartSession why w'' = w'')
        /\ (forall id t, findTimer id (timers w'') = Some t ->
                         timerKind t <> TokenRefreshTick ->
                         step JSON_parse (TimerFired id) w'' = clearTimer id w'')
        /\ openBudget w'' <= openBudget w + callsToStart evs).
Proof.
  intros parse d w Hcb w'.
  destruct (canceled_arms_or_reports d w Hcb) as (P1 & P2).
  destruct (handler_enters parse (SdkCanceled d) w eq_refl) as (R & B & _).
  change (step parse (SdkCanceled d) w) with w' in R, B.
  split; [exact P1|]. split; [exact P2|]. split; [exact R|]. split; [exact B|].
  split.
  { intros (_ & _ & A & Hr). apply restartSession_enters; assumption. }
  split.
  { intros Y cbs evs0 E. subst w'. rewrite (canceled_selfHeals d w Y).
    apply delayed_restart_dropped, fresh_handle.
    rewrite E. apply WellFormed_run, WellFormed_newService. }
  intros evs Hn. cbv zeta.
  destruct (dropped_until_running parse evs w' R Hn) as (A1 & A2 & A3 & A4).
  rewrite B in A4. auto.
Qed.

(** C6, on the code. With the service running, auto-reconnect enabled and
    [onSessionStopped] installed, a [sessionStopped] signal at time [now] is
    taken for a timeout exactly when the time since the session start has
    reached [STOPPED_TIMEOUT_THRESHOLD_MS] (18 minutes): then
    [onSessionStopped] is not called and one [restartSession] is armed
    [RECONNECT_DELAY_MS] later; below the threshold [onSessionStopped] is
    called and nothing is armed. The time since the start is [now] minus the
    recorded start time. The restart that is armed does not take place. The
    handler clears [isRunning] (line 278) before it arms the timeout, and
    [restartSession] returns at once when [isRunning] is false (line 93).
    Called on the service as the handler found it, [restartSession] would
    have put one more connection into the budget; after the handler the
    budget is what it was. In every state the service can reach, the timeout
    that fires next leaves the service as the handler found it, but for the
    cleared flag and the handle used. And until some connection reaches the
    running state, whatever else arrives, no [restartSession] has an effect,
    a restart timeout that fires only goes away, and no connection enters the
    budget beyond the caller's own [start()] calls. So from the threshold on
    the stop is neither reported nor repaired. *)
Theorem sessionStopped_timeout_heuristic :
  forall (JSON_parse : JsVal -> Completion JsVal) (now : Z) (w : World),
    isRunning w = true ->
    autoReconnectEnabled w = true ->
    has_onSessionStopped (callbacks w) = true ->
    let w' := sessionStopped now w in
    ((STOPPED_TIMEOUT_THRESHOLD_MS <= sessionDuration now w)%Z ->
       effectsSince w w' = []
       /\ timers w' = timers w ++ [reconnectTimer w reasonStopped])
    /\ ((sessionDuration now w < STOPPED_TIMEOUT_THRESHOLD_MS)%Z ->
       effectsSince w w' = [Call OnSessionStopped]
       /\ timers w' = timers w)
    /\ (forall t0, sessionStartTime w = Some t0 -> t0 <> 0%Z ->
        sessionDuration now w = (now - t0)%Z)
    /\ isRunning w' = false
    /\ openBudget w' = openBudget w
    /\ openBudget (restartSession reasonStopped w) = openBudget w + 1
    /\ ((STOPPED_TIMEOUT_THRESHOLD_MS <= sessionDuration now w)%Z ->
        forall cbs evs0, w = run JSON_parse evs0 (newService cbs) ->
        step JSON_parse (TimerFired (nextId w)) w' = bump (set_isRunning false w))
    /\ (forall evs, noStartCompletion evs = true ->
        let w'' := run JSON_parse evs w' in
        isRunning w'' = false
        /\ (forall why, restartSession why w'' = w'')
        /\ (forall id t, findTimer id (timers w'') = Some t ->
                         timerKind t <> TokenRefreshTick ->
                         step JSON_parse (TimerFired id) w'' = clearTimer id w'')
        /\ openBudget w'' <= openBudget w + callsToStart evs).
Proof.
  intros parse now w Hr Ha Hcb w'.
  destruct (sessionStopped_arms_or_reports now w Hr Ha Hcb) as (P1 & P2 & P3).
  destruct (handler_enters parse (SdkSessionStopped now) w eq_refl) as (R & B & _).
  change (step parse (SdkSessionStopped now) w) with w' in R, B.
  split; [exact P1|]. split; [exact P2|]. split; [exact P3|].
  split; [exact R|]. split; [exact B|].
  split; [apply restartSession_enters; assumption|].
  split.
  { intros Y cbs evs0 E. subst w'. rewrite (sessionStopped_timeout now w Hr Ha Y).
    apply delayed_restart_dropped, fresh_handle.
    rewrite E. apply WellFormed_run, WellFormed_newService. }
  intros evs Hn. cbv zeta.
  destruct (dropped_until_running parse evs w' R Hn) as (A1 & A2 & A3 & A4).
  rewrite B in A4. auto.
Qed.

Lemma canceled_reconnect_policy_witness :
  has_onError (callbacks activeSession) = true
  /\ selfHeals (Some "Unable to contact server. StatusCode: 0") activeSession
  /\ noStartCompletion [TimerFired 7] = true
  /\ effectsSince activeSession
       (canceled (Some "Unable to contact server. StatusCode: 0") activeSession)
     = []
  /\ timers (canceled (Some "Unable to contact server. StatusCode: 0") activeSession)
     = timers activeSession ++ [reconnectTimer activeSession reasonTimeoutError]
  /\ step parseFixture (TimerFired (nextId activeSession))
       (canceled (Some "Unable to contact server. StatusCode: 0") activeSession)
     = bump (set_isRunning false activeSession)
  /\ isRunning
       (run parseFixture [TimerFired 7]
          (canceled (Some "Unable to contact server. StatusCode: 0") activeSession))
     = false
  /\ nextId activeSession = 7
  /\ effectsSince activeSession (run parseFixture canceledThenTimer activeSession) = []
  /\ conversationTranscriber (run parseFixture canceledThenTimer activeSession) = Some 4
  /\ pendingStops (run parseFixture canceledThenTimer activeSession) = []
  /\ pendingTokens (run parseFixture canceledThenTimer activeSession) = []
  /\ (exists message,
         effectsSince activeSession (canceled None activeSession)
         = [Call (OnError message)]).
Proof.
  assert (H : has_onError (callbacks activeSession) = true)
    by (vm_compute; reflexivity).
  assert (Y : selfHeals (Some "Unable to contact server. StatusCode: 0") activeSession)
    by (unfold selfHeals; splits; vm_compute; reflexivity).
  assert (N : noStartCompletion [TimerFired 7] = true) by reflexivity.
  assert (Reach : activeSession = run parseFixture startUp (newService appCallbacks))
    by (unfold activeSession; reflexivity).
  destruct (canceled_reconnect_policy parseFixture
              (Some "Unable to contact server. StatusCode: 0") activeSession H)
    as ([_ Hyes] & _ & _ & _ & _ & Drop & Later).
  destruct (Hyes Y) as [E T].
  destruct (Later [TimerFired 7] N) as (R & _).
  destruct (canceled_reconnect_policy parseFixture None activeSession H)
    as (_ & Hno & _).
  destruct Hno as [M _]; [intros (C & _); vm_compute in C; discriminate|].
  splits; [exact H|exact Y|exact N|exact E|exact T
          |exact (Drop Y appCallbacks startUp Reach)|exact R
          |vm_compute; reflexivity|vm_compute; reflexivity|vm_compute; reflexivity
          |vm_compute; reflexivity|vm_compute; reflexivity|exact M].
Defined.

Lemma sessionStopped_timeout_witness :
  isRunning activeSession = true
  /\ autoReconnectEnabled activeSession = true
  /\ has_onSessionStopped (callbacks activeSession) = true
  /\ (STOPPED_TIMEOUT_THRESHOLD_MS <= sessionDuration 1081000 activeSession)%Z
  /\ noStartCompletion [TimerFired 7] = true
  /\ timers (sessionStopped 1081000 activeSession)
     = timers activeSession ++ [reconnectTimer activeSession reasonStopped]
  /\ (sessionDuration 1080999 activeSession < STOPPED_TIMEOUT_THRESHOLD_MS)%Z
  /\ effectsSince activeSession (sessionStopped 1080999 activeSession)
     = [Call OnSessionStopped]
  /\ step parseFixture (TimerFired (nextId activeSession))
       (sessionStopped 1081000 activeSession)
     = bump (set_isRunning false activeSession)
  /\ isRunning
       (run parseFixture [TimerFired 7] (sessionStopped 1081000 activeSession))
     = false
  /\ nextId activeSession = 7
  /\ effectsSince activeSession (run parseFixture stoppedThenTimer activeSession) = []
  /\ conversationTranscriber (run parseFixture stoppedThenTimer activeSession) = Some 4
  /\ pendingStops (run parseFixture stoppedThenTimer activeSession) = []
  /\ pendingTokens (run parseFixture stoppedThenTimer activeSession) = [].
Proof.
  assert (Hr : isRunning activeSession = true) by (vm_compute; reflexivity).
  assert (Ha : autoReconnectEnabled activeSession = true) by (vm_compute; reflexivity).
  assert (Hc : has_onSessionStopped (callbacks activeSession) = true)
    by (vm_compute; reflexivity).
  assert (Hge : (STOPPED_TIMEOUT_THRESHOLD_MS <= sessionDuration 1081000 activeSession)%Z)
    by (vm_compute; discriminate).
  assert (Hlt : (sessionDuration 1080999 activeSession < STOPPED_TIMEOUT_THRESHOLD_MS)%Z)
    by (vm_compute; reflexivity).
  assert (N : noStartCompletion [TimerFired 7] = true) by reflexivity.
  assert (Reach : activeSession = run parseFixture startUp (newService appCallbacks))
    by (unfold activeSession; reflexivity).
  destruct (sessionStopped_timeout_heuristic parseFixture 1081000%Z activeSession
              Hr Ha Hc) as (Yes & _ & _ & _ & _ & _ & Drop & Later).
  destruct (Later [TimerFired 7] N) as (R & _).
  destruct (sessionStopped_timeout_heuristic parseFixture 1080999%Z activeSession
              Hr Ha Hc) as (_ & No & _).
  splits; [exact Hr|exact Ha|exact Hc|exact Hge|exact N|apply Yes; exact Hge
          |exact Hlt|apply No; exact Hlt
          |exact (Drop Hge appCallbacks startUp Reach)|exact R
          |vm_compute; reflexivity|vm_compute; reflexivity|vm_compute; reflexivity
          |vm_compute; reflexivity|vm_compute; reflexivity].
Defined.

(* ================================================================== *)
(** * Token failures                                                   *)
(* ================================================================== *)

(** X10. The [catch] of [getAuthorizationToken] reads
    [error.response?.data?.detail || error.message] without raising on any
    error object: the detail of the server's reply when the error carries
    one that is truthy, and the error's own message in every other case (no
    reply, a reply without data, data without detail, a falsy detail). Only
    an error that is itself [null] or [undefined] makes the read raise. *)
Theorem failureDetail_prefers_server_detail :
  forall (ref : nat) (fields : list (string * JsVal)),
    failureDetail (JObj ref fields)
    = Normal (if truthy (replyDetail fields) then replyDetail fields
              else lookupField "message" fields)
    /\ failureDetail JNull = Throw TypeError
    /\ failureDetail JUndefined = Throw TypeError.
Proof.
  intros ref fields. split; [|split; reflexivity].
  unfold failureDetail, replyDetail, jsOr, optProp. simpl.
  destruct (lookupField "response" fields) as [| | | | |r rf]; simpl; try reflexivity.
  destruct (lookupField "data" rf) as [| | | | |d df]; simpl; try reflexivity.
  destruct (truthy (lookupField "detail" df)); reflexivity.
Qed.

Section TokenFailure.

Variable JSON_parse : JsVal -> Completion JsVal.

(** X11. In the component, that is with the callbacks of [App] installed:
    when the token request of a [start()] fails, the service is not
    running, arms no timer and opens no connection. A [start()] called by
    the component rejects with the message of [getAuthorizationToken], which
    [handleStart] shows as the error; a [start()] called by [restartSession]
    makes the service call [onSessionRestartFailed] and then [onError]. In
    both cases the component stops listening. *)
Theorem start_token_failure_is_reported :
  forall (s : System) (now : Z) (rid : nat) (caller : StartCaller) (detail : string),
    callbacks (service s) = appCallbacks ->
    lookupPending rid (pendingTokens (service s)) = Some (TokForStart caller) ->
    let s' := sysStep JSON_parse now (Env (TokenFetchFailed rid detail)) s in
    effectsSince (service s) (service s')
    = match caller with
      | ByCaller => [StartRejected (tokenErrorMessage detail)]
      | ByRestart =>
          [Call (OnSessionRestartFailed (tokenErrorMessage detail));
           Call (OnError (startFailureNotice ByRestart detail))]
      end
    /\ error (app s') = Some (startFailureNotice caller detail)
    /\ isListening (app s') = false
    /\ isRunning (service s') = false
    /\ timers (service s') = timers (service s)
    /\ pendingOpens (service s') = pendingOpens (service s).
Proof.
  intros s now rid caller detail Hcb L s'.
  assert (E : effectsSince (service s) (service s')
              = match caller with
                | ByCaller => [StartRejected (tokenErrorMessage detail)]
                | ByRestart =>
                    [Call (OnSessionRestartFailed (tokenErrorMessage detail));
                     Call (OnError (startFailureNotice ByRestart detail))]
                end).
  { subst s'. simpl. unfold tokenFetchFailed. rewrite L. cbv zeta.
    unfold start_failed, startThrew, emit. destruct caller.
    - apply effectsSince_app. reflexivity.
    - repeat progress (cbn; rewrite ?Hcb). apply effectsSince_app. cbn.
      rewrite <- ?app_assoc. reflexivity. }
  split; [exact E|].
  assert (A : app s' = deliverAll now (effectsSince (service s) (service s')) (app s))
    by reflexivity.
  rewrite A, E.
  assert (F : isRunning (service s') = false
              /\ timers (service s') = timers (service s)
              /\ pendingOpens (service s') = pendingOpens (service s)).
  { subst s'. simpl. unfold tokenFetchFailed. rewrite L. cbv zeta.
    unfold start_failed, startThrew, emit. destruct caller.
    - repeat split.
    - repeat progress (cbn; rewrite ?Hcb). repeat split. }
  destruct caller; cbn; repeat split; apply F.
Qed.

(** X12. In the component, that is with the callbacks of [App] installed:
    when the token request of a refresh fails, the service calls [onError]
    and goes on as before: same running state, timers,
    configuration and transcriber. The component, through its [onError],
    shows the error and stops listening. *)
Theorem refresh_failure_keeps_session :
  forall (s : System) (now : Z) (rid : nat) (detail : string),
    callbacks (service s) = appCallbacks ->
    lookupPending rid (pendingTokens (service s)) = Some TokForRefresh ->
    let s' := sysStep JSON_parse now (Env (TokenFetchFailed rid detail)) s in
    effectsSince (service s) (service s')
    = [Call (OnError ("刷新 token 失败: " ++ tokenErrorMessage detail)%string)]
    /\ isRunning (service s') = isRunning (service s)
    /\ timers (service s') = timers (service s)
    /\ speechConfig (service s') = speechConfig (service s)
    /\ conversationTranscriber (service s') = conversationTranscriber (service s)
    /\ isListening (app s') = false
    /\ error (app s') = Some ("刷新 token 失败: " ++ tokenErrorMessage detail)%string.
Proof.
  intros s now rid detail Hcb L s'.
  assert (E : effectsSince (service s) (service s')
              = [Call (OnError ("刷新 token 失败: " ++ tokenErrorMessage detail)%string)]).
  { subst s'. simpl. unfold tokenFetchFailed. rewrite L. cbv zeta.
    unfold refreshToken_failed, emit. cbn. rewrite Hcb. cbn.
    apply effectsSince_app. reflexivity. }
  split; [exact E|].
  assert (A : app s' = deliverAll now (effectsSince (service s) (service s')) (app s))
    by reflexivity.
  rewrite A, E.
  assert (F : isRunning (service s') = isRunning (service s)
              /\ timers (service s') = timers (service s)
              /\ speechConfig (service s') = speechConfig (service s)
              /\ conversationTranscriber (service s') = conversationTranscriber (service s)).
  { subst s'. simpl. unfold tokenFetchFailed. rewrite L. cbv zeta.
    unfold refreshToken_failed, emit. cbn. rewrite Hcb. cbn. repeat split. }
  destruct F as (F1 & F2 & F3 & F4). repeat split; assumption.
Qed.

End TokenFailure.

(* ================================================================== *)
(** * The life of a transcriber                                        *)
(* ================================================================== *)

Lemma closedTranscribers_app l1 l2 :
  closedTranscribers (l1 ++ l2) = closedTranscribers l1 ++ closedTranscribers l2.
Proof. apply flat_map_app. Qed.

Lemma noUseAfterClose_snoc tr e :
  noUseAfterClose tr ->
  (forall c, transcriberOf e = Some c -> ~ In c (closedTranscribers tr)) ->
  noUseAfterClose (tr ++ [e]).
Proof.
  intros Hs He l1 c l2 E.
  destruct l2 as [|x l2] using rev_ind; [constructor|]. clear IHl2.
  change (l1 ++ SdkClose (TranscriberRes c) :: l2 ++ [x])
    with (l1 ++ (SdkClose (TranscriberRes c) :: l2) ++ [x]) in E.
  rewrite app_assoc in E. apply app_inj_tail in E. destruct E as [E <-].
  apply Forall_app. split; [apply (Hs l1 c l2 E)|].
  constructor; [|constructor]. intros Hc. apply (He c Hc).
  rewrite E, closedTranscribers_app. apply in_or_app. right. simpl. auto.
Qed.

Lemma Releases_refl w : Releases w w.
Proof. unfold Releases. auto. Qed.

Lemma Releases_trans w1 w2 w3 : Releases w1 w2 -> Releases w2 w3 -> Releases w1 w3.
Proof. unfold Releases. auto. Qed.

Create HintDb releases.

(** A world that differs from [w] in fields the invariant does not read,
    and whose counter has not gone back. *)
Lemma Released_frame w w' :
  trace w' = trace w -> conversationTranscriber w' = conversationTranscriber w ->
  nextId w <= nextId w' ->
  Releases w w'.
Proof.
  intros Et Ec En (A & B & C). unfold Released. rewrite Et, Ec.
  split; [exact A|]. split.
  - eapply Forall_impl; [|exact B]. cbn. intros c [H1 H2]. split; [lia|exact H2].
  - intros c H. specialize (C c H). lia.
Qed.

Ltac releases_prim :=
  apply Released_frame; cbn; first [reflexivity | lia].

Lemma Releases_log e w :
  transcriberOf e = None -> Releases w (log e w).
Proof.
  intros He (A & B & C). unfold Released. cbn.
  split; [apply noUseAfterClose_snoc; [exact A|intros c Hc; congruence]|].
  split; [|exact C].
  rewrite closedTranscribers_app.
  replace (closedTranscribers [e]) with (@nil nat); [rewrite app_nil_r; exact B|].
  destruct e as [| | | |[]|]; try reflexivity. discriminate.
Qed.

Lemma Releases_log_current e c w :
  conversationTranscriber w = Some c ->
  e = SdkStartTranscribing c \/ e = SdkStopTranscribing c ->
  Releases w (log e w).
Proof.
  intros Hc He (A & B & C). unfold Released. cbn.
  assert (Ht : transcriberOf e = Some c) by (destruct He; subst; reflexivity).
  assert (Hn : closedTranscribers [e] = []) by (destruct He; subst; reflexivity).
  split; [apply noUseAfterClose_snoc; [exact A|]|].
  - intros c' Hc' Hin. rewrite Ht in Hc'. inversion Hc'; subst c'.
    rewrite Forall_forall in B. destruct (B c Hin) as [_ Hne]. contradiction.
  - split; [|exact C]. rewrite closedTranscribers_app, Hn, app_nil_r. exact B.
Qed.

Lemma Releases_emit cb w : Releases w (emit cb w).
Proof.
  unfold emit. destruct (installed _ _); [apply Releases_log; reflexivity|apply Releases_refl].
Qed.
#[local] Hint Resolve Releases_emit : releases.

(** [stopTranscribingAsync] on the transcriber the service holds. *)
Lemma Releases_askStop c l w :
  conversationTranscriber w = Some c ->
  Releases w (bump (log (SdkStopTranscribing c) (set_pendingStops l w))).
Proof.
  intros Hc.
  apply (Releases_trans _ (set_pendingStops l w)); [releases_prim|].
  apply (Releases_trans _ (log (SdkStopTranscribing c) (set_pendingStops l w)));
    [|releases_prim].
  apply (Releases_log_current _ c); [exact Hc|auto].
Qed.

(** The three [close()] calls, with the transcriber forgotten at once. *)
Lemma Releases_closeAll w w' :
  trace w' = trace (closeAll w) -> nextId w' = nextId (closeAll w) ->
  conversationTranscriber w' = None ->
  Releases w w'.
Proof.
  intros Et En Ec (A & B & C). unfold Released. rewrite Et, En, Ec, closeAll_shape.
  cbn. clear Et En Ec.
  assert (Hcl : closedTranscribers (closesOf w)
                = match conversationTranscriber w with
                  | Some c => [c]
                  | None => []
                  end).
  { unfold closesOf.
    destruct (conversationTranscriber w), (audioConfig w), (speechConfig w); reflexivity. }
  split; [|split].
  - unfold closesOf.
    assert (S1 : noUseAfterClose
                   (trace w ++ match conversationTranscriber w with
                               | Some c => [SdkClose (TranscriberRes c)]
                               | None => []
                               end)).
    { destruct (conversationTranscriber w) as [c|] eqn:E; [|rewrite app_nil_r; exact A].
      apply noUseAfterClose_snoc; [exact A|].
      intros c' Hc' Hin. simpl in Hc'. inversion Hc'; subst c'.
      rewrite Forall_forall in B. destruct (B c Hin) as [_ Hne]. congruence. }
    rewrite app_assoc.
    assert (S2 : noUseAfterClose
                   ((trace w ++ match conversationTranscriber w with
                                | Some c => [SdkClose (TranscriberRes c)]
                                | None => []
                                end)
                    ++ match audioConfig w with
                       | Some a => [SdkClose (AudioConfigRes a)]
                       | None => []
                       end)).
    { destruct (audioConfig w); [|rewrite app_nil_r; exact S1].
      apply noUseAfterClose_snoc; [exact S1|]. intros; discriminate. }
    rewrite app_assoc.
    destruct (speechConfig w); [|rewrite app_nil_r; exact S2].
    apply noUseAfterClose_snoc; [exact S2|]. intros; discriminate.
  - rewrite closedTranscribers_app, Hcl. apply Forall_app. split.
    + eapply Forall_impl; [|exact B]. cbn. intros c [H1 _]. split; [exact H1|discriminate].
    + destruct (conversationTranscriber w) as [c|] eqn:E; constructor; [|constructor].
      split; [apply C; reflexivity|discriminate].
  - intros; discriminate.
Qed.

(** A transcriber that has just been made. *)
Lemma Releases_newTranscriber w :
  Releases w (bump (set_conversationTranscriber (Some (nextId w)) w)).
Proof.
  intros (A & B & C). unfold Released. cbn. split; [exact A|]. split.
  - eapply Forall_impl; [|exact B]. cbn. intros c [H1 _].
    split; [lia|]. intros H. inversion H. lia.
  - intros c H. inversion H. lia.
Qed.

Ltac releases :=
  cbv zeta;
  repeat match goal with
  | |- Releases ?w ?w => apply Releases_refl
  | |- Releases _ _ => solve [auto with releases]
  | H : conversationTranscriber ?w' = Some ?c
    |- Releases ?w (bump (log (SdkStopTranscribing ?c) (set_pendingStops ?l ?w'))) =>
      apply (Releases_trans w w' _); [ | apply Releases_askStop; exact H ]
  | |- Releases ?w (set_audioConfig None (set_conversationTranscriber None (closeAll ?w'))) =>
      apply (Releases_trans w w' _); [ | apply Releases_closeAll; reflexivity ]
  | |- Releases ?w (set_sessionStartTime None
                      (set_conversationTranscriber None
                         (set_audioConfig None (set_speechConfig None (closeAll ?w'))))) =>
      apply (Releases_trans w w' _); [ | apply Releases_closeAll; reflexivity ]
  | |- Releases ?w (bump (set_conversationTranscriber (Some (nextId ?w')) ?w')) =>
      apply (Releases_trans w w' _); [ | apply Releases_newTranscriber ]
  | |- Releases _ (if ?b then _ else _) => destruct b eqn:?
  | |- Releases _ (match ?x with _ => _ end) => destruct x eqn:?
  | |- Releases ?w (?f ?w') =>
      apply (Releases_trans w w' (f w'));
      [ | first [ solve [auto with releases] | solve [releases_prim]
                | solve [apply Releases_log; reflexivity]
                | solve [eapply Releases_log_current; [reflexivity|auto]] ] ]
  end.

Lemma Releases_setTimer d k w : Releases w (setTimer d k w).
Proof. releases_prim. Qed.
#[local] Hint Resolve Releases_setTimer : releases.

Lemma Releases_clearTimer id w : Releases w (clearTimer id w).
Proof. releases_prim. Qed.
#[local] Hint Resolve Releases_clearTimer : releases.

Lemma Releases_stopTokenRefresh w : Releases w (stopTokenRefresh w).
Proof. unfold stopTokenRefresh. releases. Qed.
#[local] Hint Resolve Releases_stopTokenRefresh : releases.

Lemma Releases_startTokenRefresh w : Releases w (startTokenRefresh w).
Proof. unfold startTokenRefresh. releases. Qed.
#[local] Hint Resolve Releases_startTokenRefresh : releases.

Lemma Releases_stopSessionRestartTimer w : Releases w (stopSessionRestartTimer w).
Proof. unfold stopSessionRestartTimer. releases. Qed.
#[local] Hint Resolve Releases_stopSessionRestartTimer : releases.

Lemma Releases_startSessionRestartTimer w : Releases w (startSessionRestartTimer w).
Proof. unfold startSessionRestartTimer. releases. Qed.
#[local] Hint Resolve Releases_startSessionRestartTimer : releases.

Lemma Releases_requestToken k w : Releases w (requestToken k w).
Proof. unfold requestToken. releases. Qed.
#[local] Hint Resolve Releases_requestToken : releases.

Lemma Releases_refreshToken w : Releases w (refreshToken w).
Proof. unfold refreshToken. releases. Qed.
#[local] Hint Resolve Releases_refreshToken : releases.

Lemma Releases_refreshToken_fetched token w : Releases w (refreshToken_fetched token w).
Proof. unfold refreshToken_fetched. releases. Qed.
#[local] Hint Resolve Releases_refreshToken_fetched : releases.

Lemma Releases_refreshToken_failed detail w : Releases w (refreshToken_failed detail w).
Proof. unfold refreshToken_failed. releases. Qed.
#[local] Hint Resolve Releases_refreshToken_failed : releases.

Lemma Releases_startReturned caller w : Releases w (startReturned caller w).
Proof. unfold startReturned. releases. Qed.
#[local] Hint Resolve Releases_startReturned : releases.

Lemma Releases_startThrew caller message w : Releases w (startThrew caller message w).
Proof. unfold startThrew. releases. Qed.
#[local] Hint Resolve Releases_startThrew : releases.

Lemma Releases_start caller w : Releases w (start caller w).
Proof. unfold start. releases. Qed.
#[local] Hint Resolve Releases_start : releases.

Lemma Releases_start_fetched caller token region w :
  Releases w (start_fetched caller token region w).
Proof. unfold start_fetched. releases. Qed.
#[local] Hint Resolve Releases_start_fetched : releases.

Lemma Releases_start_failed caller detail w : Releases w (start_failed caller detail w).
Proof. unfold start_failed. releases. Qed.
#[local] Hint Resolve Releases_start_failed : releases.

Lemma Releases_startSucceeded now w : Releases w (startSucceeded now w).
Proof. unfold startSucceeded. releases. Qed.
#[local] Hint Resolve Releases_startSucceeded : releases.

Lemma Releases_startFailed error w : Releases w (startFailed error w).
Proof. unfold startFailed. releases. Qed.
#[local] Hint Resolve Releases_startFailed : releases.

Lemma Releases_restartSession_stopped wasRunning w :
  Releases w (restartSession_stopped wasRunning w).
Proof. unfold restartSession_stopped. releases. Qed.
#[local] Hint Resolve Releases_restartSession_stopped : releases.

Lemma Releases_restartSession reason w : Releases w (restartSession reason w).
Proof. unfold restartSession. releases. Qed.
#[local] Hint Resolve Releases_restartSession : releases.

Lemma Releases_sessionRestartTimerFired w : Releases w (sessionRestartTimerFired w).
Proof. unfold sessionRestartTimerFired. releases. Qed.
#[local] Hint Resolve Releases_sessionRestartTimerFired : releases.

Lemma Releases_stop w : Releases w (stop w).
Proof. unfold stop. releases. Qed.
#[local] Hint Resolve Releases_stop : releases.

Lemma Releases_enableAutoReconnect w : Releases w (enableAutoReconnect w).
Proof. unfold enableAutoReconnect. releases. Qed.
#[local] Hint Resolve Releases_enableAutoReconnect : releases.

Lemma Releases_disableAutoReconnect w : Releases w (disableAutoReconnect w).
Proof. unfold disableAutoReconnect. releases. Qed.
#[local] Hint Resolve Releases_disableAutoReconnect : releases.

Lemma Releases_canceled d w : Releases w (canceled d w).
Proof. unfold canceled. releases. Qed.
#[local] Hint Resolve Releases_canceled : releases.

Lemma Releases_sessionStopped now w : Releases w (sessionStopped now w).
Proof. unfold sessionStopped. releases. Qed.
#[local] Hint Resolve Releases_sessionStopped : releases.

Lemma Releases_stop_acknowledged w : Releases w (stop_acknowledged w).
Proof. unfold stop_acknowledged. releases. Qed.
#[local] Hint Resolve Releases_stop_acknowledged : releases.

Lemma Releases_transcribing parse r w : Releases w (transcribing parse r w).
Proof. unfold transcribing. releases. Qed.
#[local] Hint Resolve Releases_transcribing : releases.

Lemma Releases_transcribed parse r w : Releases w (transcribed parse r w).
Proof. unfold transcribed. releases. Qed.
#[local] Hint Resolve Releases_transcribed : releases.

Lemma Releases_timerFired id w : Releases w (timerFired id w).
Proof. unfold timerFired. releases. Qed.
#[local] Hint Resolve Releases_timerFired : releases.

Lemma Releases_tokenFetched rid token region w :
  Releases w (tokenFetched rid token region w).
Proof. unfold tokenFetched. releases. Qed.
#[local] Hint Resolve Releases_tokenFetched : releases.

Lemma Releases_tokenFetchFailed rid detail w :
  Releases w (tokenFetchFailed rid detail w).
Proof. unfold tokenFetchFailed. releases. Qed.
#[local] Hint Resolve Releases_tokenFetchFailed : releases.

Lemma Releases_stopAcknowledged rid w : Releases w (stopAcknowledged rid w).
Proof. unfold stopAcknowledged. releases. Qed.
#[local] Hint Resolve Releases_stopAcknowledged : releases.

Lemma Releases_step parse ev w : Releases w (step parse ev w).
Proof. destruct ev as [ | | | |[why|]| | | | | | | | | | ]; unfold step; releases. Qed.

Lemma Released_newService cbs : Released (newService cbs).
Proof.
  split; [|split].
  - intros l1 c l2 E. destruct l1; discriminate.
  - constructor.
  - intros; discriminate.
Qed.

Lemma Released_run parse evs : forall w, Released w -> Released (run parse evs w).
Proof.
  unfold run. induction evs as [|ev evs IH]; simpl; intros w Hw; [assumption|].
  apply IH. apply (Releases_step parse ev w Hw).
Qed.

(** X13. In every run of the service, once a transcriber has been closed
    nothing acts on it again: no [startTranscribingAsync], no
    [stopTranscribingAsync], no second [close()]. And the transcriber the
    service holds has not been closed. *)
Theorem transcriber_is_not_used_after_close :
  forall (JSON_parse : JsVal -> Completion JsVal) (cbs : Callbacks) (evs : list Event),
    let w := run JSON_parse evs (newService cbs) in
    (forall before c after e,
        trace w = before ++ SdkClose (TranscriberRes c) :: after ->
        In e after ->
        e <> SdkStartTranscribing c /\ e <> SdkStopTranscribing c
        /\ e <> SdkClose (TranscriberRes c))
    /\ (forall c, conversationTranscriber w = Some c ->
                  ~ In (SdkClose (TranscriberRes c)) (trace w)).
Proof.
  intros parse cbs evs w.
  assert (R : Released w) by (apply Released_run, Released_newService).
  clearbody w. destruct R as (A & B & _). split.
  - intros before c after e Et He.
    pose proof (A before c after Et) as F. rewrite Forall_forall in F.
    specialize (F e He).
    repeat split; intros ->; apply F; reflexivity.
  - intros c Hc Hin.
    assert (Hcl : In c (closedTranscribers (trace w))).
    { unfold closedTranscribers. apply in_flat_map.
      exists (SdkClose (TranscriberRes c)). split; [exact Hin|simpl; auto]. }
    rewrite Forall_forall in B. destruct (B c Hcl) as [_ Hne]. contradiction.
Qed.

(* ================================================================== *)
(** * Restart notifications                                            *)
(* ================================================================== *)

Lemma Owes_trans k1 k2 w1 w2 w3 :
  Owes k1 w1 w2 -> Owes k2 w2 w3 -> Owes (k1 + k2) w1 w3.
Proof. intros [A1 B1] [A2 B2]. split; [congruence|lia]. Qed.

Lemma Level_refl w : Level w w.
Proof. split; [reflexivity|lia]. Qed.

Lemma Level_trans w1 w2 w3 : Level w1 w2 -> Level w2 w3 -> Level w1 w3.
Proof. intros A B. exact (Owes_trans 0 0 w1 w2 w3 A B). Qed.

Lemma Level_Owes k w w' : (0 <= k)%Z -> Level w w' -> Owes k w w'.
Proof. intros Hk [A B]. split; [exact A|lia]. Qed.

Create HintDb level.

Ltac debt_prim :=
  unfold Level, Owes, restartDebt, restartsConcluded, restartsInFlight,
    restartsAnnounced, restartsAwaitingStop;
  cbn; rewrite ?filter_app, ?length_app; cbn; split; first [reflexivity | lia].

Ltac level :=
  cbv zeta;
  repeat match goal with
  | |- Level ?w ?w => apply Level_refl
  | |- Level _ _ => solve [auto with level]
  | |- Level _ (if ?b then _ else _) => destruct b eqn:?
  | |- Level _ (match ?x with _ => _ end) => destruct x eqn:?
  | |- Level ?w (?f ?w') =>
      apply (Level_trans w w' (f w'));
      [ | first [ solve [auto with level] | solve [debt_prim] ] ]
  end.

Lemma Level_log e w :
  isRestartOutcome e = false -> Level w (log e w).
Proof.
  intros H. unfold Level, Owes, restartDebt, restartsConcluded, restartsInFlight,
    restartsAnnounced, restartsAwaitingStop. cbn.
  rewrite !filter_app, !length_app. cbn. rewrite H.
  split; [reflexivity|]. destruct (isRestarting e); cbn; lia.
Qed.

Lemma Level_emit cb w :
  isRestartOutcome (Call cb) = false -> Level w (emit cb w).
Proof.
  intros H. unfold emit. destruct (installed _ _); [apply Level_log; exact H|apply Level_refl].
Qed.

#[local] Hint Extern 1 (isRestartOutcome _ = false) => reflexivity : level.
#[local] Hint Resolve Level_log Level_emit : level.

Lemma Level_setTimer d k w : Level w (setTimer d k w).
Proof. debt_prim. Qed.
#[local] Hint Resolve Level_setTimer : level.

Lemma Level_clearTimer id w : Level w (clearTimer id w).
Proof. debt_prim. Qed.
#[local] Hint Resolve Level_clearTimer : level.

Lemma Level_closeResource r w : Level w (closeResource r w).
Proof. unfold closeResource. destruct r; auto using Level_refl with level. Qed.
#[local] Hint Resolve Level_closeResource : level.

Lemma Level_closeAll w : Level w (closeAll w).
Proof. unfold closeAll. level. Qed.
#[local] Hint Resolve Level_closeAll : level.

Lemma Level_stopTokenRefresh w : Level w (stopTokenRefresh w).
Proof. unfold stopTokenRefresh. level. Qed.
#[local] Hint Resolve Level_stopTokenRefresh : level.

Lemma Level_startTokenRefresh w : Level w (startTokenRefresh w).
Proof. unfold startTokenRefresh. level. Qed.
#[local] Hint Resolve Level_startTokenRefresh : level.

Lemma Level_stopSessionRestartTimer w : Level w (stopSessionRestartTimer w).
Proof. unfold stopSessionRestartTimer. level. Qed.
#[local] Hint Resolve Level_stopSessionRestartTimer : level.

Lemma Level_startSessionRestartTimer w : Level w (startSessionRestartTimer w).
Proof. unfold startSessionRestartTimer. level. Qed.
#[local] Hint Resolve Level_startSessionRestartTimer : level.

Lemma Level_requestToken_refresh w : Level w (requestToken TokForRefresh w).
Proof. unfold requestToken. debt_prim. Qed.
#[local] Hint Resolve Level_requestToken_refresh : level.

Lemma Level_requestToken_caller w : Level w (requestToken (TokForStart ByCaller) w).
Proof. unfold requestToken. debt_prim. Qed.
#[local] Hint Resolve Level_requestToken_caller : level.

Lemma Level_refreshToken w : Level w (refreshToken w).
Proof. unfold refreshToken. level. Qed.
#[local] Hint Resolve Level_refreshToken : level.

Lemma Level_refreshToken_fetched token w : Level w (refreshToken_fetched token w).
Proof. unfold refreshToken_fetched. level. Qed.
#[local] Hint Resolve Level_refreshToken_fetched : level.

Lemma Level_refreshToken_failed detail w : Level w (refreshToken_failed detail w).
Proof. unfold refreshToken_failed. level. Qed.
#[local] Hint Resolve Level_refreshToken_failed : level.

Lemma Level_stop w : Level w (stop w).
Proof. unfold stop. level. Qed.
#[local] Hint Resolve Level_stop : level.

Lemma Level_enableAutoReconnect w : Level w (enableAutoReconnect w).
Proof. unfold enableAutoReconnect. level. Qed.
#[local] Hint Resolve Level_enableAutoReconnect : level.

Lemma Level_disableAutoReconnect w : Level w (disableAutoReconnect w).
Proof. unfold disableAutoReconnect. level. Qed.
#[local] Hint Resolve Level_disableAutoReconnect : level.

Lemma Level_canceled d w : Level w (canceled d w).
Proof. unfold canceled. level. Qed.
#[local] Hint Resolve Level_canceled : level.

Lemma Level_sessionStopped now w : Level w (sessionStopped now w).
Proof. unfold sessionStopped. level. Qed.
#[local] Hint Resolve Level_sessionStopped : level.

Lemma Level_stop_acknowledged w : Level w (stop_acknowledged w).
Proof. unfold stop_acknowledged. level. Qed.
#[local] Hint Resolve Level_stop_acknowledged : level.

Lemma Level_transcribing parse r w : Level w (transcribing parse r w).
Proof. unfold transcribing. level. Qed.
#[local] Hint Resolve Level_transcribing : level.

Lemma Level_transcribed parse r w : Level w (transcribed parse r w).
Proof. unfold transcribed. level. Qed.
#[local] Hint Resolve Level_transcribed : level.

Lemma Level_startSucceeded now w : Level w (startSucceeded now w).
Proof. unfold startSucceeded. level. Qed.
#[local] Hint Resolve Level_startSucceeded : level.

Lemma Level_startFailed error w : Level w (startFailed error w).
Proof. unfold startFailed. level. Qed.
#[local] Hint Resolve Level_startFailed : level.

(** ** Operations that owe an outcome, operations that pay one *)

Lemma Owes_emit cb w : Owes 1 w (emit cb w).
Proof.
  unfold emit. destruct (installed _ _); [|apply Level_Owes; [lia|apply Level_refl]].
  unfold Owes, restartDebt, restartsConcluded, restartsInFlight, restartsAnnounced,
    restartsAwaitingStop. cbn. rewrite !filter_app, !length_app. cbn.
  split; [reflexivity|].
  destruct cb; cbn; lia.
Qed.

Lemma Owes_requestToken k w : Owes 1 w (requestToken k w).
Proof.
  unfold requestToken, Owes, restartDebt, restartsConcluded, restartsInFlight,
    restartsAnnounced, restartsAwaitingStop. cbn. rewrite !filter_app, !length_app. cbn.
  split; [reflexivity|]. destruct k as [[|]|]; cbn; lia.
Qed.

Lemma Owes_startReturned caller w : Owes 1 w (startReturned caller w).
Proof.
  destruct caller; simpl; [apply Level_Owes; [lia|apply Level_refl]|apply Owes_emit].
Qed.

Lemma Owes_startThrew caller message w : Owes 1 w (startThrew caller message w).
Proof.
  destruct caller; simpl.
  - apply Level_Owes; [lia|]. apply Level_log. reflexivity.
  - apply (Owes_trans 1 0 w (emit (OnSessionRestartFailed message) w));
      [apply Owes_emit|apply Level_emit; reflexivity].
Qed.

Lemma Owes_start caller w : Owes 1 w (start caller w).
Proof.
  unfold start. destruct (isRunning w); [apply Owes_startReturned|apply Owes_requestToken].
Qed.

Lemma Owes_start_fetched caller token region w :
  Owes 1 w (start_fetched caller token region w).
Proof.
  unfold start_fetched. cbv zeta.
  match goal with
  | |- Owes 1 ?w (startReturned ?c ?x) =>
      apply (Owes_trans 0 1 w x); [|apply Owes_startReturned]
  end.
  match goal with |- Owes 0 ?a ?b => change (Level a b) end.
  level.
Qed.

Lemma Owes_start_failed caller detail w : Owes 1 w (start_failed caller detail w).
Proof.
  unfold start_failed.
  apply (Owes_trans 0 1 w (set_isRunning false w)); [debt_prim|apply Owes_startThrew].
Qed.

Lemma Owes_restartSession_stopped wasRunning w :
  Owes 1 w (restartSession_stopped wasRunning w).
Proof.
  unfold restartSession_stopped. cbv zeta.
  assert (L : Level w (set_audioConfig None (set_conversationTranscriber None (closeAll w))))
    by level.
  destruct wasRunning.
  - apply (Owes_trans 0 1 w _ _ L). apply Owes_start.
  - apply Level_Owes; [lia|exact L].
Qed.

Lemma Level_forget_token rid w :
  Level w (set_pendingTokens (removePending rid (pendingTokens w)) w).
Proof.
  unfold Level, Owes, restartDebt, restartsConcluded, restartsInFlight,
    restartsAnnounced, restartsAwaitingStop. cbn. split; [reflexivity|].
  pose proof (removePending_count isRestartToken rid (pendingTokens w)). lia.
Qed.

Lemma Level_forget_stop rid w :
  Level w (set_pendingStops (removePending rid (pendingStops w)) w).
Proof.
  unfold Level, Owes, restartDebt, restartsConcluded, restartsInFlight,
    restartsAnnounced, restartsAwaitingStop. cbn. split; [reflexivity|].
  pose proof (removePending_count isRestartStop rid (pendingStops w)). lia.
Qed.

Lemma Level_forget_open c w :
  Level w (set_pendingOpens (removeNat c (pendingOpens w)) w).
Proof. debt_prim. Qed.

Lemma Pays_forget_token rid w :
  lookupPending rid (pendingTokens w) = Some (TokForStart ByRestart) ->
  Owes (-1) w (set_pendingTokens (removePending rid (pendingTokens w)) w).
Proof.
  intros L.
  unfold Owes, restartDebt, restartsConcluded, restartsInFlight,
    restartsAnnounced, restartsAwaitingStop. cbn. split; [reflexivity|].
  pose proof (removePending_count_found isRestartToken rid (pendingTokens w) _ L eq_refl).
  lia.
Qed.

Lemma Pays_forget_stop rid wasRunning w :
  lookupPending rid (pendingStops w) = Some (StopForRestart wasRunning) ->
  Owes (-1) w (set_pendingStops (removePending rid (pendingStops w)) w).
Proof.
  intros L.
  unfold Owes, restartDebt, restartsConcluded, restartsInFlight,
    restartsAnnounced, restartsAwaitingStop. cbn. split; [reflexivity|].
  pose proof (removePending_count_found isRestartStop rid (pendingStops w) _ L eq_refl).
  lia.
Qed.

Lemma Pays_announce reason w :
  has_onSessionRestarting (callbacks w) = true ->
  Owes (-1) w (emit (OnSessionRestarting reason) w).
Proof.
  intros H. unfold emit. cbn [installed]. rewrite H.
  unfold Owes, restartDebt, restartsConcluded, restartsInFlight,
    restartsAnnounced, restartsAwaitingStop. cbn. rewrite !filter_app, !length_app. cbn.
  split; [reflexivity|lia].
Qed.

Lemma Level_restartSession reason w :
  has_onSessionRestarting (callbacks w) = true ->
  Level w (restartSession reason w).
Proof.
  intros H. unfold restartSession.
  destruct (negb (isRunning w) || negb (autoReconnectEnabled w)); [apply Level_refl|].
  cbv zeta.
  set (w1 := emit (OnSessionRestarting reason) w).
  set (w3 := stopSessionRestartTimer (stopTokenRefresh (set_isRunning false w1))).
  assert (L3 : Owes (-1) w w3).
  { apply (Owes_trans (-1) 0 w w1); [apply Pays_announce; exact H|].
    subst w3. change (Level w1 (stopSessionRestartTimer (stopTokenRefresh (set_isRunning false w1)))).
    level. }
  clearbody w3.
  destruct (conversationTranscriber w3) as [c|].
  - apply (Owes_trans (-1) 1 w w3 _ L3). debt_prim.
  - apply (Owes_trans (-1) 1 w w3 _ L3). apply Owes_restartSession_stopped.
Qed.

Lemma Level_step parse ev w :
  has_onSessionRestarting (callbacks w) = true ->
  Level w (step parse ev w).
Proof.
  intros H.
  destruct ev as [ | | | |[why|]|id|rid token region|rid detail|rid|c now|c error|r|r|d|now];
    unfold step.
  - unfold start. level.
  - auto with level.
  - auto with level.
  - auto with level.
  - apply Level_restartSession. exact H.
  - apply Level_restartSession. exact H.
  - unfold timerFired.
    destruct (findTimer id (timers w)) as [t|]; [|apply Level_refl].
    destruct (timerKind t).
    + auto with level.
    + unfold sessionRestartTimerFired.
      destruct (isRunning (clearTimer id w) && autoReconnectEnabled (clearTimer id w));
        [|auto with level].
      apply (Level_trans w (clearTimer id w)); [auto with level|].
      apply Level_restartSession. exact H.
    + apply (Level_trans w (clearTimer id w)); [auto with level|].
      apply Level_restartSession. exact H.
  - unfold tokenFetched.
    destruct (lookupPending rid (pendingTokens w)) as [[[|]|]|] eqn:L;
      [| | |apply Level_refl]; cbv zeta.
    + apply (Level_trans w _ _ (Level_forget_token rid w)).
      unfold start_fetched, startReturned. level.
    + exact (Owes_trans (-1) 1 w _ _ (Pays_forget_token rid w L)
               (Owes_start_fetched ByRestart token region _)).
    + apply (Level_trans w _ _ (Level_forget_token rid w)). auto with level.
  - unfold tokenFetchFailed.
    destruct (lookupPending rid (pendingTokens w)) as [[[|]|]|] eqn:L;
      [| | |apply Level_refl]; cbv zeta.
    + apply (Level_trans w _ _ (Level_forget_token rid w)).
      unfold start_failed, startThrew. level.
    + exact (Owes_trans (-1) 1 w _ _ (Pays_forget_token rid w L)
               (Owes_start_failed ByRestart detail _)).
    + apply (Level_trans w _ _ (Level_forget_token rid w)). auto with level.
  - unfold stopAcknowledged.
    destruct (lookupPending rid (pendingStops w)) as [[wasRunning|]|] eqn:L;
      [| |apply Level_refl]; cbv zeta.
    + exact (Owes_trans (-1) 1 w _ _ (Pays_forget_stop rid wasRunning w L)
               (Owes_restartSession_stopped wasRunning _)).
    + apply (Level_trans w _ _ (Level_forget_stop rid w)). auto with level.
  - destruct (memNat c (pendingOpens w)); [|apply Level_refl].
    apply (Level_trans w _ _ (Level_forget_open c w)). auto with level.
  - destruct (memNat c (pendingOpens w)); [|apply Level_refl].
    apply (Level_trans w _ _ (Level_forget_open c w)). auto with level.
  - auto with level.
  - auto with level.
  - auto with level.
  - auto with level.
Qed.

Lemma Level_run parse evs :
  forall w, has_onSessionRestarting (callbacks w) = true -> Level w (run parse evs w).
Proof.
  unfold run. induction evs as [|ev evs IH]; simpl; intros w H; [apply Level_refl|].
  pose proof (Level_step parse ev w H) as L.
  apply (Level_trans w _ _ L). apply IH. destruct L as [E _]. rewrite E. exact H.
Qed.

(** X14. With [onSessionRestarting] installed, in every run of the service
    the restarts concluded ([onSessionRestarted] or [onSessionRestartFailed]
    called) together with those still suspended never exceed the restarts
    announced ([onSessionRestarting] called): every outcome answers an
    announcement of its own. *)
Theorem restart_outcomes_never_exceed_announcements :
  forall (JSON_parse : JsVal -> Completion JsVal) (cbs : Callbacks) (evs : list Event),
    has_onSessionRestarting cbs = true ->
    let w := run JSON_parse evs (newService cbs) in
    restartsConcluded w + restartsInFlight w <= restartsAnnounced w.
Proof.
  intros parse cbs evs H w.
  destruct (Level_run parse evs (newService cbs) H) as [_ L]. fold w in L.
  unfold restartDebt in L. cbn in L. lia.
Qed.

(* ================================================================== *)
(** * The records of the component                                     *)
(* ================================================================== *)

Lemma sameValueZero_trans a b c :
  sameValueZero a b = true -> sameValueZero b c = true -> sameValueZero a c = true.
Proof.
  destruct a, b, c; simpl; intros H1 H2; try discriminate; try reflexivity.
  - apply Bool.eqb_prop in H1, H2. subst. apply Bool.eqb_reflx.
  - apply Z.eqb_eq in H1, H2. subst. apply Z.eqb_refl.
  - apply String.eqb_eq in H1, H2. subst. apply String.eqb_refl.
  - apply Nat.eqb_eq in H1, H2. subst. apply Nat.eqb_refl.
Qed.

Lemma sameValueZero_truthy a b :
  sameValueZero a b = true -> truthy a = truthy b.
Proof.
  destruct a, b; simpl; intros H; try discriminate; try reflexivity.
  - apply Bool.eqb_prop in H. congruence.
  - apply Z.eqb_eq in H. congruence.
  - apply String.eqb_eq in H. congruence.
Qed.

Lemma sameValueZero_congr a b c :
  sameValueZero a b = true -> sameValueZero c a = sameValueZero c b.
Proof.
  intros H. destruct (sameValueZero c a) eqn:E1.
  - symmetry. eapply sameValueZero_trans; eassumption.
  - destruct (sameValueZero c b) eqn:E2; [|reflexivity].
    rewrite sameValueZero_sym in H.
    rewrite (sameValueZero_trans c b a E2 H) in E1. discriminate.
Qed.

Lemma get_sameValueZero m a b :
  sameValueZero a b = true -> JsMap.get m a = JsMap.get m b.
Proof.
  intros H. unfold JsMap.get. f_equal.
  induction m as [|[k v] m IH]; simpl; [reflexivity|].
  rewrite (sameValueZero_congr a b k H). rewrite IH. reflexivity.
Qed.

Lemma has_get m k : JsMap.has m k = true <-> exists n, JsMap.get m k = Some n.
Proof.
  unfold JsMap.has, JsMap.get. induction m as [|[k0 v0] m IH]; simpl.
  - split; [discriminate|intros [n H]; discriminate].
  - destruct (sameValueZero k0 k); simpl; [|exact IH].
    split; eauto.
Qed.

Lemma keysDistinct_snoc m k v :
  keysDistinct m = true -> JsMap.has m k = false -> keysDistinct (m ++ [(k, v)]) = true.
Proof.
  induction m as [|[k0 v0] m IH]; simpl; intros Hd Hh; [reflexivity|].
  apply andb_true_iff in Hd. destruct Hd as [H0 Hd].
  unfold JsMap.has in Hh. simpl in Hh. apply orb_false_iff in Hh.
  destruct Hh as [Hk Hh]. rewrite IH by assumption.
  rewrite has_app. apply negb_true_iff in H0. rewrite H0. simpl.
  rewrite sameValueZero_sym, Hk. reflexivity.
Qed.

Lemma numbered_snoc m k :
  numbered m -> numbered (m ++ [(k, JsMap.size m + 1)]).
Proof.
  unfold numbered, JsMap.size. intros H.
  rewrite map_app, length_app, H. simpl.
  rewrite Nat.add_1_r, seq_S. reflexivity.
Qed.

Lemma wellNumbered_empty : wellNumbered JsMap.empty.
Proof. repeat split. Qed.

Lemma wellNumbered_resolveSpeaker m k :
  wellNumbered m -> wellNumbered (resolveSpeaker m k).
Proof.
  intros (N & D & T). unfold resolveSpeaker.
  destruct (truthy k) eqn:Tk; simpl; [|repeat split; assumption].
  destruct (JsMap.has m k) eqn:Hk; simpl; [repeat split; assumption|].
  unfold JsMap.set. rewrite Hk. split; [apply numbered_snoc; assumption|].
  split; [apply keysDistinct_snoc; assumption|].
  unfold keysTruthy in *. rewrite forallb_app, T. simpl. rewrite Tk. reflexivity.
Qed.

(** A property of the registry that its updater keeps holds in every state
    of the component. *)
Section RegistryInvariant.

Variable P : JsMap.t -> Prop.
Hypothesis P_empty : P JsMap.empty.
Hypothesis P_resolve : forall m k, P m -> P (resolveSpeaker m k).

Lemma deliver_registry now a e : P (speakers a) -> P (speakers (deliver now a e)).
Proof.
  intros H. destruct (notTranscribed e) eqn:E.
  - rewrite deliver_speakers by assumption. assumption.
  - destruct e as [[]| | | | |]; try discriminate. simpl. apply P_resolve. assumption.
Qed.

Lemma deliverAll_registry now l :
  forall a, P (speakers a) -> P (speakers (deliverAll now l a)).
Proof.
  unfold deliverAll. induction l as [|e l IH]; simpl; intros a H; [assumption|].
  apply IH. apply deliver_registry. assumption.
Qed.

Lemma sysStep_registry parse now act s :
  P (speakers (app s)) -> P (speakers (app (sysStep parse now act s))).
Proof.
  intros H. destruct act; simpl; auto using deliverAll_registry.
Qed.

Lemma sysRun_registry parse acts :
  forall s, P (speakers (app s)) -> P (speakers (app (sysRun parse acts s))).
Proof.
  unfold sysRun. induction acts as [|[now act] acts IH]; simpl; intros s H; [assumption|].
  apply IH. apply sysStep_registry. assumption.
Qed.

End RegistryInvariant.

Lemma numbered_get m k n :
  numbered m -> JsMap.get m k = Some n -> 1 <= n <= JsMap.size m.
Proof.
  unfold numbered, JsMap.get, JsMap.size. intros N H.
  destruct (find _ m) as [[k0 v0]|] eqn:F; [|discriminate].
  simpl in H. inversion H; subst v0. apply find_some in F. destruct F as [Hin _].
  assert (Hn : In n (map snd m)) by (apply in_map_iff; exists (k0, n); auto).
  rewrite N in Hn. apply in_seq in Hn. lia.
Qed.

(** Two entries of a numbered registry with the same number are one entry. *)
Lemma numbered_injective m e1 e2 :
  numbered m -> In e1 m -> In e2 m -> snd e1 = snd e2 -> e1 = e2.
Proof.
  unfold numbered. intros N H1 H2 E.
  assert (Hd : NoDup (map snd m)) by (rewrite N; apply seq_NoDup).
  clear N. induction m as [|e m IH]; [contradiction|].
  simpl in Hd. inversion Hd as [|? ? Hn Hd']; subst.
  destruct H1 as [<-|H1], H2 as [<-|H2]; auto.
  - exfalso. apply Hn. rewrite E. apply in_map. assumption.
  - exfalso. apply Hn. rewrite <- E. apply in_map. assumption.
Qed.

Lemma get_entry m k n :
  JsMap.get m k = Some n -> exists k0, In (k0, n) m /\ sameValueZero k0 k = true.
Proof.
  unfold JsMap.get. destruct (find _ m) as [[k0 v0]|] eqn:F; [|discriminate].
  simpl. intros H. inversion H; subst. apply find_some in F. exists k0. exact F.
Qed.

(** X15. In every state the component can reach, the registry numbers its
    speakers 1, 2, ..., n in the order of their first appearance: no id
    occurs twice, every id is truthy, every number lies between 1 and the
    size of the registry, and two ids with the same number are the same
    key. *)
Theorem registry_is_a_numbering :
  forall (JSON_parse : JsVal -> Completion JsVal) (acts : list (Z * Action)),
    let m := speakers (app (sysRun JSON_parse acts initialSystem)) in
    map snd m = seq 1 (JsMap.size m)
    /\ keysDistinct m = true
    /\ keysTruthy m = true
    /\ (forall k n, JsMap.get m k = Some n -> 1 <= n <= JsMap.size m)
    /\ (forall k1 k2 n, JsMap.get m k1 = Some n -> JsMap.get m k2 = Some n ->
                        sameValueZero k1 k2 = true).
Proof.
  intros parse acts m.
  assert (W : wellNumbered m).
  { subst m. apply sysRun_registry.
    - apply wellNumbered_empty.
    - apply wellNumbered_resolveSpeaker.
    - apply wellNumbered_empty. }
  clearbody m. destruct W as (N & D & T).
  split; [exact N|]. split; [exact D|]. split; [exact T|].
  split; [intros k n; apply numbered_get; exact N|].
  intros k1 k2 n H1 H2.
  apply get_entry in H1. destruct H1 as (a & Ha & Sa).
  apply get_entry in H2. destruct H2 as (b & Hb & Sb).
  pose proof (numbered_injective m (a, n) (b, n) N Ha Hb eq_refl) as E.
  inversion E; subst b.
  rewrite sameValueZero_sym in Sa. eapply sameValueZero_trans; eassumption.
Qed.

(** ** What stays in the registry *)

Lemma resolveSpeaker_keeps m k k0 n :
  JsMap.get m k0 = Some n -> JsMap.get (resolveSpeaker m k) k0 = Some n.
Proof.
  intros H. unfold resolveSpeaker, JsMap.set.
  destruct (truthy k && negb (JsMap.has m k)) eqn:E; [|assumption].
  apply andb_true_iff in E. destruct E as [_ E]. apply negb_true_iff in E.
  rewrite E. apply get_app_present. assumption.
Qed.

Lemma resolveSpeaker_size m k : JsMap.size m <= JsMap.size (resolveSpeaker m k).
Proof.
  unfold resolveSpeaker, JsMap.set, JsMap.size.
  destruct (truthy k && negb (JsMap.has m k)) eqn:E; [|lia].
  apply andb_true_iff in E. destruct E as [_ E]. apply negb_true_iff in E.
  rewrite E, length_app. simpl. lia.
Qed.

Lemma extends_refl m : extends m m.
Proof. split; auto. Qed.

Lemma extends_resolveSpeaker m m' k : extends m m' -> extends m (resolveSpeaker m' k).
Proof.
  intros [G S]. split.
  - intros k0 n H. apply resolveSpeaker_keeps. auto.
  - pose proof (resolveSpeaker_size m' k). lia.
Qed.

Lemma sysStep_extends parse now act s m :
  isClear act = false ->
  extends m (speakers (app s)) ->
  extends m (speakers (app (sysStep parse now act s))).
Proof.
  intros Hc H. destruct act; simpl; try discriminate;
    apply (deliverAll_registry (extends m));
    solve [assumption | intros; apply extends_resolveSpeaker; assumption].
Qed.

(** X16. Whatever happens short of [handleClear], from any state of the
    component, a pairing of the registry stays as it is and the registry
    does not shrink. *)
Theorem registry_only_grows :
  forall (JSON_parse : JsVal -> Completion JsVal) (acts : list (Z * Action))
         (s : System),
    forallb (fun na => negb (isClear (snd na))) acts = true ->
    let m := speakers (app s) in
    let m' := speakers (app (sysRun JSON_parse acts s)) in
    (forall k n, JsMap.get m k = Some n -> JsMap.get m' k = Some n)
    /\ JsMap.size m <= JsMap.size m'.
Proof.
  intros parse acts s H m m'. subst m m'.
  change (extends (speakers (app s)) (speakers (app (sysRun parse acts s)))).
  generalize (extends_refl (speakers (app s))).
  generalize (speakers (app s)) at 1 3. intros m0.
  revert s H. unfold sysRun.
  induction acts as [|[now act] acts IH]; simpl; intros s H E; [assumption|].
  apply andb_true_iff in H. destruct H as [Ha H].
  apply IH; [assumption|]. apply sysStep_extends; [|assumption].
  apply negb_true_iff. exact Ha.
Qed.

(** ** Invariants of the component *)

Section AppInvariant.

Variable Q : AppState -> Prop.
Hypothesis Q_isListening : forall b a, Q a -> Q (set_isListening b a).
Hypothesis Q_error : forall e a, Q a -> Q (set_error e a).
Hypothesis Q_isSessionStarted : forall b a, Q a -> Q (set_isSessionStarted b a).
Hypothesis Q_callback : forall now cb a, Q a -> Q (app_callback now cb a).
Hypothesis Q_clear : forall a, Q (handleClear a).

Lemma deliver_inv now a e : Q a -> Q (deliver now a e).
Proof.
  intros H. destruct e; simpl; auto. unfold handleStart_rejected. auto.
Qed.

Lemma deliverAll_inv now l : forall a, Q a -> Q (deliverAll now l a).
Proof.
  unfold deliverAll. induction l as [|e l IH]; simpl; intros a H; [assumption|].
  apply IH. apply deliver_inv. assumption.
Qed.

Lemma sysStep_inv parse now act s : Q (app s) -> Q (app (sysStep parse now act s)).
Proof.
  intros H. destruct act; simpl; auto using deliverAll_inv.
Qed.

Lemma sysRun_inv parse acts : forall s, Q (app s) -> Q (app (sysRun parse acts s)).
Proof.
  unfold sysRun. induction acts as [|[now act] acts IH]; simpl; intros s H; [assumption|].
  apply IH. apply sysStep_inv. assumption.
Qed.

End AppInvariant.

(** ** Labels *)

Lemma keysTruthy_get_falsy m k :
  keysTruthy m = true -> truthy k = false -> JsMap.get m k = None.
Proof.
  unfold keysTruthy, JsMap.get. intros H Hk.
  induction m as [|[k0 v0] m IH]; simpl in *; [reflexivity|].
  apply andb_true_iff in H. destruct H as [H0 Hm].
  destruct (sameValueZero k0 k) eqn:E; [|auto].
  apply sameValueZero_truthy in E. congruence.
Qed.

Lemma labelled_keeps m k it : labelled m it -> labelled (resolveSpeaker m k) it.
Proof.
  unfold labelled. destruct (truthy (item_speakerId it)); [|auto].
  intros (n & G & L). exists n. split; [apply resolveSpeaker_keeps|]; assumption.
Qed.

Lemma resolveSpeaker_has m k :
  truthy k = true -> JsMap.has (resolveSpeaker m k) k = true.
Proof.
  intros Tk. destruct (JsMap.has m k) eqn:E.
  - rewrite resolveSpeaker_known; assumption.
  - rewrite resolveSpeaker_new by assumption.
    rewrite has_app, sameValueZero_refl. apply orb_true_r.
Qed.

Lemma labelsAgree_transcribed now text k a :
  labelsAgree a -> labelsAgree (app_onTranscribed now text k a).
Proof.
  intros (W & L). unfold labelsAgree. cbn.
  pose proof (wellNumbered_resolveSpeaker _ k W) as W'.
  split; [exact W'|]. apply Forall_app. split.
  - eapply Forall_impl; [|exact L]. intros it. apply labelled_keeps.
  - constructor; [|constructor]. unfold labelled. cbn.
    destruct (truthy k) eqn:Tk.
    + pose proof (resolveSpeaker_has (speakers a) k Tk) as Hh.
      apply has_get in Hh. destruct Hh as (n & G). exists n. split; [exact G|].
      rewrite G. destruct W' as (N & _).
      pose proof (numbered_get _ _ _ N G) as Hn.
      unfold speakerNameOf. destruct n; [lia|reflexivity].
    + rewrite resolveSpeaker_falsy by assumption.
      rewrite keysTruthy_get_falsy; [reflexivity| |assumption]. apply W.
Qed.

Lemma labelsAgree_callback now cb a : labelsAgree a -> labelsAgree (app_callback now cb a).
Proof.
  intros H. destruct cb; try exact H.
  apply labelsAgree_transcribed. exact H.
Qed.

Lemma labelsAgree_clear a : labelsAgree (handleClear a).
Proof. split; [apply wellNumbered_empty|constructor]. Qed.

(** X17. In every state the component can reach, each transcription
    shown carries the label of its speaker's number in the registry as it
    is now, or [Unknown] when its speaker id is falsy; so two
    transcriptions of the same speaker carry the same label. *)
Theorem labels_follow_registry :
  forall (JSON_parse : JsVal -> Completion JsVal) (acts : list (Z * Action)),
    let a := app (sysRun JSON_parse acts initialSystem) in
    Forall (labelled (speakers a)) (transcriptions a)
    /\ (forall i j, In i (transcriptions a) -> In j (transcriptions a) ->
                    sameValueZero (item_speakerId i) (item_speakerId j) = true ->
                    item_speakerName i = item_speakerName j).
Proof.
  intros parse acts a.
  assert (H : labelsAgree a).
  { subst a. apply sysRun_inv; try (intros; assumption).
    - apply labelsAgree_callback.
    - intros; apply labelsAgree_clear.
    - apply (labelsAgree_clear initialApp). }
  clearbody a. destruct H as (W & L). split; [exact L|].
  intros i j Hi Hj E. rewrite Forall_forall in L.
  pose proof (L i Hi) as Li. pose proof (L j Hj) as Lj. unfold labelled in Li, Lj.
  rewrite <- (sameValueZero_truthy _ _ E) in Lj.
  destruct (truthy (item_speakerId i)); [|congruence].
  destruct Li as (n & Gi & Ni). destruct Lj as (n' & Gj & Nj).
  rewrite (get_sameValueZero _ _ _ E) in Gi. congruence.
Qed.

(** ** React keys *)

Lemma keysFresh_add a a' id :
  keysFresh a ->
  Permutation (keysInUse a') (id :: keysInUse a) ->
  snd id = S (idCounter a) ->
  idCounter a' = S (idCounter a) ->
  keysFresh a'.
Proof.
  intros (B & D) Hp Hid Hc. split.
  - eapply Permutation_Forall; [symmetry; exact Hp|].
    constructor; [lia|]. eapply Forall_impl; [|exact B]. cbn. intros; lia.
  - eapply Permutation_NoDup; [symmetry; apply Permutation_map; exact Hp|].
    simpl. constructor; [|exact D].
    intros Hin. apply in_map_iff in Hin. destruct Hin as (x & E & Hx).
    rewrite Forall_forall in B. specialize (B x Hx). lia.
Qed.

Lemma keysFresh_pushEntry now ty message a :
  keysFresh a -> keysFresh (pushEntry now ty message a).
Proof.
  intros H. apply (keysFresh_add a _ (now, S (idCounter a)) H); try reflexivity.
  unfold keysInUse. cbn. rewrite map_app, <- app_assoc. simpl.
  symmetry. apply Permutation_middle.
Qed.

Lemma keysFresh_transcribed now text k a :
  keysFresh a -> keysFresh (app_onTranscribed now text k a).
Proof.
  intros H.
  set (a2 := set_transcriptions
               (transcriptions a
                ++ [mkItem (now, S (idCounter a)) text k
                      (speakerNameOf (JsMap.get (resolveSpeaker (speakers a) k) k)) now])
               (set_idCounter (S (idCounter a)) a)).
  assert (H2 : keysFresh a2).
  { apply (keysFresh_add a _ (now, S (idCounter a)) H); try reflexivity.
    unfold keysInUse. cbn. rewrite map_app, app_assoc. simpl.
    symmetry. apply Permutation_cons_append. }
  exact (keysFresh_pushEntry now transcribed_entry _ a2 H2).
Qed.

Lemma keysFresh_callback now cb a : keysFresh a -> keysFresh (app_callback now cb a).
Proof.
  intros H. destruct cb; simpl;
    try (apply keysFresh_pushEntry; exact H);
    try exact H.
  apply keysFresh_transcribed. exact H.
Qed.

Lemma keysFresh_clear a : keysFresh (handleClear a).
Proof. split; constructor. Qed.

(** X18. In every state the component can reach, the ids made by
    [generateUniqueId] that are in use, as keys of the event log and of the
    transcription list, have pairwise distinct counters, between 1 and the
    current counter: no two entries of a list share a key, also after
    [handleClear] has reset the counter. *)
Theorem keys_are_unique :
  forall (JSON_parse : JsVal -> Completion JsVal) (acts : list (Z * Action)),
    let a := app (sysRun JSON_parse acts initialSystem) in
    NoDup (map entry_id (events a))
    /\ NoDup (map item_id (transcriptions a))
    /\ NoDup (map snd (keysInUse a))
    /\ Forall (fun id => 1 <= snd id <= idCounter a) (keysInUse a).
Proof.
  intros parse acts a.
  assert (H : keysFresh a).
  { subst a. apply sysRun_inv; try (intros; assumption).
    - apply keysFresh_callback.
    - intros; apply keysFresh_clear.
    - apply (keysFresh_clear initialApp). }
  clearbody a. destruct H as (B & D).
  assert (D' : NoDup (keysInUse a)) by (apply (NoDup_map_inv snd); exact D).
  unfold keysInUse in D'.
  split; [apply (NoDup_app_remove_r _ _ D')|].
  split; [apply (NoDup_app_remove_l _ _ D')|].
  split; assumption.
Qed.

(* ================================================================== *)
(** * [formatTime]                                                     *)
(* ================================================================== *)

Lemma cut_noColon s rest :
  noColon s = true -> cut ":" (s ++ String ":" rest) = (s, Some rest).
Proof.
  induction s as [|c s IH]; simpl; intros H; [reflexivity|].
  apply andb_true_iff in H. destruct H as [Hc Hs]. apply negb_true_iff in Hc.
  rewrite Hc, IH by assumption. reflexivity.
Qed.

Lemma noColon_digits d : noColon (NilEmpty.string_of_uint d) = true.
Proof. induction d; simpl; auto. Qed.

Lemma noColon_padStart2 s : noColon s = true -> noColon (padStart2 s) = true.
Proof.
  unfold padStart2. destruct (String.length s) as [|[|n]]; simpl; auto.
Qed.

Lemma readNumber_decimal n : readNumber (decimal n) = Some n.
Proof.
  unfold readNumber, decimal. rewrite NilEmpty.usu. simpl.
  rewrite Unsigned.of_to. reflexivity.
Qed.

Lemma readNumber_padStart2 n : readNumber (padStart2 (decimal n)) = Some n.
Proof.
  unfold padStart2.
  destruct (String.length (decimal n)) as [|[|k]] eqn:E.
  - destruct (decimal n) eqn:D; [|discriminate].
    pose proof (readNumber_decimal n) as R. rewrite D in R.
    cbv in R. inversion R. reflexivity.
  - pose proof (readNumber_decimal n) as R. unfold readNumber in *. simpl.
    destruct (NilEmpty.uint_of_string (decimal n)); [|discriminate].
    simpl in *. exact R.
  - apply readNumber_decimal.
Qed.

Lemma clock_arith n : n / 3600 * 3600 + n mod 3600 / 60 * 60 + n mod 60 = n.
Proof.
  pose proof (Nat.div_mod_eq n 3600) as H1.
  pose proof (Nat.div_mod_eq (n mod 3600) 60) as H2.
  assert (H3 : (n mod 3600) mod 60 = n mod 60).
  { replace 3600 with (60 * 60) by reflexivity.
    rewrite Nat.Div0.mod_mul_r.
    rewrite Nat.mul_comm, Nat.Div0.mod_add. apply Nat.Div0.mod_mod. }
  lia.
Qed.

(** X19. [formatTime] loses nothing: reading its text [h:m:s] back gives
    the number of seconds it was made from, so two different counts are
    never shown as the same text. *)
Theorem formatTime_reads_back :
  forall seconds : nat,
    readTime (formatTime seconds) = Some seconds
    /\ (forall other, formatTime other = formatTime seconds -> other = seconds).
Proof.
  assert (R : forall n, readTime (formatTime n) = Some n).
  { intros n. unfold readTime, formatTime. cbv zeta. cbn [append].
    rewrite cut_noColon by (apply noColon_padStart2, noColon_digits).
    rewrite cut_noColon by (apply noColon_padStart2, noColon_digits).
    rewrite !readNumber_padStart2. f_equal. apply clock_arith. }
  intros n. split; [apply R|].
  intros m E. pose proof (R m) as Rm. rewrite E, R in Rm. congruence.
Qed.

Lemma length_append s1 s2 :
  String.length (s1 ++ s2) = String.length s1 + String.length s2.
Proof. induction s1 as [|c s1 IH]; simpl; [reflexivity|]. rewrite IH. reflexivity. Qed.

Lemma length_padStart2 s :
  String.length (padStart2 s) = Nat.max 2 (String.length s).
Proof.
  unfold padStart2. destruct (String.length s) as [|[|k]] eqn:E; simpl.
  - reflexivity.
  - rewrite E. reflexivity.
  - rewrite E. reflexivity.
Qed.

Lemma length_digits d : String.length (NilEmpty.string_of_uint d) = nb_digits d.
Proof. induction d; simpl; auto. Qed.

Lemma two_digits_bound d : nb_digits d <= 2 -> Nat.of_uint d < 100.
Proof.
  intros H.
  destruct d as [|d|d|d|d|d|d|d|d|d|d]; [cbv; lia|..];
    (destruct d as [|d|d|d|d|d|d|d|d|d|d]; [cbv; lia|..];
     (destruct d; [cbv; lia|..]; simpl in H; lia)).
Qed.

Lemma two_digits n : String.length (decimal n) <= 2 <-> n < 100.
Proof.
  unfold decimal. rewrite length_digits. split.
  - intros H. apply two_digits_bound in H. rewrite Unsigned.of_to in H. exact H.
  - intros H. do 100 (destruct n as [|n]; [cbv; lia|]). lia.
Qed.

(** X20. The text of [formatTime] has at least eight characters, and
    exactly eight ([hh:mm:ss]) precisely below one hundred hours; from
    there on the hour field grows. *)
Theorem formatTime_width :
  forall seconds : nat,
    8 <= String.length (formatTime seconds)
    /\ (String.length (formatTime seconds) = 8 <-> seconds < 100 * 3600).
Proof.
  intros n. unfold formatTime. cbv zeta.
  rewrite !length_append, !length_padStart2. cbn [String.length].
  assert (Hm : String.length (decimal (n mod 3600 / 60)) <= 2).
  { apply two_digits.
    pose proof (Nat.mod_upper_bound n 3600 ltac:(discriminate)).
    apply Nat.Div0.div_lt_upper_bound. lia. }
  assert (Hs : String.length (decimal (n mod 60)) <= 2).
  { apply two_digits.
    pose proof (Nat.mod_upper_bound n 60 ltac:(discriminate)). lia. }
  pose proof (two_digits (n / 3600)) as Hh.
  assert (Hd : n / 3600 < 100 <-> n < 100 * 3600).
  { split; intros H.
    - pose proof (Nat.div_mod_eq n 3600).
      pose proof (Nat.mod_upper_bound n 3600 ltac:(discriminate)). lia.
    - apply Nat.Div0.div_lt_upper_bound. lia. }
  split; [lia|]. rewrite <- Hd, <- Hh. lia.
Qed.

(* ================================================================== *)
(** * The statements at concrete inputs                                *)
(* ================================================================== *)

Lemma timers_have_one_owner_witness :
  In (mkTimer 5 TOKEN_REFRESH_INTERVAL TokenRefreshTick) (timers activeSession)
  /\ isRefreshTick (mkTimer 5 TOKEN_REFRESH_INTERVAL TokenRefreshTick) = true
  /\ tokenRefreshInterval activeSession = Some 5.
Proof.
  unfold activeSession.
  pose proof (timers_have_one_owner parseFixture appCallbacks startUp) as T.
  cbv zeta in T. destruct T as (_ & _ & C & _).
  assert (Hin : In (mkTimer 5 TOKEN_REFRESH_INTERVAL TokenRefreshTick)
                  (timers (run parseFixture startUp (newService appCallbacks))))
    by (vm_compute; auto).
  pose proof (C (mkTimer 5 TOKEN_REFRESH_INTERVAL TokenRefreshTick) Hin eq_refl) as H.
  cbn [timerId] in H.
  splits; [exact Hin|reflexivity|exact H].
Defined.

Lemma autoReconnect_switch_owns_restart_timer_witness :
  isRunning activeSession = true
  /\ timers (enableAutoReconnect activeSession)
     = otherTimers activeSession
       ++ [mkTimer (nextId activeSession) SESSION_TIMEOUT_MS ProactiveRestart].
Proof.
  unfold activeSession.
  pose proof (autoReconnect_switch_owns_restart_timer parseFixture appCallbacks startUp)
    as T.
  cbv zeta in T. destruct T as (_ & E & _).
  assert (Hr : isRunning (run parseFixture startUp (newService appCallbacks)) = true)
    by (vm_compute; reflexivity).
  split; [exact Hr|exact (E Hr)].
Defined.


Lemma stop_does_not_cancel_start_in_flight_witness :
  isRunning (newService appCallbacks) = false
  /\ exists c,
       effectsSince (stop (start ByCaller (newService appCallbacks)))
         (tokenFetched 1 "token-1" "chinanorth3"
            (stop (start ByCaller (newService appCallbacks))))
       = [SdkStartTranscribing c].
Proof.
  destruct (stop_does_not_cancel_start_in_flight parseFixture appCallbacks []
              "token-1" "chinanorth3" 1000%Z eq_refl) as (c & E & _).
  split; [reflexivity|]. exists c. exact E.
Defined.

Lemma refreshToken_replaces_token_only_witness :
  conversationTranscriber activeSession = Some 4
  /\ speechConfig activeSession = Some (mkSpeechConfig 2 "token-1" "chinanorth3")
  /\ speechConfig (tokenFetched (nextId activeSession) "token-2" "elsewhere"
                     (refreshToken activeSession))
     = Some (mkSpeechConfig 2 "token-2" "chinanorth3").
Proof.
  unfold activeSession.
  assert (Hc : conversationTranscriber (run parseFixture startUp (newService appCallbacks))
               = Some 4) by (vm_compute; reflexivity).
  assert (Hs : speechConfig (run parseFixture startUp (newService appCallbacks))
               = Some (mkSpeechConfig 2 "token-1" "chinanorth3"))
    by (vm_compute; reflexivity).
  pose proof (refreshToken_replaces_token_only parseFixture appCallbacks startUp
                "token-2" "elsewhere" 4 (mkSpeechConfig 2 "token-1" "chinanorth3")) as T.
  cbv zeta in T. destruct (T Hc Hs) as (A & _).
  cbn [configId configRegion] in A.
  splits; [exact Hc|exact Hs|exact A].
Defined.

Lemma refreshed_token_after_stop_is_an_error_witness :
  conversationTranscriber activeSession = Some 4
  /\ speechConfig activeSession = Some (mkSpeechConfig 2 "token-1" "chinanorth3")
  /\ has_onError appCallbacks = true
  /\ speechConfig (tokenFetched (nextId activeSession) "token-2" "chinanorth3"
                     (stop (refreshToken activeSession))) = None.
Proof.
  unfold activeSession.
  assert (Hc : conversationTranscriber (run parseFixture startUp (newService appCallbacks))
               = Some 4) by (vm_compute; reflexivity).
  assert (Hs : speechConfig (run parseFixture startUp (newService appCallbacks))
               = Some (mkSpeechConfig 2 "token-1" "chinanorth3"))
    by (vm_compute; reflexivity).
  assert (He : has_onError appCallbacks = true) by reflexivity.
  pose proof (refreshed_token_after_stop_is_an_error parseFixture appCallbacks startUp
                "token-2" "chinanorth3" 4 (mkSpeechConfig 2 "token-1" "chinanorth3")) as T.
  cbv zeta in T. destruct (T Hc Hs He) as (A & _).
  splits; [exact Hc|exact Hs|exact He|exact A].
Defined.

Lemma connection_open_arms_timers_witness :
  memNat 4 (pendingOpens connecting) = true
  /\ isRunning (step parseFixture (StartSucceeded 4 1000) connecting) = true
  /\ filter isRefreshTick
       (timers (step parseFixture (StartSucceeded 4 1000) connecting))
     = [mkTimer (nextId connecting) TOKEN_REFRESH_INTERVAL TokenRefreshTick].
Proof.
  unfold connecting.
  assert (Hm : memNat 4 (pendingOpens
                 (run parseFixture
                    [CallEnableAutoReconnect; CallStart;
                     TokenFetched 1 "token-1" "chinanorth3"]
                    (newService appCallbacks))) = true) by (vm_compute; reflexivity).
  pose proof (connection_open_arms_timers parseFixture appCallbacks
                [CallEnableAutoReconnect; CallStart;
                 TokenFetched 1 "token-1" "chinanorth3"] 4 1000%Z) as T.
  cbv zeta in T. destruct (T Hm) as (A & _ & C & _).
  splits; [exact Hm|exact A|exact C].
Defined.

Lemma start_token_failure_is_reported_witness :
  callbacks (service (sysRun parseFixture [(0%Z, ClickStart)] initialSystem))
  = appCallbacks
  /\ lookupPending 1
       (pendingTokens (service (sysRun parseFixture [(0%Z, ClickStart)] initialSystem)))
     = Some (TokForStart ByCaller)
  /\ error (app (sysStep parseFixture 10 (Env (TokenFetchFailed 1 "503"))
                   (sysRun parseFixture [(0%Z, ClickStart)] initialSystem)))
     = Some (startFailureNotice ByCaller "503").
Proof.
  assert (Hcb : callbacks (service (sysRun parseFixture [(0%Z, ClickStart)]
                                      initialSystem)) = appCallbacks)
    by (vm_compute; reflexivity).
  assert (L : lookupPending 1
                (pendingTokens (service (sysRun parseFixture [(0%Z, ClickStart)]
                                           initialSystem)))
              = Some (TokForStart ByCaller)) by (vm_compute; reflexivity).
  destruct (start_token_failure_is_reported parseFixture _ 10%Z 1 ByCaller "503" Hcb L)
    as (_ & E & _).
  splits; [exact Hcb|exact L|exact E].
Defined.

Lemma refresh_failure_keeps_session_witness :
  callbacks (service systemRefreshing) = appCallbacks
  /\ lookupPending 7 (pendingTokens (service systemRefreshing)) = Some TokForRefresh
  /\ isRunning (service (sysStep parseFixture 481500
                           (Env (TokenFetchFailed 7 "503")) systemRefreshing))
     = isRunning (service systemRefreshing)
  /\ isListening (app (sysStep parseFixture 481500
                         (Env (TokenFetchFailed 7 "503")) systemRefreshing))
     = false.
Proof.
  assert (Hcb : callbacks (service systemRefreshing) = appCallbacks)
    by (vm_compute; reflexivity).
  assert (L : lookupPending 7 (pendingTokens (service systemRefreshing))
              = Some TokForRefresh) by (vm_compute; reflexivity).
  destruct (refresh_failure_keeps_session parseFixture systemRefreshing 481500%Z 7
              "503" Hcb L) as (_ & R & _ & _ & _ & I & _).
  splits; [exact Hcb|exact L|exact R|exact I].
Defined.

Lemma transcriber_is_not_used_after_close_witness :
  trace (run parseFixture (startUp ++ proactiveRestartRun) (newService appCallbacks))
  = [TokenRequest 1; SdkStartTranscribing 4; Call OnSessionStarted;
     Call (OnSessionRestarting reasonProactive); SdkStopTranscribing 4]
    ++ SdkClose (TranscriberRes 4)
       :: [SdkClose (AudioConfigRes 3); SdkClose (SpeechConfigRes 2); TokenRequest 8;
           SdkStartTranscribing 11; Call OnSessionRestarted; Call OnSessionStarted]
  /\ SdkStartTranscribing 11 <> SdkStartTranscribing 4
  /\ conversationTranscriber
       (run parseFixture (startUp ++ proactiveRestartRun) (newService appCallbacks))
     = Some 11
  /\ ~ In (SdkClose (TranscriberRes 11))
         (trace (run parseFixture (startUp ++ proactiveRestartRun)
                   (newService appCallbacks))).
Proof.
  destruct (transcriber_is_not_used_after_close parseFixture appCallbacks
              (startUp ++ proactiveRestartRun)) as (A & B).
  assert (Ht : trace (run parseFixture (startUp ++ proactiveRestartRun)
                        (newService appCallbacks))
               = [TokenRequest 1; SdkStartTranscribing 4; Call OnSessionStarted;
                  Call (OnSessionRestarting reasonProactive); SdkStopTranscribing 4]
                 ++ SdkClose (TranscriberRes 4)
                    :: [SdkClose (AudioConfigRes 3); SdkClose (SpeechConfigRes 2);
                        TokenRequest 8; SdkStartTranscribing 11;
                        Call OnSessionRestarted; Call OnSessionStarted])
    by (vm_compute; reflexivity).
  assert (Hc : conversationTranscriber
                 (run parseFixture (startUp ++ proactiveRestartRun)
                    (newService appCallbacks)) = Some 11)
    by (vm_compute; reflexivity).
  destruct (A _ 4 _ (SdkStartTranscribing 11) Ht
              ltac:(simpl; auto 10)) as (N & _).
  splits; [exact Ht|exact N|exact Hc|exact (B 11 Hc)].
Defined.

Lemma restart_outcomes_never_exceed_announcements_witness :
  has_onSessionRestarting appCallbacks = true
  /\ restartsConcluded
       (run parseFixture (startUp ++ proactiveRestartRun) (newService appCallbacks))
     + restartsInFlight
         (run parseFixture (startUp ++ proactiveRestartRun) (newService appCallbacks))
     <= restartsAnnounced
          (run parseFixture (startUp ++ proactiveRestartRun) (newService appCallbacks)).
Proof.
  split; [reflexivity|].
  exact (restart_outcomes_never_exceed_announcements parseFixture appCallbacks
           (startUp ++ proactiveRestartRun) eq_refl).
Defined.

Lemma registry_is_a_numbering_witness :
  JsMap.get (speakers (app (sysRun parseFixture twiceTheSameSpeaker initialSystem)))
    (JStr "Guest-1") = Some 1
  /\ 1 <= 1 <= JsMap.size
                 (speakers (app (sysRun parseFixture twiceTheSameSpeaker initialSystem))).
Proof.
  destruct (registry_is_a_numbering parseFixture twiceTheSameSpeaker)
    as (_ & _ & _ & R & _).
  assert (G : JsMap.get
                (speakers (app (sysRun parseFixture twiceTheSameSpeaker initialSystem)))
                (JStr "Guest-1") = Some 1) by (vm_compute; reflexivity).
  split; [exact G|exact (R _ _ G)].
Defined.

Lemma registry_only_grows_witness :
  forallb (fun na => negb (isClear (snd na))) restartActions = true
  /\ JsMap.get (speakers (app systemWithOneSpeaker)) (JStr "Guest-1") = Some 1
  /\ JsMap.get (speakers (app (sysRun parseFixture restartActions systemWithOneSpeaker)))
       (JStr "Guest-1") = Some 1.
Proof.
  destruct (registry_only_grows parseFixture restartActions systemWithOneSpeaker eq_refl)
    as (K & _).
  assert (G : JsMap.get (speakers (app systemWithOneSpeaker)) (JStr "Guest-1") = Some 1)
    by (vm_compute; reflexivity).
  splits; [reflexivity|exact G|exact (K _ _ G)].
Defined.

Lemma labels_follow_registry_witness :
  exists i j,
    transcriptions (app (sysRun parseFixture twiceTheSameSpeaker initialSystem)) = [i; j]
    /\ sameValueZero (item_speakerId i) (item_speakerId j) = true
    /\ item_speakerName i = item_speakerName j.
Proof.
  destruct (labels_follow_registry parseFixture twiceTheSameSpeaker) as (_ & Same).
  assert (T : exists i j,
            transcriptions (app (sysRun parseFixture twiceTheSameSpeaker initialSystem))
            = [i; j]
            /\ sameValueZero (item_speakerId i) (item_speakerId j) = true)
    by (vm_compute; eauto).
  destruct T as (i & j & T & E). exists i, j.
  splits; [exact T|exact E|].
  apply Same; [rewrite T; simpl; auto|rewrite T; simpl; auto|exact E].
Defined.

Lemma formatTime_reads_back_witness :
  formatTime (3600 + 125) = formatTime 3725 /\ 3600 + 125 = 3725.
Proof.
  assert (E : formatTime (3600 + 125) = formatTime 3725) by (vm_compute; reflexivity).
  split; [exact E|exact (proj2 (formatTime_reads_back 3725) (3600 + 125) E)].
Defined.

Lemma formatTime_width_witness :
  3725 < 100 * 3600 /\ String.length (formatTime 3725) = 8.
Proof.
  assert (H : 3725 < 100 * 3600) by lia.
  split; [exact H|exact (proj2 (proj2 (formatTime_width 3725)) H)].
Defined.
